(** * Permanent-portfolio tracker: the web client's allocation, ledger and
    asset-grouping logic, and the engine contract it talks to.

    The development follows the TypeScript sources function by function:
    [Format] is lib/format.ts, [Types] the payload types of lib/types.ts,
    [AllocationPanel] the contribution form with its suggest / confirm flow,
    [Overview] the bucket card, [LedgerPage] the ledger summary and table,
    [AssetsPage] the grouping of assets under their buckets. [Engine] holds
    the allocation suggester and the crypto confirmation step as the
    specification describes them; the engine itself is a Python package
    that is not part of the client tree. Further modules follow the rest of
    the client: [Api] is lib/api.ts, [AllocationActions] the asset table,
    the apply button and the notices of the allocation panel, [AssetsBoard]
    drag and drop and the pending edits of the assets page, [LedgerForm]
    the date default and the asset choices of the ledger page,
    [OverviewPage] the tone of the history chart, [Sparkline] the chart
    itself, [Toast] the toast list and [ThemeToggle] the theme button.

    JavaScript values are embedded as follows.

    - A [number] is a finite rational, one of the two infinities, or NaN.
      Comparisons, [Math.min], [Math.max] and [Number.isFinite] are exact on
      this representation. A product, and every operation of the chart, is
      rounded to the nearest double by [round_double] (binary64: 53 bits,
      ties to even, subnormal numbers, overflow to an infinity); the sums
      of money amounts in the allocation panel are taken exactly. A zero
      carries no sign.
    - A [jsval] is a JSON-like value plus [undefined].
    - Functions whose behaviour belongs to the JavaScript runtime and not to
      this repository (string-to-number conversion, [trim], locale collation
      and formatting, [JSON.stringify], URL encoding) are fields of the class
      [Host]; every statement holds for all hosts.
    - An object literal used as a dictionary is a list of its own entries in
      insertion order; reads go through [plain_get], which also accounts for
      the members every object literal inherits.
    - React state is a record, and each handler is a function from the
      state (and the server's replies) to the next state or to the request
      it issues. *)

From Stdlib Require Import QArith Qminmax Qround Qabs Qpower ZArith String Ascii List
  Lia Lqa.
From stdpp Require Import gmap strings list pretty.

Import ListNotations.
Set Warnings "-register-all".
Local Open Scope string_scope.

(* ================================================================== *)
(** ** JavaScript numbers and values *)
(* ================================================================== *)

Module Js.

Inductive number : Type :=
| Finite (q : Q)
| PosInf
| NegInf
| NaN.

(** [Number.isFinite] *)
Definition isFinite (n : number) : bool :=
  match n with Finite _ => true | _ => false end.

(** [a <= b]; every comparison with NaN is false. *)
Definition num_leb (a b : number) : bool :=
  match a, b with
  | NaN, _ | _, NaN => false
  | NegInf, _ => true
  | _, PosInf => true
  | Finite x, Finite y => Qle_bool x y
  | _, _ => false
  end.

(** [a < b] *)
Definition num_ltb (a b : number) : bool :=
  match a, b with
  | NaN, _ | _, NaN => false
  | _, _ => negb (num_leb b a)
  end.

(** [a !== b] on numbers is the negation of this. *)
Definition num_eqb (a b : number) : bool :=
  match a, b with
  | Finite x, Finite y => Qeq_bool x y
  | PosInf, PosInf | NegInf, NegInf => true
  | _, _ => false
  end.

(** Truthiness of a number: neither zero nor NaN. *)
Definition num_truthy (n : number) : bool :=
  match n with
  | NaN => false
  | Finite q => negb (Qeq_bool q 0)
  | _ => true
  end.

Definition num_neg (n : number) : number :=
  match n with
  | Finite q => Finite (- q)
  | PosInf => NegInf
  | NegInf => PosInf
  | NaN => NaN
  end.

(** [Math.abs] *)
Definition num_abs (n : number) : number :=
  match n with
  | Finite q => Finite (Qabs q)
  | PosInf | NegInf => PosInf
  | NaN => NaN
  end.

(** [a + b] *)
Definition num_add (a b : number) : number :=
  match a, b with
  | NaN, _ | _, NaN => NaN
  | Finite x, Finite y => Finite (x + y)
  | PosInf, NegInf | NegInf, PosInf => NaN
  | PosInf, _ | _, PosInf => PosInf
  | NegInf, _ | _, NegInf => NegInf
  end.

(** An infinity scaled by a finite factor. *)
Definition inf_scale (inf : number) (q : Q) : number :=
  match (q ?= 0)%Q with
  | Eq => NaN
  | Gt => inf
  | Lt => num_neg inf
  end.

(** [2^k] for an integer [k] of either sign. *)
Definition pow2 (k : Z) : Q := (2 ^ k)%Q.

(** The integer nearest to [y]; of two equally near ones the even one. *)
Definition round_half_even (y : Q) : Z :=
  let f := Qfloor y in
  match (y - inject_Z f ?= 1 # 2)%Q with
  | Lt => f
  | Gt => (f + 1)%Z
  | Eq => if Z.even f then f else (f + 1)%Z
  end.

(** The exponent [e] with [2^e <= x < 2^(e+1)], for [x > 0]. *)
Definition floor_log2 (x : Q) : Z :=
  let e0 := (Z.log2 (Qnum x) - Z.log2 (Zpos (Qden x)))%Z in
  if Qle_bool (pow2 e0) x then e0 else (e0 - 1)%Z.

(** The double nearest to [x > 0]: [x] is rounded to a multiple of the
    quantum [2^k], where [k] leaves 53 bits to the leading part of [x] and
    does not go below the quantum [2^-1074] of the subnormal numbers. A
    result of [2^1024] or more has no double: [None]. *)
Definition round_positive (x : Q) : option Q :=
  let k := Z.max (floor_log2 x - 52) (-1074) in
  let r := (inject_Z (round_half_even (x / pow2 k)) * pow2 k)%Q in
  if Qle_bool (pow2 1024) r then None else Some (Qred r).

(** The IEEE 754 binary64 value of a real result: round to nearest, ties
    to even, overflow to an infinity. The result is in lowest terms, and
    equal rationals give the same result. *)
Definition round_double (q : Q) : number :=
  let x := Qred q in
  match Qnum x with
  | Z0 => Finite 0
  | Zpos _ =>
      match round_positive x with Some r => Finite r | None => PosInf end
  | Zneg _ =>
      match round_positive (- x) with Some r => Finite (- r) | None => NegInf end
  end.

(** The value an arithmetic operation stores, given its exact result. *)
Definition rounded (n : number) : number :=
  match n with
  | Finite q => round_double q
  | _ => n
  end.

(** [a * b]: the exact product, rounded to the nearest double. *)
Definition num_mul (a b : number) : number :=
  match a, b with
  | NaN, _ | _, NaN => NaN
  | Finite x, Finite y => round_double (x * y)
  | Finite x, inf => inf_scale inf x
  | inf, Finite y => inf_scale inf y
  | PosInf, PosInf | NegInf, NegInf => PosInf
  | _, _ => NegInf
  end.

(** [Math.min(a, b)] and [Math.max(a, b)] *)
Definition num_min (a b : number) : number :=
  match a, b with
  | NaN, _ | _, NaN => NaN
  | _, _ => if num_leb a b then a else b
  end.

Definition num_max (a b : number) : number :=
  match a, b with
  | NaN, _ | _, NaN => NaN
  | _, _ => if num_leb a b then b else a
  end.

Inductive jsval : Type :=
| JUndefined
| JNull
| JBool (b : bool)
| JNum (n : number)
| JStr (s : string)
| JArr (items : list jsval)
| JObj (fields : list (string * jsval)).

(** Own entries of an object, in insertion order. *)
Abbreviation dict := (list (string * jsval)).

Fixpoint own_get {A} (k : string) (d : list (string * A)) : option A :=
  match d with
  | [] => None
  | (k', v) :: rest => if String.eqb k k' then Some v else own_get k rest
  end.

(** Assignment to an own key: an existing entry keeps its position. *)
Fixpoint own_set {A} (k : string) (v : A) (d : list (string * A)) : list (string * A) :=
  match d with
  | [] => [(k, v)]
  | (k', v') :: rest =>
      if String.eqb k k' then (k, v) :: rest else (k', v') :: own_set k v rest
  end.

(** [v.k] for a key that no built-in prototype defines. *)
Definition get_prop (v : jsval) (k : string) : jsval :=
  match v with
  | JObj fields => default JUndefined (own_get k fields)
  | _ => JUndefined
  end.

(** [v?.k] *)
Definition opt_prop (v : jsval) (k : string) : jsval :=
  match v with
  | JUndefined | JNull => JUndefined
  | _ => get_prop v k
  end.

(** [v == null] *)
Definition is_nullish (v : jsval) : bool :=
  match v with JUndefined | JNull => true | _ => false end.

Definition truthy (v : jsval) : bool :=
  match v with
  | JUndefined | JNull => false
  | JBool b => b
  | JNum n => num_truthy n
  | JStr s => negb (String.eqb s "")
  | JArr _ | JObj _ => true
  end.

(** Functions of the JavaScript runtime. *)
Class Host : Type := {
  (** [Number(s)] for a string [s] *)
  string_to_number : string -> number;
  (** [Number(v)] for an array or object [v] *)
  object_to_number : jsval -> number;
  (** [String(n)] *)
  number_to_string : number -> string;
  (** the text of the member an object literal inherits under a name *)
  inherited_to_string : string -> string;
  (** [s.trim()] *)
  trim : string -> string;
  (** [a.localeCompare(b, "zh-CN")] *)
  localeCompare : string -> string -> Z;
  (** [q.toLocaleString("zh-CN", {minimumFractionDigits: d, maximumFractionDigits: d})] *)
  toLocaleString : Q -> nat -> string;
  (** [JSON.stringify] *)
  json_stringify : jsval -> string;
  (** [encodeURIComponent] *)
  encodeURIComponent : string -> string;
  (** [new URLSearchParams] filled by [set], then [toString()] *)
  search_params_to_string : list (string * string) -> string
}.

(** [Number(v)] *)
Definition Number `{Host} (v : jsval) : number :=
  match v with
  | JUndefined => NaN
  | JNull => Finite 0
  | JBool true => Finite 1
  | JBool false => Finite 0
  | JNum n => n
  | JStr s => string_to_number s
  | JArr _ | JObj _ => object_to_number v
  end.

(** [x || 0] for a number [x] *)
Definition num_or_zero (n : number) : number :=
  if num_truthy n then n else Finite 0.

(** [a || b] on strings *)
Definition str_or (a b : string) : string :=
  if String.eqb a "" then b else a.

(** [(Number(w) || 0) * 100], the expression every weight goes through
    before it is formatted. *)
Definition weight_percent `{Host} (w : jsval) : number :=
  num_mul (num_or_zero (Number w)) (Finite 100).

(** The names an object literal inherits from [Object.prototype]. *)
Definition object_prototype_keys : list string :=
  [ "constructor"; "__defineGetter__"; "__defineSetter__"; "hasOwnProperty";
    "__lookupGetter__"; "__lookupSetter__"; "isPrototypeOf";
    "propertyIsEnumerable"; "toString"; "valueOf"; "__proto__";
    "toLocaleString" ].

(** What [obj[k]] finds on an object literal. An inherited member is a
    function (or, for [__proto__], the prototype object): truthy, and
    without a [push] method. *)
Inductive slot (A : Type) : Type :=
| Own (v : A)
| Inherited
| Absent.
Arguments Own {A} v.
Arguments Inherited {A}.
Arguments Absent {A}.

Definition inherited_key (k : string) : bool :=
  existsb (String.eqb k) object_prototype_keys.

Definition plain_get {A} (d : list (string * A)) (k : string) : slot A :=
  match own_get k d with
  | Some v => Own v
  | None => if inherited_key k then Inherited else Absent
  end.

End Js.

Import Js.

(* ================================================================== *)
(** ** lib/format.ts *)
(* ================================================================== *)

Module Format.

Definition is_digit (c : ascii) : bool :=
  (48 <=? nat_of_ascii c)%nat && (nat_of_ascii c <=? 57)%nat.

Fixpoint all_digits (s : string) : bool :=
  match s with
  | EmptyString => true
  | String c rest => is_digit c && all_digits rest
  end.

Fixpoint ends_with (c : ascii) (s : string) : bool :=
  match s with
  | EmptyString => false
  | String c' EmptyString => Ascii.eqb c' c
  | String _ rest => ends_with c rest
  end.

Fixpoint drop_trailing_zeros (s : string) : string :=
  match s with
  | EmptyString => EmptyString
  | String c rest =>
      match drop_trailing_zeros rest with
      | EmptyString => if Ascii.eqb c "0" then EmptyString else String c EmptyString
      | rest' => String c rest'
      end
  end.

(** [s.replace(/(\.\d*?)0+$/, "$1")]: at the first dot that is followed by
    digits only, the last of them a zero, the trailing zeros are dropped. *)
Fixpoint strip_fraction_zeros (s : string) : string :=
  match s with
  | EmptyString => EmptyString
  | String c rest =>
      if Ascii.eqb c "." && all_digits rest && ends_with "0" rest
      then String c (drop_trailing_zeros rest)
      else String c (strip_fraction_zeros rest)
  end.

(** [s.replace(/\.$/, "")] *)
Fixpoint strip_final_dot (s : string) : string :=
  match s with
  | EmptyString => EmptyString
  | String c EmptyString => if Ascii.eqb c "." then EmptyString else s
  | String c rest => String c (strip_final_dot rest)
  end.

Definition placeholder : string := "—".

Definition fmtNum `{Host} (value : jsval) (decimals : nat) : string :=
  match Number value with
  | Finite q => strip_final_dot (strip_fraction_zeros (toLocaleString q decimals))
  | _ => placeholder
  end.

Definition fmtCny `{Host} (value : jsval) (decimals : nat) : string :=
  let n := Number value in
  if negb (isFinite n) then placeholder else fmtNum (JNum n) decimals.

Definition fmtSignedCny `{Host} (value : jsval) (decimals : nat) : string :=
  let n := Number value in
  if negb (isFinite n) then placeholder
  else
    let sign :=
      if num_ltb (Finite 0) n then "+"
      else if num_ltb n (Finite 0) then "−" else "" in
    sign ++ fmtNum (JNum (num_abs n)) decimals.

Definition fmtPct `{Host} (value : jsval) (decimals : nat) : string :=
  let n := Number value in
  if negb (isFinite n) then placeholder else fmtNum (JNum n) decimals ++ "%".

Definition fmtQty `{Host} (value : jsval) (kind : option string) : string :=
  match kind with
  | Some "cn" => fmtNum value 4
  | Some "crypto" => fmtNum value 8
  | Some "cash" => fmtNum value 2
  | _ => fmtNum value 6
  end.

End Format.

(* ================================================================== *)
(** ** lib/types.ts: the payloads the client receives *)
(* ================================================================== *)

Module Types.

Record AssetBuySuggestion : Type := {
  asset_id : option string;
  abs_name : string;
  abs_code : string;
  amount_cny : jsval;
  est_quantity : jsval
}.

Record CategorySuggestion : Type := {
  category_id : string;
  cs_name : string;
  current_weight : jsval;
  target_value_after : jsval;
  allocate_amount : jsval;
  weight_after : jsval;
  cs_assets : option (list AssetBuySuggestion)
}.

Record ContributionSuggestion : Type := {
  contribution_amount : jsval;
  categories : list CategorySuggestion;
  note : string;
  prefill_assets : option dict;
  contribution_remaining : jsval
}.

Record CategoryView : Type := {
  cv_id : string;
  cv_name : string;
  cv_value : jsval;
  cv_weight : jsval;
  cv_target_weight : jsval;
  cv_min_weight : jsval;
  cv_max_weight : jsval;
  cv_status : string;
  cv_note : string
}.

Record MetricsTotal : Type := {
  mt_principal : jsval;
  mt_current_value : jsval;
  mt_profit : jsval;
  mt_xirr_annual : jsval
}.

Record MetricsAsset : Type := {
  ma_id : string;
  ma_kind : string;
  ma_code : string;
  ma_name : string;
  ma_principal : jsval;
  ma_current_value : jsval;
  ma_profit : jsval;
  ma_xirr_annual : jsval
}.

Record LedgerMetricsPayload : Type := {
  lm_total : option MetricsTotal;
  lm_per_asset : option (list MetricsAsset)
}.

Record Category : Type := {
  cat_id : string;
  cat_name : string
}.

Record PortfolioAsset : Type := {
  pa_id : string;
  pa_kind : string;
  pa_code : option string;
  pa_name : option string;
  pa_coingecko_id : option string;
  pa_category_id : option string
}.

End Types.

Import Types.

(* ================================================================== *)
(** ** AllocationPanel (the contribution form and its two-phase flow) *)
(* ================================================================== *)

Module AllocationPanel.

Record asset_meta : Type := {
  kind : string;
  source : option string;
  name : option string
}.

(** A value held by the locally built [prefillAssets] object. *)
Inductive cell : Type :=
| CNum (n : number)
| CStr (s : string).

Definition cell_to_jsval (c : cell) : jsval :=
  match c with CNum n => JNum n | CStr s => JStr s end.

Definition cells_to_dict (d : list (string * cell)) : dict :=
  map (fun kv => (fst kv, cell_to_jsval (snd kv))) d.

Record CryptoPrefill : Type := {
  total : number;
  items : list (string * number);
  prefillAssets : list (string * cell)
}.

(** [s.includes(needle)] *)
Fixpoint includes (s needle : string) : bool :=
  if String.prefix needle s then true
  else match s with
       | EmptyString => false
       | String _ rest => includes rest needle
       end.

(** [(prefillAssets[aid] || 0) + amt] *)
Definition accumulate `{Host} (found : slot cell) (aid : string) (amt : number) : cell :=
  match found with
  | Own (CNum n) => CNum (num_add (num_or_zero n) amt)
  | Own (CStr s) =>
      if String.eqb s "" then CNum (num_add (Finite 0) amt)
      else CStr (s ++ number_to_string amt)
  | Inherited => CStr (inherited_to_string aid ++ number_to_string amt)
  | Absent => CNum (num_add (Finite 0) amt)
  end.

(** [obj[k] = v] for a primitive [v]: writing to [__proto__] is ignored. *)
Definition plain_set_primitive {A} (k : string) (v : A) (d : list (string * A))
  : list (string * A) :=
  if String.eqb k "__proto__" then d else own_set k v d.

(** The body of the inner loop of [collectCryptoPrefill]. [metaById] is a
    lookup table: whatever [metaById[aid]] reaches besides an entry of its
    own is a member objects inherit, which has no [kind] "crypto" and is
    skipped like a missing entry. *)
Definition visit_asset `{Host} (metaById : gmap string asset_meta)
    (acc : CryptoPrefill) (a : AssetBuySuggestion) : CryptoPrefill :=
  let aid := default "" (asset_id a) in
  if String.eqb aid "" then acc
  else
    match metaById !! aid with
    | None => acc
    | Some meta =>
        if negb (String.eqb (kind meta) "crypto") then acc
        else
          let src := default "" (source meta) in
          if includes src "manual-quantity" then acc
          else
            let amt :=
              Number (if truthy (amount_cny a) then amount_cny a else JNum (Finite 0)) in
            if negb (isFinite amt) || num_leb amt (Finite 0) then acc
            else
              {| total := num_add (total acc) amt;
                 items :=
                   (items acc ++
                    [(str_or (abs_name a)
                        (str_or (default "" (name meta))
                           (str_or (abs_code a) Format.placeholder)), amt)])%list;
                 prefillAssets :=
                   plain_set_primitive aid
                     (accumulate (plain_get (prefillAssets acc) aid) aid amt)
                     (prefillAssets acc) |}
    end.

Definition visit_category `{Host} (metaById : gmap string asset_meta)
    (acc : CryptoPrefill) (c : CategorySuggestion) : CryptoPrefill :=
  fold_left (visit_asset metaById) (default [] (cs_assets c)) acc.

Definition collectCryptoPrefill `{Host} (sug : option ContributionSuggestion)
    (metaById : gmap string asset_meta) : CryptoPrefill :=
  fold_left (visit_category metaById)
    (match sug with Some s => categories s | None => [] end)
    {| total := Finite 0; items := []; prefillAssets := [] |}.

(** The claim's reading of [collectCryptoPrefill], to compare the loop
    with: which entries count, and what is reported for them. *)
Definition entry_amount `{Host} (a : AssetBuySuggestion) : number :=
  Number (if truthy (amount_cny a) then amount_cny a else JNum (Finite 0)).

Definition entry_id (a : AssetBuySuggestion) : string :=
  default "" (asset_id a).

Definition wallet_backed_crypto (metaById : gmap string asset_meta) (aid : string) : bool :=
  match metaById !! aid with
  | Some meta =>
      String.eqb (kind meta) "crypto"
      && negb (includes (default "" (source meta)) "manual-quantity")
  | None => false
  end.

Definition eligible `{Host} (metaById : gmap string asset_meta)
    (a : AssetBuySuggestion) : bool :=
  negb (String.eqb (entry_id a) "")
  && wallet_backed_crypto metaById (entry_id a)
  && isFinite (entry_amount a)
  && num_ltb (Finite 0) (entry_amount a).

Definition suggested_entries (sug : option ContributionSuggestion)
  : list AssetBuySuggestion :=
  flat_map (fun c => default [] (cs_assets c))
    (match sug with Some s => categories s | None => [] end).

Definition item_of `{Host} (metaById : gmap string asset_meta)
    (a : AssetBuySuggestion) : string * number :=
  (str_or (abs_name a)
     (str_or (default "" (metaById !! entry_id a ≫= name))
        (str_or (abs_code a) Format.placeholder)),
   entry_amount a).

(** [0 + x1 + ... + xn], summed from the left. *)
Definition num_sum (l : list number) : number :=
  fold_left num_add l (Finite 0).

Definition has_id (aid : string) (a : AssetBuySuggestion) : bool :=
  String.eqb (entry_id a) aid.

(** What the per-asset object should hold under a key: nothing when no
    counted entry carries it, else the sum of their amounts. *)
Definition tally `{Host} (aid : string) (included : list AssetBuySuggestion)
  : option cell :=
  match List.filter (has_id aid) included with
  | [] => None
  | l => Some (CNum (num_sum (map entry_amount l)))
  end.

(** [Math.max(0, Math.min(20, n))] *)
Definition clamp_slip (n : number) : number :=
  num_max (Finite 0) (num_min (Finite 20) n).

Definition readSlipPct `{Host} (settings : jsval) : number :=
  let from_effective :=
    let eff := opt_prop settings "effective" in
    let v := opt_prop eff "crypto_slip_pct" in
    let n := Number v in
    if isFinite n then clamp_slip n else Finite 1 in
  let ov := opt_prop settings "override" in
  if truthy ov && negb (is_nullish (get_prop ov "crypto_slip_pct")) then
    let n := Number (get_prop ov "crypto_slip_pct") in
    if isFinite n then clamp_slip n else from_effective
  else from_effective.

(** The claim's reading of the setting, to compare [readSlipPct] with: a
    value clamped to the interval from 0 to 20, and the choice between the
    override, the effective configuration and the default. *)
Definition clamped_0_20 (q : Q) : Q :=
  if Qle_bool 20 q then 20%Q else if Qle_bool 0 q then q else 0%Q.

Definition override_slip (settings : jsval) : jsval :=
  opt_prop (opt_prop settings "override") "crypto_slip_pct".

Definition effective_slip (settings : jsval) : jsval :=
  opt_prop (opt_prop settings "effective") "crypto_slip_pct".

Definition slip_spec `{Host} (settings : jsval) : number :=
  let from_override :=
    if is_nullish (override_slip settings) then NaN
    else Number (override_slip settings) in
  match from_override, Number (effective_slip settings) with
  | Finite q, _ => Finite (clamped_0_20 q)
  | _, Finite q => Finite (clamped_0_20 q)
  | _, _ => Finite 1
  end.

(** The component's React state; [st_prefillAssets] is the state variable
    [prefillAssets]. *)
Record PanelState : Type := {
  contribution : string;
  suggestion : option ContributionSuggestion;
  cryptoBaseline : option dict;
  expectedCrypto : option (list (string * cell));
  st_prefillAssets : option dict;
  contributionTotal : option number;
  contributionRemaining : option number
}.

Definition initial_state : PanelState :=
  {| contribution := "";
     suggestion := None;
     cryptoBaseline := None;
     expectedCrypto := None;
     st_prefillAssets := None;
     contributionTotal := None;
     contributionRemaining := None |}.

(** The text input's [onChange]. *)
Definition setContribution (text : string) (s : PanelState) : PanelState :=
  {| contribution := text;
     suggestion := suggestion s;
     cryptoBaseline := cryptoBaseline s;
     expectedCrypto := expectedCrypto s;
     st_prefillAssets := st_prefillAssets s;
     contributionTotal := contributionTotal s;
     contributionRemaining := contributionRemaining s |}.

(** [Object.values(prefillAssets).reduce((sum, v) => sum + (Number(v) || 0), 0)],
    zero when the state holds no prefill. *)
Definition prefillSum `{Host} (s : PanelState) : number :=
  match st_prefillAssets s with
  | Some d =>
      fold_left (fun sum kv => num_add sum (num_or_zero (Number (snd kv)))) d (Finite 0)
  | None => Finite 0
  end.

(** The amount guard shared by the handlers:
    [!Number.isFinite(amt) || amt <= 0]. *)
Definition rejected_amount (amt : number) : bool :=
  negb (isFinite amt) || num_leb amt (Finite 0).

Inductive suggest_action : Type :=
| ToastWarn (msg : string)
| SuggestMutate (amt : number).

(** [Number(contribution || 0)] *)
Definition entered_amount `{Host} (s : PanelState) : number :=
  Number (if truthy (JStr (contribution s)) then JStr (contribution s)
          else JNum (Finite 0)).

Definition showSuggest `{Host} (s : PanelState) : suggest_action :=
  let amt := entered_amount s in
  if rejected_amount amt then ToastWarn "请输入新增资金"
  else SuggestMutate amt.

(** What a mutation function does: it throws, or it issues one GET. *)
Inductive mutation_result : Type :=
| Throws (msg : string)
| Requests (url : string).

(** [suggestM.mutationFn] *)
Definition suggest_mutationFn `{Host} (s : PanelState) (amt : number) : mutation_result :=
  let params :=
    ("contribution", number_to_string amt) ::
    match st_prefillAssets s with
    | Some d =>
        if (0 <? length d)%nat then [("prefill", json_stringify (JObj d))] else []
    | None => []
    end in
  Requests ("/api/v2/allocation/suggest?" ++ search_params_to_string params).

(** The reply to [GET /api/v2/crypto/snapshot] inside [suggestM.onSuccess]:
    the call throws, or it yields a parsed body (possibly [null]). *)
Record snapshot_body : Type := {
  snap_ok : bool;
  snap_assets : option dict
}.

Inductive snapshot_reply : Type :=
| SnapshotFailed
| SnapshotOk (body : option snapshot_body).

(** [suggestM.onSuccess], run from its first line to its last with nothing
    else happening while it awaits the snapshot. *)
Definition suggest_onSuccess `{Host} (metaById : gmap string asset_meta)
    (s : PanelState) (sug : option ContributionSuggestion) (amt : number)
    (reply : snapshot_reply) : PanelState :=
  let cryptoInfo := collectCryptoPrefill sug metaById in
  {| contribution := contribution s;
     suggestion := sug;
     contributionTotal := Some amt;
     contributionRemaining := Some amt;
     expectedCrypto :=
       if num_leb (prefillSum s) (Finite 0)
       then (if num_ltb (Finite 0) (total cryptoInfo)
             then Some (prefillAssets cryptoInfo) else None)
       else expectedCrypto s;
     st_prefillAssets := st_prefillAssets s;
     cryptoBaseline :=
       match reply with
       | SnapshotFailed => None
       | SnapshotOk body => Some (default [] (body ≫= snap_assets))
       end |}.

(** [suggestM.onSuccess] up to its [await]: the suggestion, the two
    amounts and the expected amounts are set and the snapshot is requested.
    The baseline is still the one held before. *)
Definition suggest_onSuccess_begin `{Host} (metaById : gmap string asset_meta)
    (s : PanelState) (sug : option ContributionSuggestion) (amt : number)
  : PanelState :=
  let cryptoInfo := collectCryptoPrefill sug metaById in
  {| contribution := contribution s;
     suggestion := sug;
     contributionTotal := Some amt;
     contributionRemaining := Some amt;
     expectedCrypto :=
       if num_leb (prefillSum s) (Finite 0)
       then (if num_ltb (Finite 0) (total cryptoInfo)
             then Some (prefillAssets cryptoInfo) else None)
       else expectedCrypto s;
     st_prefillAssets := st_prefillAssets s;
     cryptoBaseline := cryptoBaseline s |}.

(** The rest of [suggestM.onSuccess], once the snapshot request has
    settled: [setCryptoBaseline] with the assets of the reply, or with
    [null] in the [catch] branch. *)
Definition suggest_onSuccess_end (s : PanelState) (reply : snapshot_reply)
  : PanelState :=
  {| contribution := contribution s;
     suggestion := suggestion s;
     contributionTotal := contributionTotal s;
     contributionRemaining := contributionRemaining s;
     expectedCrypto := expectedCrypto s;
     st_prefillAssets := st_prefillAssets s;
     cryptoBaseline :=
       match reply with
       | SnapshotFailed => None
       | SnapshotOk body => Some (default [] (body ≫= snap_assets))
       end |}.

(** [Number(contributionTotal ?? contribution ?? 0)]; [contribution] is a
    string and never nullish. *)
Definition baseAmount `{Host} (s : PanelState) : number :=
  match contributionTotal s with
  | Some t => t
  | None => string_to_number (contribution s)
  end.

(** [confirmCryptoM.mutationFn] *)
Definition confirmCrypto_mutationFn `{Host} (s : PanelState) (settings : jsval)
  : mutation_result :=
  if rejected_amount (baseAmount s) then Throws "invalid amount"
  else
    match cryptoBaseline s with
    | None => Throws "missing baseline"
    | Some baseline =>
        match expectedCrypto s with
        | None => Throws "missing expected"
        | Some expected =>
            if (length expected =? 0)%nat then Throws "missing expected"
            else
              let baselineParam := encodeURIComponent (json_stringify (JObj baseline)) in
              let expectedParam :=
                encodeURIComponent (json_stringify (JObj (cells_to_dict expected))) in
              let slipPct := readSlipPct settings in
              Requests
                ("/api/v2/allocation/suggest-after-crypto?contribution="
                   ++ encodeURIComponent (number_to_string (baseAmount s))
                   ++ "&baseline=" ++ baselineParam
                   ++ "&expected=" ++ expectedParam
                   ++ "&slip_pct=" ++ encodeURIComponent (number_to_string slipPct))
        end
    end.

(** [confirmCryptoM.onSuccess]; reading [contribution_remaining] off a
    [null] payload throws before any state is set. *)
Definition confirmCrypto_onSuccess `{Host} (s : PanelState)
    (sug : option ContributionSuggestion) : PanelState :=
  match sug with
  | None => s
  | Some sg =>
      let pa := default [] (prefill_assets sg) in
      let remaining := Number (contribution_remaining sg) in
      {| contribution := contribution s;
         suggestion := Some sg;
         cryptoBaseline := cryptoBaseline s;
         expectedCrypto := expectedCrypto s;
         st_prefillAssets := if (0 <? length pa)%nat then Some pa else None;
         contributionTotal := contributionTotal s;
         contributionRemaining :=
           if isFinite remaining then Some remaining else contributionRemaining s |}
  end.

(** The phase-1 flow as the user drives it: the button handler, then the
    request, then the success handler with the server's two replies. [None]
    when the handler only warned. *)
Definition phase1 `{Host} (metaById : gmap string asset_meta) (s : PanelState)
    (sug : option ContributionSuggestion) (reply : snapshot_reply)
  : option PanelState :=
  match showSuggest s with
  | ToastWarn _ => None
  | SuggestMutate amt => Some (suggest_onSuccess metaById s sug amt reply)
  end.

(** What can happen to the state between phase 1 and a later click on the
    confirm button without ending the flow: the text input is edited, or an
    earlier confirmation comes back. (The clear button and a successful
    apply reset the whole state; another suggestion is a new phase 1.) The
    same can happen while [suggestM.onSuccess] awaits the snapshot: the
    suggest button is disabled then, the input and the confirm button are
    not. *)
Inductive panel_event : Type :=
| EditContribution (text : string)
| ConfirmSucceeded (sug : option ContributionSuggestion).

Definition step `{Host} (s : PanelState) (e : panel_event) : PanelState :=
  match e with
  | EditContribution text => setContribution text s
  | ConfirmSucceeded sug => confirmCrypto_onSuccess s sug
  end.

Definition run `{Host} (events : list panel_event) (s : PanelState) : PanelState :=
  fold_left step events s.

(** The phase-2 request as the interface describes it: the contribution,
    the baseline, the expected amounts and the tolerance as query
    arguments. *)
Definition confirm_request_url `{Host} (contribution_amount : number)
    (baseline : dict) (expected : list (string * cell)) (slip_pct : number) : string :=
  "/api/v2/allocation/suggest-after-crypto?contribution="
    ++ encodeURIComponent (number_to_string contribution_amount)
    ++ "&baseline=" ++ encodeURIComponent (json_stringify (JObj baseline))
    ++ "&expected="
    ++ encodeURIComponent (json_stringify (JObj (cells_to_dict expected)))
    ++ "&slip_pct=" ++ encodeURIComponent (number_to_string slip_pct).

(** [list.map(f).join(sep)] *)
Fixpoint join (sep : string) (parts : list string) : string :=
  match parts with
  | [] => ""
  | [x] => x
  | x :: rest => x ++ sep ++ join sep rest
  end.

(** One entry of the line under a bucket's name. *)
Definition asset_line `{Host} (a : AssetBuySuggestion) : string :=
  str_or (abs_name a) (str_or (abs_code a) Format.placeholder)
    ++ " ¥" ++ Format.fmtCny (amount_cny a) 2
    ++ (if is_nullish (est_quantity a) then ""
        else "（≈" ++ Format.fmtQty (est_quantity a) None ++ ")").

(** One row of the suggestion table: the bucket's name with the optional
    line of per-asset amounts, and the four figures. *)
Record suggestion_row : Type := {
  row_title : string;
  row_assets : option string;
  row_current_weight : string;
  row_allocate : string;
  row_weight_after : string;
  row_target_after : string
}.

Definition render_suggestion_row `{Host} (c : CategorySuggestion) : suggestion_row :=
  {| row_title := str_or (cs_name c) (category_id c);
     row_assets :=
       match cs_assets c with
       | Some (a :: rest) => Some ("建议：" ++ join "；" (map asset_line (a :: rest)))
       | _ => None
       end;
     row_current_weight := Format.fmtPct (JNum (weight_percent (current_weight c))) 1;
     row_allocate := "¥ " ++ Format.fmtCny (allocate_amount c) 2;
     row_weight_after := Format.fmtPct (JNum (weight_percent (weight_after c))) 1;
     row_target_after := "¥ " ++ Format.fmtCny (target_value_after c) 2 |}.

End AllocationPanel.

(* ================================================================== *)
(** ** components/overview/BucketCard.tsx *)
(* ================================================================== *)

Module Overview.

(** The header of a bucket card; the asset table below it is a separate
    component. *)
Record bucket_card : Type := {
  card_title : string;
  card_weight : string;
  card_target : string;
  card_min : string;
  card_max : string;
  card_warn : bool;
  card_note : option string;
  card_value : string
}.

Definition BucketCard `{Host} (c : CategoryView) : bucket_card :=
  {| card_title := cv_name c;
     card_weight := Format.fmtPct (JNum (weight_percent (cv_weight c))) 1;
     card_target := Format.fmtPct (JNum (weight_percent (cv_target_weight c))) 0;
     card_min := Format.fmtPct (JNum (weight_percent (cv_min_weight c))) 0;
     card_max := Format.fmtPct (JNum (weight_percent (cv_max_weight c))) 0;
     card_warn := String.eqb (cv_status c) "warn";
     card_note := if String.eqb (cv_note c) "" then None else Some (cv_note c);
     card_value := "¥ " ++ Format.fmtCny (cv_value c) 2 |}.

End Overview.

(* ================================================================== *)
(** ** app/ledger/page.tsx *)
(* ================================================================== *)

Module LedgerPage.

(** [v ?? 0] *)
Definition or_zero (v : jsval) : jsval :=
  if is_nullish v then JNum (Finite 0) else v.

(** [Number(v) !== 0] *)
Definition nonzero `{Host} (v : jsval) : bool :=
  negb (num_eqb (Number v) (Finite 0)).

(** [total?.xirr_annual == null ? null : Number(total.xirr_annual) * 100] *)
Definition xirr_percent `{Host} (v : jsval) : option number :=
  if is_nullish v then None else Some (num_mul (Number v) (Finite 100)).

(** The summary card at the top of the page. [tc_xirr] is the optional
    [<span>] next to the profit. *)
Record total_card : Type := {
  tc_current_value : string;
  tc_profit : string;
  tc_xirr : option string;
  tc_principal : string
}.

Definition showProfit `{Host} (total : option MetricsTotal) : bool :=
  match total with
  | None => false
  | Some t =>
      match xirr_percent (mt_xirr_annual t) with Some _ => true | None => false end
      || nonzero (or_zero (mt_principal t))
      || nonzero (or_zero (mt_current_value t))
      || nonzero (or_zero (mt_profit t))
  end.

Definition render_total_card `{Host} (data : option LedgerMetricsPayload) : total_card :=
  let total := data ≫= lm_total in
  let field (f : MetricsTotal -> jsval) : jsval :=
    match total with Some t => f t | None => JUndefined end in
  let profit : jsval :=
    if is_nullish (field mt_profit) then JNull else JNum (Number (field mt_profit)) in
  let xirr := xirr_percent (field mt_xirr_annual) in
  {| tc_current_value := Format.fmtCny (field mt_current_value) 2;
     tc_profit :=
       if showProfit total then Format.fmtSignedCny profit 2 else Format.placeholder;
     tc_xirr :=
       match xirr with
       | Some x =>
           if showProfit total then Some ("(" ++ Format.fmtPct (JNum x) 2 ++ ")")
           else None
       | None => None
       end;
     tc_principal := Format.fmtCny (field mt_principal) 2 |}.

(** One row of the per-asset table. *)
Record asset_row : Type := {
  ar_name : string;
  ar_kind : string;
  ar_code : string;
  ar_principal : string;
  ar_current_value : string;
  ar_profit : string;
  ar_xirr : string
}.

Definition render_asset_row `{Host} (a : MetricsAsset) : asset_row :=
  let p := Number (if truthy (ma_profit a) then ma_profit a else JNum (Finite 0)) in
  let x := xirr_percent (ma_xirr_annual a) in
  {| ar_name := ma_name a;
     ar_kind := ma_kind a;
     ar_code := ma_code a;
     ar_principal := "¥ " ++ Format.fmtCny (ma_principal a) 2;
     ar_current_value := "¥ " ++ Format.fmtCny (ma_current_value a) 2;
     ar_profit := "¥ " ++ Format.fmtSignedCny (JNum p) 2;
     ar_xirr :=
       match x with
       | None => Format.placeholder
       | Some x => Format.fmtPct (JNum x) 2
       end |}.

Definition render_asset_rows `{Host} (data : option LedgerMetricsPayload) : list asset_row :=
  map render_asset_row (default [] (data ≫= lm_per_asset)).

End LedgerPage.

(* ================================================================== *)
(** ** The assets page: grouping assets under their buckets *)
(* ================================================================== *)

Module AssetsPage.

Definition labelOf `{Host} (a : PortfolioAsset) : string :=
  trim
    (str_or (default "" (pa_name a))
       (str_or (default "" (pa_code a))
          (str_or (default "" (pa_coingecko_id a))
             (if String.eqb (pa_kind a) "cash" then "现金" else pa_id a)))).

(** How a run of the memo body ends. [OutsideModel] marks the one input
    this embedding does not follow: a category whose id is [__proto__],
    for which the assignment [map[c.id] = []] replaces the prototype of
    [map] instead of adding a key. *)
Inductive outcome (A : Type) : Type :=
| Returns (a : A)
| TypeError
| OutsideModel.
Arguments Returns {A} a.
Arguments TypeError {A}.
Arguments OutsideModel {A}.

Record grouping : Type := {
  g_map : list (string * list PortfolioAsset);
  unassigned : list PortfolioAsset
}.

(** [for (const c of categories) map[c.id] = []] *)
Fixpoint init_map (categories : list Category)
    (m : list (string * list PortfolioAsset))
  : option (list (string * list PortfolioAsset)) :=
  match categories with
  | [] => Some m
  | c :: rest =>
      if String.eqb (cat_id c) "__proto__" then None
      else init_map rest (own_set (cat_id c) [] m)
  end.

(** [(a.category_id || "").trim()] *)
Definition category_key `{Host} (a : PortfolioAsset) : string :=
  trim (default "" (pa_category_id a)).

(** The body of the loop over the assets. [map[cid].push(a)] on an
    inherited member calls [undefined]. *)
Definition place `{Host} (g : grouping) (a : PortfolioAsset) : outcome grouping :=
  let cid := category_key a in
  if String.eqb cid "" then
    Returns {| g_map := g_map g; unassigned := (unassigned g ++ [a])%list |}
  else
    match plain_get (g_map g) cid with
    | Own l =>
        Returns {| g_map := own_set cid (l ++ [a])%list (g_map g);
                   unassigned := unassigned g |}
    | Inherited => TypeError
    | Absent =>
        Returns {| g_map := g_map g; unassigned := (unassigned g ++ [a])%list |}
    end.

Fixpoint place_all `{Host} (g : grouping) (assets : list PortfolioAsset)
  : outcome grouping :=
  match assets with
  | [] => Returns g
  | a :: rest =>
      match place g a with
      | Returns g' => place_all g' rest
      | TypeError => TypeError
      | OutsideModel => OutsideModel
      end
  end.

(** The comparator [(x, y) => labelOf(x).localeCompare(labelOf(y), "zh-CN")]
    keeps [x] in front of [y] when it is not positive. *)
Definition label_leb `{Host} (x y : PortfolioAsset) : bool :=
  (localeCompare (labelOf x) (labelOf y) <=? 0)%Z.

Fixpoint insert_by_label `{Host} (x : PortfolioAsset) (l : list PortfolioAsset)
  : list PortfolioAsset :=
  match l with
  | [] => [x]
  | y :: rest => if label_leb x y then x :: l else y :: insert_by_label x rest
  end.

(** [list.sort(comparator)]. The sort is stable, so for a comparator that
    orders the labels consistently it yields what insertion from the right
    yields; all that is used of it below is that it permutes the list. *)
Definition sort_by_label `{Host} (l : list PortfolioAsset) : list PortfolioAsset :=
  fold_right insert_by_label [] l.

(** What the loop maintains: the keys of [map] are the category ids, the
    groups and [unassigned] together hold the assets seen so far, every
    grouped asset sits under its trimmed category id, and an unassigned one
    has an empty id or one that names no category. *)
Definition grouped `{Host} (ids : list string) (seen : list PortfolioAsset)
    (g : grouping) : Prop :=
  (forall k, is_Some (own_get k (g_map g)) <-> In k ids)
  /\ Permutation (concat (map snd (g_map g)) ++ unassigned g)%list seen
  /\ List.Forall (fun kv => List.Forall (fun a => category_key a = fst kv) (snd kv))
       (g_map g)
  /\ List.Forall (fun a => category_key a = "" \/ ~ In (category_key a) ids)
       (unassigned g).

Definition byCategory `{Host} (categories : list Category)
    (assets : list PortfolioAsset) : outcome grouping :=
  match init_map categories [] with
  | None => OutsideModel
  | Some m =>
      match place_all {| g_map := m; unassigned := [] |} assets with
      | Returns g =>
          Returns {| g_map := map (fun kv => (fst kv, sort_by_label (snd kv))) (g_map g);
                     unassigned := sort_by_label (unassigned g) |}
      | TypeError => TypeError
      | OutsideModel => OutsideModel
      end
  end.

End AssetsPage.

(* ================================================================== *)
(** ** The engine's contract (allocation suggester, crypto confirmation) *)
(* ================================================================== *)

Module Engine.

(** Modelled from the spec: the engine's view of a bucket (spec section 3);
    the Python engine is not among the client sources. Values are integers
    in the smallest currency unit, weights are fractions. *)
Record Bucket : Type := {
  bucket_id : string;
  target_weight : Q;
  bucket_value : Z
}.

(** Modelled from the spec: the part of [PortfolioView] the allocation
    suggester reads (section 3 and 4.4); the engine is not among the client
    sources. The number of buckets is configuration, four in the primary
    use case; the steps of section 4.4 distribute the contribution over
    the buckets and say nothing of a view without any, so a view holds at
    least one. *)
Record View : Type := {
  total_value : Z;
  first_bucket : Bucket;
  more_buckets : list Bucket
}.

Definition buckets (v : View) : list Bucket :=
  first_bucket v :: more_buckets v.

(** Modelled from the spec: one per-bucket line of the engine's
    [ContributionSuggestion] (section 3); the engine is not among the client
    sources. *)
Record BucketSuggestion : Type := {
  bs_bucket_id : string;
  bs_target_value_after : Q;
  bs_allocate_amount : Z
}.

(** Modelled from the spec: the engine's [ContributionSuggestion]
    (section 3), with the two fields of the crypto path; the engine is not
    among the client sources. *)
Record Suggestion : Type := {
  sg_contribution_amount : Z;
  sg_buckets : list BucketSuggestion;
  sg_prefill_assets : option (gmap string Z);
  sg_contribution_remaining : Z
}.

Definition Qsum (l : list Q) : Q := fold_right Qplus 0%Q l.
Definition Zsum (l : list Z) : Z := fold_right Z.add 0%Z l.

(** Modelled from the spec: step 2 of section 4.4,
    [target_value_after = target_weight * total_after]; the engine is not
    among the client sources. *)
Definition target_value_after (v : View) (c : Z) (b : Bucket) : Q :=
  (target_weight b * inject_Z (total_value v + c))%Q.

(** Modelled from the spec: step 3 of section 4.4,
    [max(0, target_value_after - current_bucket_value)]; the engine is not
    among the client sources. *)
Definition raw_deficit (v : View) (c : Z) (b : Bucket) : Q :=
  Qmax 0 (target_value_after v c b - inject_Z (bucket_value b)).

(** Modelled from the spec: step 4 of section 4.4. When the deficits exceed
    the contribution they are scaled down proportionally; otherwise each
    bucket keeps its deficit and the rest is spread by target weight. The
    engine is not among the client sources. *)
Definition share (v : View) (c : Z) (b : Bucket) : Q :=
  let deficits := Qsum (map (raw_deficit v c) (buckets v)) in
  let weights := Qsum (map target_weight (buckets v)) in
  if Qle_bool deficits (inject_Z c)
  then (raw_deficit v c b + (inject_Z c - deficits) * target_weight b / weights)%Q
  else (raw_deficit v c b * inject_Z c / deficits)%Q.

(** Modelled from the spec: the position of the first bucket with the
    largest deficit (step 6 of section 4.4); the engine is not among the
    client sources. *)
Fixpoint argmax_from (best_i : nat) (best : Q) (i : nat) (l : list Q) : nat :=
  match l with
  | [] => best_i
  | x :: rest =>
      if Qle_bool x best then argmax_from best_i best (S i) rest
      else argmax_from i x (S i) rest
  end.

Definition largest_deficit_index (deficits : list Q) : nat :=
  match deficits with
  | [] => O
  | d :: rest => argmax_from O d 1 rest
  end.

Fixpoint add_at (i : nat) (r : Z) (l : list Z) : list Z :=
  match l, i with
  | [], _ => []
  | x :: rest, O => (x + r)%Z :: rest
  | x :: rest, S j => x :: add_at j r rest
  end.

(** Modelled from the spec: steps 4 and 6 of section 4.4 on whole currency
    units. Every share is rounded down to a whole unit and what is left of
    the contribution goes to the bucket with the largest deficit. The engine
    is not among the client sources. *)
Definition rounded_shares (v : View) (c : Z) : list Z :=
  map (fun b => Qfloor (share v c b)) (buckets v).

Definition rounding_remainder (v : View) (c : Z) : Z :=
  (c - Zsum (rounded_shares v c))%Z.

Definition allocate_amounts (v : View) (c : Z) : list Z :=
  add_at (largest_deficit_index (map (raw_deficit v c) (buckets v)))
    (rounding_remainder v c) (rounded_shares v c).

(** Modelled from the spec: the result of a call; a non-positive
    contribution is rejected before any computation (section 7). The engine
    is not among the client sources. *)
Inductive suggest_result : Type :=
| InvalidInput
| Suggested (s : Suggestion).

(** Modelled from the spec: the sum of the amounts of the optional
    [prefill] map (step 7 of section 4.4), nothing when no map is given;
    the engine is not among the client sources. *)
Definition prefill_total (prefill : option (gmap string Z)) : Z :=
  match prefill with
  | None => 0
  | Some m => Zsum (map snd (map_to_list m))
  end.

(** Modelled from the spec: a malformed prefill map is rejected before any
    computation (section 7). A map is taken as malformed when it holds a
    negative amount or leaves nothing of the contribution to distribute.
    The engine is not among the client sources. *)
Definition malformed (c : Z) (prefill : option (gmap string Z)) : bool :=
  match prefill with
  | None => false
  | Some m =>
      existsb (fun kv => (snd kv <? 0)%Z) (map_to_list m)
      || (c <=? prefill_total prefill)%Z
  end.

(** Modelled from the spec: [suggest(view, contribution_amount, prefill)]
    of section 4.4. The prefilled amounts are subtracted from the
    contribution before step 1 (step 7), and steps 1 to 6 run on what
    remains; the suggestion reports the contribution, the prefill and the
    remaining amount (section 3). The engine (the repository's Python
    package) is not among the client sources. *)
Definition suggest (v : View) (c : Z) (prefill : option (gmap string Z)) :
    suggest_result :=
  if (c <=? 0)%Z || malformed c prefill then InvalidInput
  else
    let r := (c - prefill_total prefill)%Z in
    Suggested
      {| sg_contribution_amount := c;
         sg_buckets :=
           map (fun ba =>
                  {| bs_bucket_id := bucket_id (fst ba);
                     bs_target_value_after := target_value_after v r (fst ba);
                     bs_allocate_amount := snd ba |})
             (combine (buckets v) (allocate_amounts v r));
         sg_prefill_assets := prefill;
         sg_contribution_remaining := r |}.

Definition allocated_total (s : Suggestion) : Z :=
  Zsum (map bs_allocate_amount (sg_buckets s)).

(** Modelled from the spec: phase 2 of section 4.5,
    [actually_acquired = current_balance_value - baseline_value]; the engine
    is not among the client sources. *)
Definition actually_acquired (baseline current : Q) : Q :=
  (current - baseline)%Q.

(** Modelled from the spec: the amount phase 2 prefills for one crypto
    asset (section 4.5): the acquired value, never taken below zero ("never
    credit a negative delta"), widened by the tolerance and capped by the
    expected amount. The engine is not among the client sources. *)
Definition prefill_amount (expected baseline current slippage_tolerance : Q) : Q :=
  Qmin expected
    (Qmax 0 (actually_acquired baseline current) * (1 + slippage_tolerance))%Q.

End Engine.

(* ================================================================== *)
(** ** Sample inputs *)
(* ================================================================== *)

Module Samples.

(** A small host to run the definitions on: numbers are read from strings
    of decimal digits and printed as their integer part, everything else is
    as plain as it can be. *)
Fixpoint digits_value (acc : Z) (s : string) : option Z :=
  match s with
  | EmptyString => Some acc
  | String c rest =>
      if Format.is_digit c
      then digits_value (10 * acc + Z.of_nat (nat_of_ascii c) - 48)%Z rest
      else None
  end.

Definition sample_host : Host :=
  {| string_to_number := fun s =>
       match digits_value 0 s with
       | Some z => Finite (inject_Z z)
       | None => NaN
       end;
     object_to_number := fun _ => NaN;
     number_to_string := fun n =>
       match n with
       | Finite q => pretty (Qfloor q)
       | PosInf => "Infinity"
       | NegInf => "-Infinity"
       | NaN => "NaN"
       end;
     inherited_to_string := fun _ => "function";
     trim := fun s => s;
     localeCompare := fun a b =>
       match String.compare a b with Lt => (-1)%Z | Eq => 0%Z | Gt => 1%Z end;
     toLocaleString := fun q _ => pretty (Qfloor q);
     json_stringify := fun _ => "{}";
     encodeURIComponent := fun s => s;
     search_params_to_string := fun _ => "" |}.

(** The four buckets of the permanent portfolio, and an asset whose
    category id is left over from a configuration that no longer exists. *)
Definition four_buckets : list Category :=
  [ {| cat_id := "equity"; cat_name := "股票" |};
    {| cat_id := "bond"; cat_name := "债券" |};
    {| cat_id := "gold"; cat_name := "黄金" |};
    {| cat_id := "cash"; cat_name := "现金" |} ].

Definition stale_asset : PortfolioAsset :=
  {| pa_id := "a1";
     pa_kind := "cn";
     pa_code := Some "510300";
     pa_name := Some "沪深300ETF";
     pa_coingecko_id := None;
     pa_category_id := Some "constructor" |}.

(** A wallet-backed asset, a suggestion that puts 400 into it, the state
    after "1000" was typed, and the snapshot the server answers with. *)
Definition wallet_meta : AllocationPanel.asset_meta :=
  {| AllocationPanel.kind := "crypto";
     AllocationPanel.source := Some "wallet-balance";
     AllocationPanel.name := Some "ETH" |}.

Definition sample_meta : gmap string AllocationPanel.asset_meta :=
  {[ "eth" := wallet_meta ]}.

Definition sample_suggestion : ContributionSuggestion :=
  {| contribution_amount := JNum (Finite 1000);
     categories :=
       [ {| category_id := "gold";
            cs_name := "黄金";
            current_weight := JNum (Finite (1 # 5));
            target_value_after := JNum (Finite 2750);
            allocate_amount := JNum (Finite 1000);
            weight_after := JNum (Finite (1 # 4));
            cs_assets :=
              Some [ {| asset_id := Some "eth";
                        abs_name := "ETH";
                        abs_code := "eth";
                        amount_cny := JNum (Finite 400);
                        est_quantity := JNull |} ] |} ];
     note := "";
     prefill_assets := None;
     contribution_remaining := JUndefined |}.

Definition typed_1000 : AllocationPanel.PanelState :=
  AllocationPanel.setContribution "1000" AllocationPanel.initial_state.

Definition sample_snapshot : AllocationPanel.snapshot_body :=
  {| AllocationPanel.snap_ok := true;
     AllocationPanel.snap_assets := Some [("eth", JNum (Finite 50))] |}.

(** Ledger metrics with a profit and no annualised return. *)
Definition sample_total : MetricsTotal :=
  {| mt_principal := JNum (Finite 10000);
     mt_current_value := JNum (Finite 11000);
     mt_profit := JNum (Finite 1000);
     mt_xirr_annual := JNull |}.

Definition sample_metrics : LedgerMetricsPayload :=
  {| lm_total := Some sample_total; lm_per_asset := Some [] |}.

(** Scenario B of the specification: nothing invested yet and four
    buckets of equal weight; and a prefill of 400.00 for one asset. *)
Definition equal_bucket (bid : string) : Engine.Bucket :=
  {| Engine.bucket_id := bid; Engine.target_weight := 1 # 4; Engine.bucket_value := 0 |}.

Definition scenario_B : Engine.View :=
  {| Engine.total_value := 0;
     Engine.first_bucket := equal_bucket "equity";
     Engine.more_buckets :=
       [equal_bucket "bond"; equal_bucket "gold"; equal_bucket "cash"] |}.


End Samples.

(* ================================================================== *)
(** ** lib/format.ts: the shape of a formatted number *)
(* ================================================================== *)

Module FormatShape.

(** [s.includes(".")] *)
Fixpoint has_dot (s : string) : bool :=
  match s with
  | EmptyString => false
  | String c rest => Ascii.eqb c "." || has_dot rest
  end.

(** ["0".repeat(k)] *)
Fixpoint zeros (k : nat) : string :=
  match k with
  | O => EmptyString
  | S k' => String "0" (zeros k')
  end.

End FormatShape.

(* ================================================================== *)
(** ** lib/api.ts *)
(* ================================================================== *)

Module Api.

(** Further functions of the JavaScript runtime. *)
Class Runtime : Type := {
  (** [JSON.parse(text)]; [None] when it throws *)
  json_parse : string -> option jsval;
  (** [String(v)] for an array or object [v] *)
  object_to_string : jsval -> string
}.

(** [String(v)] *)
Definition String_ `{Host} `{Runtime} (v : jsval) : string :=
  match v with
  | JUndefined => "undefined"
  | JNull => "null"
  | JBool true => "true"
  | JBool false => "false"
  | JNum n => number_to_string n
  | JStr s => s
  | JArr _ | JObj _ => object_to_string v
  end.

(** What the client reads of a [Response]. [res_text] is [None] when
    [res.text()] rejects. *)
Record Response : Type := {
  res_ok : bool;
  res_status : Z;
  res_statusText : string;
  res_text : option string
}.

(** [parseJsonSafe], from the text of the body on. *)
Definition parseJsonSafe `{Runtime} (text : string) : jsval :=
  if String.eqb text "" then JNull
  else match json_parse text with
       | Some v => v
       | None => JStr text
       end.

(** [body && typeof body === "object" && "error" in body && String(body.error)],
    with the empty string standing for each falsy outcome. An array has no
    member [error], and no object inherits one. *)
Definition error_of_body `{Host} `{Runtime} (body : jsval) : string :=
  match body with
  | JObj fields =>
      match own_get "error" fields with
      | Some e => String_ e
      | None => ""
      end
  | _ => ""
  end.

(** The [message] of the [ApiError] that [apiFetch] throws. *)
Definition error_message `{Host} `{Runtime} (body : jsval) (statusText : string)
  : string :=
  match body with
  | JStr s => s
  | _ => str_or (str_or (error_of_body body) statusText) "Request failed"
  end.

Inductive fetch_result : Type :=
| FetchRejects
| FetchResolves (res : Response).

(** How a call of [apiFetch] settles: with the parsed body, with an
    [ApiError], or with whatever [fetch] or [res.text()] rejected with. *)
Inductive api_result : Type :=
| ApiData (data : jsval)
| ApiErrorThrown (status : Z) (message : string) (body : jsval)
| Rethrown.

Definition apiFetch `{Host} `{Runtime} (r : fetch_result) : api_result :=
  match r with
  | FetchRejects => Rethrown
  | FetchResolves res =>
      match res_text res with
      | None => Rethrown
      | Some text =>
          let body := parseJsonSafe text in
          if negb (res_ok res)
          then ApiErrorThrown (res_status res)
                 (error_message body (res_statusText res)) body
          else ApiData body
      end
  end.

End Api.

(* ================================================================== *)
(** ** AllocationPanel: the asset table, the apply button, the notices *)
(* ================================================================== *)

Module AllocationActions.
Import AllocationPanel.

(** The fields of an [AssetView] that the panel reads. *)
Record AssetView : Type := {
  av_id : string;
  av_kind : string;
  av_source : option string;
  av_name : option string
}.

(** A [CategoryView] together with its member [assets]. *)
Record CategoryViewAssets : Type := {
  cva_category : CategoryView;
  cva_assets : option (list AssetView)
}.

Record PortfolioView : Type := {
  pv_categories : list CategoryViewAssets;
  pv_unassigned : option (list AssetView)
}.

Record UiState : Type := {
  ui_view : option PortfolioView
}.

(** [[...(view.unassigned || []), ...view.categories.flatMap((c) => c.assets || [])]] *)
Definition view_assets (view : PortfolioView) : list AssetView :=
  (default [] (pv_unassigned view)
   ++ flat_map (fun c => default [] (cva_assets c)) (pv_categories view))%list.

Definition meta_of (a : AssetView) : asset_meta :=
  {| kind := av_kind a; source := av_source a; name := av_name a |}.

Definition buildAssetMetaById (state : option UiState) : gmap string asset_meta :=
  match state ≫= ui_view with
  | None => ∅
  | Some view =>
      fold_left (fun out a => <[av_id a := meta_of a]> out) (view_assets view) ∅
  end.

(** [Number(contributionRemaining ?? contributionTotal ?? contribution ?? 0)] *)
Definition applyAmount `{Host} (s : PanelState) : number :=
  match contributionRemaining s with
  | Some r => r
  | None => baseAmount s
  end.

(** What [applyM.mutationFn] does: it throws, or it posts a payload. *)
Inductive apply_result : Type :=
| ApplyThrows (msg : string)
| ApplyPosts (url : string) (payload : dict).

Definition apply_mutationFn `{Host} (s : PanelState) : apply_result :=
  let amt := applyAmount s in
  if rejected_amount amt then ApplyThrows "请输入新增资金"
  else
    ApplyPosts "/api/v2/allocation/apply"
      (("contribution", JNum amt) ::
       match st_prefillAssets s with
       | Some d => if (0 <? length d)%nat then [("prefill_assets", JObj d)] else []
       | None => []
       end).

(** The seven setters that both [applyM.onSuccess] and the clear button
    call. *)
Definition reset (s : PanelState) : PanelState :=
  {| contribution := "";
     suggestion := None;
     cryptoBaseline := None;
     expectedCrypto := None;
     st_prefillAssets := None;
     contributionTotal := None;
     contributionRemaining := None |}.

(** The box between the form and the table. *)
Inductive crypto_notice : Type :=
| NoNotice
| DeductedBanner (deducted remaining : string)
| ConfirmPrompt (total_text items_text title slip_text : string).

Definition title_with_baseline : string := "将读取链上余额变化并重新计算".
Definition title_without_baseline : string := "缺少链上快照，需先计算建议".

Definition render_crypto_notice `{Host} (metaById : gmap string asset_meta)
    (s : PanelState) (settings : jsval) : crypto_notice :=
  match suggestion s with
  | None => NoNotice
  | Some _ =>
      if num_ltb (Finite 0) (prefillSum s) then
        DeductedBanner
          (Format.fmtCny (JNum (prefillSum s)) 2)
          (Format.fmtCny
             (match contributionRemaining s with Some r => JNum r | None => JNull end) 2)
      else
        let cryptoInfo := collectCryptoPrefill (suggestion s) metaById in
        if num_ltb (Finite 0) (total cryptoInfo) then
          ConfirmPrompt
            (Format.fmtCny (JNum (total cryptoInfo)) 2)
            (join "；"
               (map (fun i => fst i ++ " ¥" ++ Format.fmtCny (JNum (snd i)) 2)
                  (items cryptoInfo)))
            (match cryptoBaseline s with
             | Some _ => title_with_baseline
             | None => title_without_baseline
             end)
            (Format.fmtPct (JNum (readSlipPct settings)) 2)
        else NoNotice
  end.

End AllocationActions.

(* ================================================================== *)
(** ** The assets page: drag and drop, pending edits *)
(* ================================================================== *)

Module AssetsBoard.
Import AssetsPage.

(** [ev?.over?.id] and [ev?.active?.id] of a drag-end event. *)
Record drag_end : Type := {
  over_id : option string;
  active_id : option string
}.

Inductive drag_outcome : Type :=
| DragIgnored
| DragMoves (assetId : string) (categoryId : option string) (targetName : string).

(** [(cur?.category_id || "").trim() || null] *)
Definition current_category `{Host} (cur : option PortfolioAsset) : option string :=
  let t := trim (default "" (cur ≫= pa_category_id)) in
  if String.eqb t "" then None else Some t.

(** [curCat === categoryId] on values that are a string or [null] *)
Definition same_category (a b : option string) : bool :=
  match a, b with
  | None, None => true
  | Some x, Some y => String.eqb x y
  | _, _ => false
  end.

(** [onDragEnd], up to the optimistic update and the request it ends in. *)
Definition onDragEnd `{Host} (categories : list Category)
    (assets : list PortfolioAsset) (ev : drag_end) : drag_outcome :=
  match over_id ev, active_id ev with
  | Some overId, Some activeId =>
      if String.eqb overId "" || String.eqb activeId "" then DragIgnored
      else
        let categoryId :=
          if String.eqb overId "unassigned" then None else Some overId in
        let cur := List.find (fun a => String.eqb (pa_id a) activeId) assets in
        if same_category (current_category cur) categoryId then DragIgnored
        else
          DragMoves activeId categoryId
            match categoryId with
            | None => "未分配"
            | Some c =>
                str_or
                  (default ""
                     (cat_name <$> List.find (fun k => String.eqb (cat_id k) c) categories))
                  c
            end
  | _, _ => DragIgnored
  end.

(** The optimistic update: on a copy of the state, every asset with the
    dragged id gets the new category. *)
Definition move_optimistic (assetId : string) (categoryId : option string)
    (assets : list PortfolioAsset) : list PortfolioAsset :=
  map (fun a =>
         if String.eqb (pa_id a) assetId
         then {| pa_id := pa_id a;
                 pa_kind := pa_kind a;
                 pa_code := pa_code a;
                 pa_name := pa_name a;
                 pa_coingecko_id := pa_coingecko_id a;
                 pa_category_id := categoryId |}
         else a)
      assets.

(** [{...base, ...over}] *)
Definition spread {A} (base over : list (string * A)) : list (string * A) :=
  fold_left (fun d kv => own_set (fst kv) (snd kv) d) over base.

(** [delete obj[k]] *)
Fixpoint own_delete {A} (k : string) (d : list (string * A)) : list (string * A) :=
  match d with
  | [] => []
  | (k', v) :: rest =>
      if String.eqb k k' then rest else (k', v) :: own_delete k rest
  end.

(** [setField(patch)] in the row of the asset [assetId]:
    [{...prev, [a.id]: {...(prev[a.id] || {}), ...patch}}]. A member that
    [prev] inherits under the id has no fields to spread. *)
Definition setField (assetId : string) (patch : dict) (prev : list (string * dict))
  : list (string * dict) :=
  own_set assetId (spread (default [] (own_get assetId prev)) patch) prev.

(** The button that discards the pending edits of one asset. *)
Definition discard (assetId : string) (prev : list (string * dict))
  : list (string * dict) :=
  own_delete assetId prev.

(** [Object.keys(dirtyById).length] *)
Definition dirtyCount (dirtyById : list (string * dict)) : nat :=
  length dirtyById.

(** [Object.keys(dirtyById[a.id] || {}).length > 0] *)
Definition changed (assetId : string) (dirtyById : list (string * dict)) : bool :=
  (0 <? length (default [] (own_get assetId dirtyById)))%nat.

(** The edits a row offers each set one field. *)
Inductive edit_event : Type :=
| FieldEdited (assetId field : string) (value : jsval)
| EditsDiscarded (assetId : string)
| AllSaved.

Definition edit_step (dirtyById : list (string * dict)) (e : edit_event)
  : list (string * dict) :=
  match e with
  | FieldEdited assetId field value => setField assetId [(field, value)] dirtyById
  | EditsDiscarded assetId => discard assetId dirtyById
  | AllSaved => []
  end.

Definition edit_run (events : list edit_event) : list (string * dict) :=
  fold_left edit_step events [].

(** [saveAllM.mutationFn]: nothing is sent when nothing is pending. *)
Inductive save_result : Type :=
| SaveNothing
| SavePosts (url : string) (items : list dict).

Definition saveAll_mutationFn (dirtyById : list (string * dict)) : save_result :=
  let items :=
    map (fun kv => spread [("asset_id", JStr (fst kv))] (snd kv)) dirtyById in
  if (length items <=? 0)%nat then SaveNothing
  else SavePosts "/api/v2/assets/batch" items.

(** The figure shown for a bucket weight:
    [Number(w) > 1 ? w : Number(w) * 100]. *)
Definition bucket_weight_shown `{Host} (w : jsval) : jsval :=
  if num_ltb (Finite 1) (Number w) then w
  else JNum (num_mul (Number w) (Finite 100)).

(** The weight input's [onChange]: [text ? Number(text) : null]. *)
Definition bucket_weight_edited `{Host} (text : string) : jsval :=
  if String.eqb text "" then JNull else JNum (string_to_number text).

End AssetsBoard.

(* ================================================================== *)
(** ** The ledger page: the date default and the asset choices *)
(* ================================================================== *)

Module LedgerForm.

(** What [fmtDateInput] reads of a valid [Date]: [getFullYear()],
    [getMonth()] (from 0) and [getDate()]. *)
Record LocalDate : Type := {
  getFullYear : Z;
  getMonth : nat;
  getDate : nat
}.

(** [String(n).padStart(2, "0")] *)
Definition pad2 (n : nat) : string :=
  let s := pretty n in
  FormatShape.zeros (2 - String.length s) ++ s.

Definition fmtDateInput (d : LocalDate) : string :=
  pretty (getFullYear d) ++ "-" ++ pad2 (getMonth d + 1) ++ "-" ++ pad2 (getDate d).

(** The form [yyyy-mm-dd] that a date input takes as its value. *)
Definition date_shaped (s : string) : bool :=
  match s with
  | String y1 (String y2 (String y3 (String y4 (String "-"
      (String m1 (String m2 (String "-" (String d1 (String d2 EmptyString))))))))) =>
      forallb Format.is_digit [y1; y2; y3; y4; m1; m2; d1; d2]
  | _ => false
  end.

Record asset_option : Type := {
  opt_id : string;
  opt_name : string
}.

(** [(a.name || a.code || a.coingecko_id || a.id).trim()] *)
Definition option_name `{Host} (a : PortfolioAsset) : string :=
  trim
    (str_or (default "" (pa_name a))
       (str_or (default "" (pa_code a))
          (str_or (default "" (pa_coingecko_id a)) (pa_id a)))).

Definition name_leb `{Host} (x y : asset_option) : bool :=
  (localeCompare (opt_name x) (opt_name y) <=? 0)%Z.

Fixpoint insert_by_name `{Host} (x : asset_option) (l : list asset_option)
  : list asset_option :=
  match l with
  | [] => [x]
  | y :: rest => if name_leb x y then x :: l else y :: insert_by_name x rest
  end.

(** [list.sort((x, y) => x.name.localeCompare(y.name, "zh-CN"))], as in
    [AssetsPage.sort_by_label]. *)
Definition sort_by_name `{Host} (l : list asset_option) : list asset_option :=
  fold_right insert_by_name [] l.

(** The [Map] filled by [map.set(a.id, name)]: a key that is set again
    keeps its place and takes the new value. *)
Definition names_by_id `{Host} (assets : list PortfolioAsset) : list (string * string) :=
  fold_left (fun m a => own_set (pa_id a) (option_name a) m) assets [].

Definition assetOptions `{Host} (portfolio : option (list PortfolioAsset))
  : list asset_option :=
  match portfolio with
  | None => []
  | Some assets =>
      sort_by_name
        (map (fun kv => {| opt_id := fst kv; opt_name := snd kv |})
           (names_by_id assets))
  end.

End LedgerForm.

(* ================================================================== *)
(** ** The overview page: tone of the history chart *)
(* ================================================================== *)

Module OverviewPage.

Definition pickTone (changeValue : number) : string :=
  if negb (isFinite changeValue) then "accent"
  else if num_leb (Finite 0) changeValue then "accent" else "stamp".

(** [pickTone(Number(changeValue ?? 0))] for a change that is a number or
    [null]. *)
Definition tone (changeValue : option number) : string :=
  pickTone (default (Finite 0) changeValue).

(** The colour classes of the change figure. *)
Definition change_classes (changeValue : option number) : list string :=
  ((if match changeValue with Some n => num_ltb (Finite 0) n | None => false end
    then ["text-ok"] else [])
   ++ (if match changeValue with Some n => num_ltb n (Finite 0) | None => false end
       then ["text-danger"] else [])
   ++ (if match changeValue with None => true | Some _ => false end
       then ["text-ink/45"] else []))%list.

End OverviewPage.

(* ================================================================== *)
(** ** components/chart/Sparkline.tsx *)
(* ================================================================== *)

Module Sparkline.

(** [a + b] and [a - b]: the exact result, rounded to the nearest double. *)
Definition num_plus (a b : number) : number :=
  rounded (num_add a b).

Definition num_sub (a b : number) : number :=
  rounded (num_add a (num_neg b)).

(** The exact result of [a / b]. A zero carries no sign in this
    representation and is read as [+0] when it divides; the chart never
    divides by zero, since a span of zero is replaced by 1. *)
Definition quotient (a b : number) : number :=
  match a, b with
  | NaN, _ | _, NaN => NaN
  | Finite x, Finite y =>
      if Qeq_bool y 0 then
        match (x ?= 0)%Q with
        | Eq => NaN
        | Gt => PosInf
        | Lt => NegInf
        end
      else Finite (x / y)
  | Finite _, _ => Finite 0
  | inf, Finite y =>
      match (y ?= 0)%Q with
      | Lt => num_neg inf
      | _ => inf
      end
  | _, _ => NaN
  end.

(** [a / b] *)
Definition num_div (a b : number) : number :=
  rounded (quotient a b).

Definition clamp (n a b : number) : number :=
  num_max a (num_min b n).

(** [TotalHistoryPoint] *)
Record point : Type := {
  t : number;
  v : number
}.

Record plotted : Type := {
  x : number;
  y : number
}.

Definition w : number := Finite 560.
Definition h : number := Finite 120.
Definition pad : number := Finite 8.

(** [Math.min(...l)] and [Math.max(...l)] *)
Definition min_of (l : list number) : number :=
  fold_left num_min l PosInf.

Definition max_of (l : list number) : number :=
  fold_left num_max l NegInf.

(** [n || 1] *)
Definition or_one (n : number) : number :=
  if num_truthy n then n else Finite 1.

(** The four constants [minX], [spanX], [minY], [spanY] that the closure
    passed to [points.map] refers to. *)
Record frame : Type := {
  minX : number;
  spanX : number;
  minY : number;
  spanY : number
}.

Definition frame_of (points : list point) : frame :=
  let xs := map t points in
  let ys := map v points in
  {| minX := min_of xs;
     spanX := or_one (num_sub (max_of xs) (min_of xs));
     minY := min_of ys;
     spanY := or_one (num_sub (max_of ys) (min_of ys)) |}.

(** The body of [points.map((p) => ...)]. *)
Definition place (f : frame) (p : point) : plotted :=
  let x0 :=
    num_plus pad
      (num_mul (num_div (num_sub (t p) (minX f)) (spanX f))
         (num_sub w (num_mul pad (Finite 2)))) in
  let y0 :=
    num_plus pad
      (num_mul (num_sub (Finite 1) (num_div (num_sub (v p) (minY f)) (spanY f)))
         (num_sub h (num_mul pad (Finite 2)))) in
  {| x := clamp x0 pad (num_sub w pad);
     y := clamp y0 pad (num_sub h pad) |}.

Definition plot (points : list point) : list plotted :=
  map (place (frame_of points)) points.

(** A point of the history as the server sends it: two finite numbers. *)
Definition finite_point (p : Q * Q) : point :=
  {| t := Finite (fst p); v := Finite (snd p) |}.

End Sparkline.

(* ================================================================== *)
(** ** components/toast/ToastProvider.tsx *)
(* ================================================================== *)

Module Toast.

Record ToastItem : Type := {
  toast_id : string;
  toast_tone : string;
  toast_title : string;
  toast_detail : option string
}.

(** The state update of [push]: [[toast, ...prev].slice(0, 4)]. *)
Definition push (toast : ToastItem) (prev : list ToastItem) : list ToastItem :=
  take 4 (toast :: prev).

(** The state update of the timer: [prev.filter((t) => t.id !== id)]. *)
Definition expire (id : string) (prev : list ToastItem) : list ToastItem :=
  List.filter (fun t => negb (String.eqb (toast_id t) id)) prev.

Inductive toast_event : Type :=
| Pushed (toast : ToastItem)
| TimerFired (id : string).

Definition toast_step (items : list ToastItem) (e : toast_event) : list ToastItem :=
  match e with
  | Pushed toast => push toast items
  | TimerFired id => expire id items
  end.

Definition toast_run (events : list toast_event) : list ToastItem :=
  fold_left toast_step events [].

End Toast.

(* ================================================================== *)
(** ** components/shell/ThemeToggle.tsx *)
(* ================================================================== *)

Module ThemeToggle.

(** [mounted ? theme : "system"] *)
Definition current (mounted : bool) (theme : option string) : option string :=
  if mounted then theme else Some "system".

(** [current === name] *)
Definition is_theme (current : option string) (name : string) : bool :=
  match current with
  | Some c => String.eqb c name
  | None => false
  end.

(** The theme that [cycle] hands to [setTheme]. *)
Definition cycle (current : option string) : string :=
  if is_theme current "light" then "dark"
  else if is_theme current "dark" then "system"
  else "light".

Definition label (current : option string) : string :=
  if is_theme current "light" then "浅"
  else if is_theme current "dark" then "深"
  else "随".

Definition icon (current : option string) : string :=
  if is_theme current "light" then "sun"
  else if is_theme current "dark" then "moon"
  else "system".

(** A click on the button once the component is mounted. *)
Definition click (theme : option string) : option string :=
  Some (cycle (current true theme)).

End ThemeToggle.

(* ================================================================== *)
(** ** Further sample inputs *)
(* ================================================================== *)

Module Fixtures.
Import Samples AllocationPanel AllocationActions.

(** [d] digits of the fraction of [q], cut off and not rounded. *)
Fixpoint fraction_digits (q : Q) (d : nat) : string :=
  match d with
  | O => ""
  | S d' =>
      let shifted := ((q - inject_Z (Qfloor q)) * 10)%Q in
      pretty (Qfloor shifted) ++ fraction_digits shifted d'
  end.

(** The sample host, printing the requested number of fraction digits. *)
Definition decimal_host : Host :=
  {| string_to_number := @string_to_number sample_host;
     object_to_number := @object_to_number sample_host;
     number_to_string := @number_to_string sample_host;
     inherited_to_string := @inherited_to_string sample_host;
     trim := @trim sample_host;
     localeCompare := @localeCompare sample_host;
     toLocaleString := fun q d =>
       pretty (Qfloor q)
       ++ match d with
          | O => ""
          | S _ => "." ++ fraction_digits q d
          end;
     json_stringify := @json_stringify sample_host;
     encodeURIComponent := @encodeURIComponent sample_host;
     search_params_to_string := @search_params_to_string sample_host |}.

(** The number a string of decimal digits with at most one point
    denotes. *)
Fixpoint decimal_value (acc : Z) (scale : option positive) (s : string) : option Q :=
  match s with
  | EmptyString => Some (acc # default 1%positive scale)
  | String c rest =>
      if Format.is_digit c
      then decimal_value (10 * acc + Z.of_nat (nat_of_ascii c) - 48)%Z
             (option_map (Pos.mul 10) scale) rest
      else if Ascii.eqb c "." then
        match scale with
        | None => decimal_value acc (Some 1%positive) rest
        | Some _ => None
        end
      else None
  end.

(** The sample host, reading a decimal fraction as the double nearest to
    it. *)
Definition double_host : Host :=
  {| string_to_number := fun s =>
       match decimal_value 0 None s with
       | Some q => round_double q
       | None => NaN
       end;
     object_to_number := @object_to_number sample_host;
     number_to_string := @number_to_string sample_host;
     inherited_to_string := @inherited_to_string sample_host;
     trim := @trim sample_host;
     localeCompare := @localeCompare sample_host;
     toLocaleString := @toLocaleString sample_host;
     json_stringify := @json_stringify sample_host;
     encodeURIComponent := @encodeURIComponent sample_host;
     search_params_to_string := @search_params_to_string sample_host |}.

(** The sample host, printing an object of numbers as JSON text. *)
Definition json_number (v : jsval) : string :=
  match v with
  | JNum n => @number_to_string sample_host n
  | _ => "null"
  end.

Definition json_object (v : jsval) : string :=
  match v with
  | JObj fields =>
      "{"
        ++ join ","
             (map (fun kv =>
                     String "034" (fst kv) ++ String "034" ":" ++ json_number (snd kv))
                fields)
        ++ "}"
  | _ => json_number v
  end.

Definition json_host : Host :=
  {| string_to_number := @string_to_number sample_host;
     object_to_number := @object_to_number sample_host;
     number_to_string := @number_to_string sample_host;
     inherited_to_string := @inherited_to_string sample_host;
     trim := @trim sample_host;
     localeCompare := @localeCompare sample_host;
     toLocaleString := @toLocaleString sample_host;
     json_stringify := json_object;
     encodeURIComponent := @encodeURIComponent sample_host;
     search_params_to_string := @search_params_to_string sample_host |}.

(** A runtime for which no body is JSON. *)
Definition text_runtime : Api.Runtime :=
  {| Api.json_parse := fun _ => None;
     Api.object_to_string := fun _ => "[object Object]" |}.

Definition failed_response : Api.Response :=
  {| Api.res_ok := false;
     Api.res_status := 500;
     Api.res_statusText := "Internal Server Error";
     Api.res_text := Some "database is locked" |}.

(** A view that lists the asset "eth" twice, first as entered by hand and
    then as read from a wallet. *)
Definition eth_manual : AssetView :=
  {| av_id := "eth"; av_kind := "crypto";
     av_source := Some "manual-quantity"; av_name := Some "ETH (manual)" |}.

Definition eth_wallet : AssetView :=
  {| av_id := "eth"; av_kind := "crypto";
     av_source := Some "wallet-balance"; av_name := Some "ETH" |}.

Definition cash_view : AssetView :=
  {| av_id := "cny"; av_kind := "cash"; av_source := None; av_name := Some "现金" |}.

Definition gold_bucket : CategoryView :=
  {| cv_id := "gold"; cv_name := "黄金";
     cv_value := JNum (Finite 2000); cv_weight := JNum (Finite (1 # 5));
     cv_target_weight := JNum (Finite (1 # 4));
     cv_min_weight := JNum (Finite (3 # 20));
     cv_max_weight := JNum (Finite (7 # 20));
     cv_status := "ok"; cv_note := "" |}.

Definition sample_view : PortfolioView :=
  {| pv_categories :=
       [ {| cva_category := gold_bucket; cva_assets := Some [eth_wallet; cash_view] |} ];
     pv_unassigned := Some [eth_manual] |}.

(** The one entry of the sample suggestion. *)
Definition sample_entry : AssetBuySuggestion :=
  {| asset_id := Some "eth";
     abs_name := "ETH";
     abs_code := "eth";
     amount_cny := JNum (Finite 400);
     est_quantity := JNull |}.

(** The state after "1000" was typed and the suggestion arrived, with and
    without a snapshot. *)
Definition after_suggest : PanelState :=
  suggest_onSuccess (H := sample_host) sample_meta typed_1000
    (Some sample_suggestion) (Finite (inject_Z 1000))
    (SnapshotOk (Some sample_snapshot)).

Definition after_suggest_without_snapshot : PanelState :=
  suggest_onSuccess (H := sample_host) sample_meta typed_1000
    (Some sample_suggestion) (Finite (inject_Z 1000)) SnapshotFailed.

(** A second round: "2000" is typed over the result of the first round, a
    suggestion that puts 800 into the wallet arrives, and a snapshot that
    finds 70 in the wallet is on its way. *)
Definition typed_2000_after_suggest : PanelState :=
  setContribution "2000" after_suggest.

Definition second_suggestion : ContributionSuggestion :=
  {| contribution_amount := JNum (Finite 2000);
     categories :=
       [ {| category_id := "gold";
            cs_name := "黄金";
            current_weight := JNum (Finite (1 # 5));
            target_value_after := JNum (Finite 3000);
            allocate_amount := JNum (Finite 2000);
            weight_after := JNum (Finite (1 # 4));
            cs_assets :=
              Some [ {| asset_id := Some "eth";
                        abs_name := "ETH";
                        abs_code := "eth";
                        amount_cny := JNum (Finite 800);
                        est_quantity := JNull |} ] |} ];
     note := "";
     prefill_assets := None;
     contribution_remaining := JUndefined |}.

Definition second_round_began : PanelState :=
  suggest_onSuccess_begin (H := json_host) sample_meta typed_2000_after_suggest
    (Some second_suggestion) (Finite 2000).

Definition second_snapshot : snapshot_body :=
  {| snap_ok := true; snap_assets := Some [("eth", JNum (Finite 70))] |}.

(** The reply to a confirmation that found all 400 bought on chain. *)
Definition confirmed_suggestion : ContributionSuggestion :=
  {| contribution_amount := JNum (Finite 1000);
     categories := [];
     note := "";
     prefill_assets := Some [("eth", JNum (Finite 400))];
     contribution_remaining := JNum (Finite 600) |}.

(** Assets in and out of the four buckets, and a drag of the cash asset
    onto the gold bucket. *)
Definition cash_asset : PortfolioAsset :=
  {| pa_id := "a2"; pa_kind := "cash"; pa_code := None; pa_name := None;
     pa_coingecko_id := None; pa_category_id := Some "cash" |}.

Definition loose_asset : PortfolioAsset :=
  {| pa_id := "a4"; pa_kind := "cn"; pa_code := Some "511010"; pa_name := None;
     pa_coingecko_id := None; pa_category_id := None |}.

Definition drop_on_gold : AssetsBoard.drag_end :=
  {| AssetsBoard.over_id := Some "gold"; AssetsBoard.active_id := Some "a2" |}.

Definition regrouped_after_drop : AssetsPage.grouping :=
  {| AssetsPage.g_map :=
       [ ("equity", []); ("bond", []);
         ("gold",
          [ {| pa_id := "a2"; pa_kind := "cash"; pa_code := None; pa_name := None;
               pa_coingecko_id := None; pa_category_id := Some "gold" |} ]);
         ("cash", []) ];
     AssetsPage.unassigned := [loose_asset] |}.

Definition second_of_november : LedgerForm.LocalDate :=
  {| LedgerForm.getFullYear := 2026; LedgerForm.getMonth := 10; LedgerForm.getDate := 2 |}.

(** Ledger metrics with an annualised return of 8 %. *)
Definition total_with_xirr : MetricsTotal :=
  {| mt_principal := JNum (Finite 10000);
     mt_current_value := JNum (Finite 11000);
     mt_profit := JNum (Finite 1000);
     mt_xirr_annual := JNum (Finite (2 # 25)) |}.

Definition metrics_with_xirr : LedgerMetricsPayload :=
  {| lm_total := Some total_with_xirr; lm_per_asset := Some [] |}.

(** Three snapshots of the total value. *)
Definition three_snapshots : list (Q * Q) :=
  [ (0, 100); (1, 120); (2, 90) ]%Q.

(** Two snapshots whose values are as far apart as -1e308 and 1e308. *)
Definition far_apart : list (Q * Q) :=
  [ (0, - inject_Z (10 ^ 308)); (1, inject_Z (10 ^ 308)) ]%Q.

End Fixtures.

(* ================================================================== *)
(** * Verified properties *)
(* ================================================================== *)

Import AllocationPanel.

(** ** JavaScript values *)

Lemma clamped_0_20_range (q : Q) : (0 <= clamped_0_20 q /\ clamped_0_20 q <= 20)%Q.
Proof.
  unfold clamped_0_20.
  destruct (Qle_bool 20 q) eqn:Hhi.
  - split; [discriminate | apply Qle_refl].
  - destruct (Qle_bool 0 q) eqn:Hlo.
    + split; [now apply Qle_bool_iff |].
      apply Qlt_le_weak, Qnot_le_lt. intros Hle.
      apply Qle_bool_iff in Hle. congruence.
    + split; [apply Qle_refl | discriminate].
Qed.

Lemma clamp_slip_finite (q : Q) : clamp_slip (Finite q) = Finite (clamped_0_20 q).
Proof.
  unfold clamp_slip, clamped_0_20, num_min, num_max, num_leb.
  destruct (Qle_bool 20 q); [reflexivity |].
  destruct (Qle_bool 0 q); reflexivity.
Qed.

(** The guard [ov && ov.k != null] holds exactly when [ov?.k] is neither
    [null] nor [undefined], and then both expressions read the same value. *)
Lemma override_guard (ov : jsval) (k : string) :
  truthy ov && negb (is_nullish (get_prop ov k)) = negb (is_nullish (opt_prop ov k))
  /\ (is_nullish (opt_prop ov k) = false -> get_prop ov k = opt_prop ov k).
Proof.
  destruct ov; simpl; split; intros; auto using andb_false_r.
Qed.

(** ** Slippage setting *)

Section SlipPct.
Context `{Host}.

Lemma readSlipPct_slip_spec (settings : jsval) :
  readSlipPct settings = slip_spec settings.
Proof.
  unfold readSlipPct, slip_spec, override_slip, effective_slip.
  set (ov := opt_prop settings "override").
  destruct (override_guard ov "crypto_slip_pct") as [Hguard Hsame].
  rewrite Hguard.
  destruct (is_nullish (opt_prop ov "crypto_slip_pct")) eqn:Hnull; simpl.
  - destruct (Number (opt_prop (opt_prop settings "effective") "crypto_slip_pct"));
      simpl; try reflexivity.
    apply clamp_slip_finite.
  - rewrite (Hsame eq_refl).
    destruct (Number (opt_prop ov "crypto_slip_pct")) eqn:Hov; simpl;
      try apply clamp_slip_finite;
      destruct (Number (opt_prop (opt_prop settings "effective") "crypto_slip_pct"));
      simpl; try reflexivity; apply clamp_slip_finite.
Qed.

(** C9. For every settings payload, [readSlipPct] returns a number between
    0 and 20: the override's [crypto_slip_pct] clamped to that interval when
    it is present and finite, otherwise the effective [crypto_slip_pct]
    clamped when finite, otherwise 1. *)
Theorem readSlipPct_range_and_source (settings : jsval) :
  (exists q, readSlipPct settings = Finite q /\ (0 <= q /\ q <= 20)%Q)
  /\ (forall q,
        is_nullish (override_slip settings) = false ->
        Number (override_slip settings) = Finite q ->
        readSlipPct settings = Finite (clamped_0_20 q))
  /\ (forall q,
        is_nullish (override_slip settings) = true
        \/ isFinite (Number (override_slip settings)) = false ->
        Number (effective_slip settings) = Finite q ->
        readSlipPct settings = Finite (clamped_0_20 q))
  /\ (is_nullish (override_slip settings) = true
        \/ isFinite (Number (override_slip settings)) = false ->
      isFinite (Number (effective_slip settings)) = false ->
      readSlipPct settings = Finite 1).
Proof.
  rewrite readSlipPct_slip_spec. unfold slip_spec.
  repeat split.
  - destruct (is_nullish (override_slip settings));
      [| destruct (Number (override_slip settings))];
      try (destruct (Number (effective_slip settings)));
      eauto using clamped_0_20_range;
      (exists 1%Q; split; [reflexivity | split; discriminate]).
  - intros q Hpresent Hnum. now rewrite Hpresent, Hnum.
  - intros q Hov Heff. rewrite Heff.
    destruct Hov as [Hnull | Hnan].
    + now rewrite Hnull.
    + destruct (is_nullish (override_slip settings)); [reflexivity |].
      destruct (Number (override_slip settings)); [discriminate | | |]; reflexivity.
  - intros Hov Heff.
    destruct (Number (effective_slip settings)); [discriminate | | |];
      (destruct Hov as [Hnull | Hnan];
       [ now rewrite Hnull
       | destruct (is_nullish (override_slip settings)); [reflexivity |];
         destruct (Number (override_slip settings)); [discriminate | | |]; reflexivity ]).
Qed.

End SlipPct.

(** ** The two-phase flow of the allocation panel *)

Section TwoPhaseFlow.
Context `{Host}.

Lemma step_keeps_phase1_state (s : PanelState) (e : panel_event) :
  contributionTotal (step s e) = contributionTotal s
  /\ cryptoBaseline (step s e) = cryptoBaseline s
  /\ expectedCrypto (step s e) = expectedCrypto s.
Proof. destruct e as [text | [sg |]]; simpl; auto. Qed.

Lemma run_keeps_phase1_state (events : list panel_event) (s : PanelState) :
  contributionTotal (run events s) = contributionTotal s
  /\ cryptoBaseline (run events s) = cryptoBaseline s
  /\ expectedCrypto (run events s) = expectedCrypto s.
Proof.
  revert s. induction events as [| e events IH]; intros s; simpl; [auto |].
  destruct (IH (step s e)) as (Ht & Hb & He).
  destruct (step_keeps_phase1_state s e) as (Ht' & Hb' & He').
  unfold run in *. simpl. rewrite Ht, Hb, He. auto.
Qed.

Lemma baseAmount_of_total (s : PanelState) (t : number) :
  contributionTotal s = Some t -> baseAmount s = t.
Proof. unfold baseAmount. now intros ->. Qed.

Lemma phase1_inv (metaById : gmap string asset_meta) (s s' : PanelState)
    (sug : option ContributionSuggestion) (reply : snapshot_reply) :
  phase1 metaById s sug reply = Some s' ->
  exists amt,
    showSuggest s = SuggestMutate amt
    /\ entered_amount s = amt
    /\ rejected_amount amt = false
    /\ s' = suggest_onSuccess metaById s sug amt reply.
Proof.
  unfold phase1, showSuggest.
  destruct (rejected_amount (entered_amount s)) eqn:Hrej; [discriminate |].
  intros [= <-]. eauto.
Qed.

(** A request of [confirmCryptoM] is built from the state alone. *)
Lemma confirm_request_reads_state (s : PanelState) (settings : jsval) (url : string) :
  confirmCrypto_mutationFn s settings = Requests url ->
  exists baseline expected,
    cryptoBaseline s = Some baseline
    /\ expectedCrypto s = Some expected
    /\ rejected_amount (baseAmount s) = false
    /\ url = confirm_request_url (baseAmount s) baseline expected (readSlipPct settings).
Proof.
  unfold confirmCrypto_mutationFn.
  destruct (rejected_amount (baseAmount s)); [discriminate |].
  destruct (cryptoBaseline s) as [baseline |]; [| discriminate].
  destruct (expectedCrypto s) as [expected |]; [| discriminate].
  destruct (length expected =? 0)%nat; [discriminate |].
  intros [= <-]. exists baseline, expected. auto.
Qed.

Lemma confirm_without_baseline (s : PanelState) (settings : jsval) :
  cryptoBaseline s = None ->
  confirmCrypto_mutationFn s settings =
    Throws (if rejected_amount (baseAmount s) then "invalid amount" else "missing baseline").
Proof.
  unfold confirmCrypto_mutationFn. intros ->.
  now destruct (rejected_amount (baseAmount s)).
Qed.

(** The stored baseline is absent exactly when the snapshot request
    failed; a reply without [assets] is stored as an empty baseline. *)
Lemma baseline_absent_iff_snapshot_failed (metaById : gmap string asset_meta)
    (s : PanelState) (sug : option ContributionSuggestion) (amt : number)
    (reply : snapshot_reply) :
  cryptoBaseline (suggest_onSuccess metaById s sug amt reply) = None
  <-> reply = SnapshotFailed.
Proof. destruct reply; simpl; split; congruence. Qed.

(** C3. When phase 1 could not capture the baseline snapshot, the state
    holds no baseline, and every later click on the confirm button (whatever
    was typed or received in between) is rejected with "missing baseline"
    without a request being built; in no state at all does a missing
    baseline lead to a request. *)
Theorem missing_baseline_rejected (metaById : gmap string asset_meta)
    (s s' : PanelState) (sug : option ContributionSuggestion)
    (events : list panel_event) (settings : jsval) :
  phase1 metaById s sug SnapshotFailed = Some s' ->
  cryptoBaseline s' = None
  /\ confirmCrypto_mutationFn (run events s') settings = Throws "missing baseline"
  /\ (forall s0 settings0 url,
        cryptoBaseline s0 = None ->
        confirmCrypto_mutationFn s0 settings0 <> Requests url).
Proof.
  intros Hphase.
  destruct (phase1_inv _ _ _ _ _ Hphase) as (amt & _ & _ & Hok & ->).
  split; [reflexivity |]. split.
  - destruct (run_keeps_phase1_state events
                (suggest_onSuccess metaById s sug amt SnapshotFailed))
      as (Ht & Hb & _).
    rewrite confirm_without_baseline by (now rewrite Hb).
    rewrite (baseAmount_of_total _ amt) by (now rewrite Ht).
    now rewrite Hok.
  - intros s0 settings0 url Hnone Hreq.
    rewrite confirm_without_baseline in Hreq by assumption. discriminate.
Qed.

Lemma suggest_onSuccess_in_two_steps (metaById : gmap string asset_meta)
    (s : PanelState) (sug : option ContributionSuggestion) (amt : number)
    (reply : snapshot_reply) :
  suggest_onSuccess metaById s sug amt reply
  = suggest_onSuccess_end (suggest_onSuccess_begin metaById s sug amt) reply.
Proof. reflexivity. Qed.

(** C4. A phase-2 request carries what the panel holds when the confirm
    button is clicked, and that need not be the state of one phase 1. The
    handler of a suggestion stores the amount and the expected amounts,
    then waits for the snapshot, and only then stores the baseline; the
    confirm button stays enabled meanwhile. A request issued during the
    wait (whatever was typed or received since the suggestion arrived)
    carries the new amount and the new expected amounts together with
    the baseline held before the suggestion arrived, the snapshot of an
    earlier round. Every request issued after the snapshot has settled
    carries the same amount and expected amounts with that snapshot. *)
Theorem confirm_request_mixes_rounds (metaById : gmap string asset_meta)
    (s : PanelState) (sug : option ContributionSuggestion) (amt : number)
    (during : list panel_event) (settings : jsval) (url : string) :
  showSuggest s = SuggestMutate amt ->
  let began := run during (suggest_onSuccess_begin metaById s sug amt) in
  confirmCrypto_mutationFn began settings = Requests url ->
  exists stale expected,
    cryptoBaseline s = Some stale
    /\ expectedCrypto began = Some expected
    /\ (num_leb (prefillSum s) (Finite 0) = true ->
        expected = prefillAssets (collectCryptoPrefill sug metaById))
    /\ (num_leb (prefillSum s) (Finite 0) = false ->
        expectedCrypto s = Some expected)
    /\ url = confirm_request_url amt stale expected (readSlipPct settings)
    /\ (forall reply after url',
          confirmCrypto_mutationFn
            (run after (suggest_onSuccess_end began reply)) settings
          = Requests url' ->
          exists body,
            reply = SnapshotOk body
            /\ url' = confirm_request_url amt (default [] (body ≫= snap_assets))
                        expected (readSlipPct settings)).
Proof.
  intros _ began Hreq.
  destruct (confirm_request_reads_state _ _ _ Hreq)
    as (stale & expected & Hb & He & _ & ->).
  destruct (run_keeps_phase1_state during (suggest_onSuccess_begin metaById s sug amt))
    as (Ht & Hb' & He').
  fold began in Ht, Hb', He'.
  cbn [suggest_onSuccess_begin contributionTotal cryptoBaseline expectedCrypto]
    in Ht, Hb', He'.
  exists stale, expected.
  split; [now rewrite <- Hb' |]. split; [exact He |].
  rewrite He' in He.
  split.
  { intros Hsum. rewrite Hsum in He.
    destruct (num_ltb (Finite 0) (total (collectCryptoPrefill sug metaById)));
      congruence. }
  split; [intros Hsum; now rewrite Hsum in He |].
  split; [now rewrite (baseAmount_of_total _ amt Ht) |].
  intros reply after url' Hreq'.
  destruct (confirm_request_reads_state _ _ _ Hreq')
    as (baseline' & expected' & Hb2 & He2 & _ & ->).
  destruct (run_keeps_phase1_state after (suggest_onSuccess_end began reply))
    as (Ht2 & Hb2' & He2').
  cbn [suggest_onSuccess_end contributionTotal cryptoBaseline expectedCrypto]
    in Ht2, Hb2', He2'.
  rewrite Hb2' in Hb2. rewrite He2', He' in He2.
  rewrite (baseAmount_of_total _ amt) by (now rewrite Ht2).
  destruct reply as [| body]; [discriminate Hb2 |]. injection Hb2 as <-.
  exists body. split; [reflexivity |]. congruence.
Qed.

(** C6. An amount that is not finite or not positive is turned away before
    anything is computed: the suggest button only shows the warning and
    starts no mutation, and the confirm mutation throws "invalid amount"
    instead of building its request. *)
Theorem invalid_amount_rejected (s : PanelState) (settings : jsval) (amt : number) :
  isFinite amt = false \/ num_leb amt (Finite 0) = true ->
  (entered_amount s = amt ->
   showSuggest s = ToastWarn "请输入新增资金"
   /\ forall a, showSuggest s <> SuggestMutate a)
  /\ (baseAmount s = amt ->
      confirmCrypto_mutationFn s settings = Throws "invalid amount"
      /\ forall url, confirmCrypto_mutationFn s settings <> Requests url).
Proof.
  intros Hbad.
  assert (Hrej : rejected_amount amt = true).
  { unfold rejected_amount. destruct Hbad as [-> | ->]; [reflexivity |].
    apply orb_true_r. }
  split; intros <-.
  - unfold showSuggest. rewrite Hrej. split; [reflexivity | discriminate].
  - unfold confirmCrypto_mutationFn. rewrite Hrej. split; [reflexivity | discriminate].
Qed.

End TwoPhaseFlow.

(** ** Own entries of an object *)

Lemma own_get_set_eq {A} (k : string) (v : A) (d : list (string * A)) :
  own_get k (own_set k v d) = Some v.
Proof.
  induction d as [| [k' v'] d IH]; simpl.
  - now rewrite String.eqb_refl.
  - destruct (String.eqb k k') eqn:Hk; simpl; rewrite ?String.eqb_refl, ?Hk; auto.
Qed.

Lemma own_get_set_ne {A} (k k' : string) (v : A) (d : list (string * A)) :
  k <> k' -> own_get k' (own_set k v d) = own_get k' d.
Proof.
  intros Hne. induction d as [| [k0 v0] d IH]; simpl.
  - destruct (String.eqb_spec k' k); congruence.
  - destruct (String.eqb_spec k k0) as [-> | Hk0]; simpl.
    + destruct (String.eqb_spec k' k0); congruence.
    + destruct (String.eqb_spec k' k0); auto.
Qed.

(** ** Expected crypto allocation *)

Section CryptoPrefill.
Context `{Host}.
Variable metaById : gmap string asset_meta.

Lemma eligible_iff (a : AssetBuySuggestion) :
  eligible metaById a = true <->
  exists aid meta q,
    asset_id a = Some aid /\ aid <> ""
    /\ metaById !! aid = Some meta
    /\ kind meta = "crypto"
    /\ includes (default "" (source meta)) "manual-quantity" = false
    /\ entry_amount a = Finite q /\ (0 < q)%Q.
Proof.
  unfold eligible, wallet_backed_crypto, entry_id. split.
  - intros Hel.
    apply andb_prop in Hel as [Hel Hpos].
    apply andb_prop in Hel as [Hel Hfin].
    apply andb_prop in Hel as [Hid Hmeta].
    destruct (asset_id a) as [aid |]; [| discriminate Hid]. simpl in *.
    destruct (metaById !! aid) as [meta |] eqn:Hlook; [| discriminate].
    apply andb_prop in Hmeta as [Hkind Hsrc].
    destruct (entry_amount a) as [q | | |] eqn:Hamt; try discriminate.
    exists aid, meta, q.
    split; [reflexivity |].
    split; [intros ->; discriminate |].
    split; [exact Hlook |].
    split; [now apply String.eqb_eq |].
    split; [now destruct (includes _ _) |].
    split; [reflexivity |].
    unfold num_ltb, num_leb in Hpos.
    apply Qnot_le_lt. intros Hle. apply Qle_bool_iff in Hle.
    rewrite Hle in Hpos. discriminate.
  - intros (aid & meta & q & Ha & Hne & Hlook & Hkind & Hsrc & Hq & Hpos).
    rewrite Ha, Hq. simpl. rewrite Hlook, Hkind, Hsrc. simpl.
    destruct (String.eqb_spec aid ""); [contradiction |]. simpl.
    destruct (Qle_bool q 0) eqn:Hle; [| reflexivity].
    apply Qle_bool_iff in Hle. exfalso. exact (Qlt_not_le _ _ Hpos Hle).
Qed.

Lemma visit_asset_spec (acc : CryptoPrefill) (a : AssetBuySuggestion) :
  visit_asset metaById acc a =
  if eligible metaById a then
    {| total := num_add (total acc) (entry_amount a);
       items := (items acc ++ [item_of metaById a])%list;
       prefillAssets :=
         plain_set_primitive (entry_id a)
           (accumulate (plain_get (prefillAssets acc) (entry_id a)) (entry_id a)
              (entry_amount a))
           (prefillAssets acc) |}
  else acc.
Proof.
  unfold visit_asset, eligible, wallet_backed_crypto, item_of, entry_id, entry_amount.
  destruct (String.eqb (default "" (asset_id a)) ""); simpl; [reflexivity |].
  destruct (metaById !! default "" (asset_id a)) as [meta |]; simpl; [| reflexivity].
  destruct (String.eqb (kind meta) "crypto"); simpl; [| reflexivity].
  destruct (includes (default "" (source meta)) "manual-quantity"); simpl; [reflexivity |].
  set (amt := Number (if truthy (amount_cny a) then amount_cny a else JNum (Finite 0))).
  destruct amt as [q | | |]; simpl; try reflexivity.
  unfold num_ltb, num_leb. now destruct (Qle_bool q 0).
Qed.

Lemma collect_as_one_loop (sug : option ContributionSuggestion) :
  collectCryptoPrefill sug metaById =
  fold_left (visit_asset metaById) (suggested_entries sug)
    {| total := Finite 0; items := []; prefillAssets := [] |}.
Proof.
  unfold collectCryptoPrefill, suggested_entries.
  generalize {| total := Finite 0; items := []; prefillAssets := [] |}.
  induction (match sug with Some s => categories s | None => [] end)
    as [| c cs IH]; intros acc; simpl; [reflexivity |].
  rewrite fold_left_app. apply IH.
Qed.

Lemma num_sum_snoc (l : list number) (x : number) :
  num_sum (l ++ [x]) = num_add (num_sum l) x.
Proof. unfold num_sum. now rewrite fold_left_app. Qed.

Lemma num_sum_map_snoc {A} (f : A -> number) (l : list A) (x : A) :
  num_sum (map f (l ++ [x])) = num_add (num_sum (map f l)) (f x).
Proof. rewrite map_app. apply num_sum_snoc. Qed.

Lemma eligible_amount (a : AssetBuySuggestion) :
  eligible metaById a = true ->
  exists q, entry_amount a = Finite q /\ (0 < q)%Q.
Proof.
  intros Hel. apply eligible_iff in Hel
    as (aid & meta & q & _ & _ & _ & _ & _ & Hq & Hpos). eauto.
Qed.

Lemma num_sum_positive (l : list AssetBuySuggestion) :
  Forall (fun a => eligible metaById a = true) l ->
  exists q, num_sum (map entry_amount l) = Finite q
            /\ (0 <= q)%Q /\ (l <> [] -> (0 < q)%Q).
Proof.
  induction l as [| a l IH] using rev_ind; intros Hall.
  - exists 0%Q. repeat split; [apply Qle_refl | congruence].
  - apply Forall_app in Hall as [Hl Ha].
    destruct (IH Hl) as (q & Hq & Hnn & _).
    apply Forall_inv in Ha. destruct (eligible_amount a Ha) as (x & Hx & Hpos).
    rewrite num_sum_map_snoc, Hq, Hx. simpl.
    exists (q + x)%Q. split; [reflexivity |].
    assert (Hsum : (0 < q + x)%Q).
    { apply Qlt_le_trans with (y := (0 + x)%Q).
      - now rewrite Qplus_0_l.
      - apply Qplus_le_l. exact Hnn. }
    split; [now apply Qlt_le_weak | intros _; exact Hsum].
Qed.

Lemma filter_snoc {A} (f : A -> bool) (l : list A) (x : A) :
  List.filter f (l ++ [x]) = (List.filter f l ++ (if f x then [x] else []))%list.
Proof. rewrite List.filter_app. reflexivity. Qed.

(** The per-asset object after the loop has run over [l]. *)
Lemma prefillAssets_tally (l : list AssetBuySuggestion) (aid : string) :
  inherited_key aid = false ->
  own_get aid
    (prefillAssets
       (fold_left (visit_asset metaById) l
          {| total := Finite 0; items := []; prefillAssets := [] |}))
  = tally aid (List.filter (eligible metaById) l).
Proof.
  intros Hown. induction l as [| a l IH] using rev_ind; [reflexivity |].
  rewrite fold_left_app, filter_snoc. simpl fold_left.
  rewrite visit_asset_spec.
  destruct (eligible metaById a) eqn:Hel.
  2:{ now rewrite app_nil_r. }
  set (acc := fold_left (visit_asset metaById) l _) in *.
  unfold tally in *. rewrite filter_snoc. cbn [prefillAssets].
  unfold has_id at 2.
  unfold plain_set_primitive.
  destruct (String.eqb_spec (entry_id a) aid) as [Hsame | Hdiff].
  - subst aid.
    destruct (String.eqb_spec (entry_id a) "__proto__") as [Hproto | _].
    { rewrite Hproto in Hown. discriminate. }
    rewrite own_get_set_eq. unfold plain_get. rewrite IH, Hown.
    assert (Hall : Forall (fun a0 => eligible metaById a0 = true)
                     (List.filter (has_id (entry_id a)) (List.filter (eligible metaById) l))).
    { apply List.Forall_forall. intros x Hx.
      apply List.filter_In in Hx as [Hx _]. now apply List.filter_In in Hx as [_ Hx]. }
    destruct (num_sum_positive _ Hall) as (q & Hq & _ & Hpos).
    destruct (List.filter (has_id (entry_id a)) (List.filter (eligible metaById) l))
      as [| b bs] eqn:Hprev.
    + reflexivity.
    + assert (Hq0 : (0 < q)%Q) by (apply Hpos; discriminate).
      cbn [app]. rewrite app_comm_cons, num_sum_map_snoc.
      cbn [accumulate]. rewrite Hq. unfold num_or_zero, num_truthy.
      destruct (Qeq_bool q 0) eqn:Hz.
      * apply Qeq_bool_iff in Hz. rewrite Hz in Hq0. now apply Qlt_irrefl in Hq0.
      * reflexivity.
  - rewrite app_nil_r.
    destruct (String.eqb (entry_id a) "__proto__"); [exact IH |].
    rewrite own_get_set_ne by assumption. exact IH.
Qed.

(** C5. [collectCryptoPrefill] counts a suggested entry exactly when it has
    a non-empty asset id whose metadata exists with kind "crypto" and a
    source that does not mention "manual-quantity", and its amount is finite
    and positive. The items are the counted entries in order, the total is
    the sum of their amounts, and the per-asset object holds, under every
    key that an object does not inherit, the sum of the counted amounts for
    that asset. *)
Theorem collectCryptoPrefill_counts_wallet_crypto (sug : option ContributionSuggestion) :
  let r := collectCryptoPrefill sug metaById in
  let included := List.filter (eligible metaById) (suggested_entries sug) in
  (forall a, In a included <->
     In a (suggested_entries sug)
     /\ exists aid meta q,
          asset_id a = Some aid /\ aid <> ""
          /\ metaById !! aid = Some meta
          /\ kind meta = "crypto"
          /\ includes (default "" (source meta)) "manual-quantity" = false
          /\ entry_amount a = Finite q /\ (0 < q)%Q)
  /\ items r = map (item_of metaById) included
  /\ total r = num_sum (map entry_amount included)
  /\ (forall aid, inherited_key aid = false ->
        own_get aid (prefillAssets r) = tally aid included).
Proof.
  intros r included. subst r included.
  rewrite collect_as_one_loop.
  split; [| split; [| split]].
  - intros a. rewrite List.filter_In, eligible_iff. reflexivity.
  - induction (suggested_entries sug) as [| a l IH] using rev_ind; [reflexivity |].
    rewrite fold_left_app, filter_snoc. simpl fold_left. rewrite visit_asset_spec.
    destruct (eligible metaById a).
    + cbn [items]. rewrite IH, map_app. reflexivity.
    + now rewrite app_nil_r.
  - induction (suggested_entries sug) as [| a l IH] using rev_ind; [reflexivity |].
    rewrite fold_left_app, filter_snoc. simpl fold_left. rewrite visit_asset_spec.
    destruct (eligible metaById a).
    + cbn [total]. rewrite IH, num_sum_map_snoc. reflexivity.
    + now rewrite app_nil_r.
  - intros aid Hown. now apply prefillAssets_tally.
Qed.

End CryptoPrefill.

(** ** Rounding to the nearest double *)

Section Rounding.
Local Open Scope Q_scope.

Lemma pow2_pos (k : Z) : 0 < pow2 k.
Proof. apply Qpower_0_lt. reflexivity. Qed.

Lemma pow2_add (a b : Z) : pow2 (a + b) == pow2 a * pow2 b.
Proof. apply Qpower_plus. discriminate. Qed.

Lemma pow2_inject (a : Z) : (0 <= a)%Z -> pow2 a == inject_Z (2 ^ a).
Proof. intros Ha. unfold pow2. now rewrite Zpower_Qpower. Qed.

Lemma round_half_even_near (y : Q) :
  - (1 # 2) <= inject_Z (round_half_even y) - y <= 1 # 2.
Proof.
  unfold round_half_even.
  pose proof (Qfloor_le y) as Hlo. pose proof (Qlt_floor y) as Hhi.
  rewrite inject_Z_plus in Hhi. change (inject_Z 1) with 1 in Hhi.
  assert (Hup : inject_Z (Qfloor y + 1) == inject_Z (Qfloor y) + 1)
    by (rewrite inject_Z_plus; reflexivity).
  destruct (Qcompare_spec (y - inject_Z (Qfloor y)) (1 # 2)) as [He | Hl | Hg].
  - destruct (Z.even (Qfloor y)); [| rewrite Hup]; split; lra.
  - split; lra.
  - rewrite Hup. split; lra.
Qed.

Lemma round_half_even_nonneg (y : Q) : 0 <= y -> (0 <= round_half_even y)%Z.
Proof.
  intros Hy. assert (0 <= Qfloor y)%Z.
  { change 0%Z with (Qfloor 0). now apply Qfloor_resp_le. }
  unfold round_half_even.
  destruct (y - inject_Z (Qfloor y) ?= 1 # 2); [destruct (Z.even _) | |]; lia.
Qed.

Lemma floor_log2_le (x : Q) : 0 < x -> pow2 (floor_log2 x) <= x.
Proof.
  intros Hx. unfold floor_log2.
  destruct (Qle_bool _ x) eqn:Hle; [now apply Qle_bool_iff |].
  destruct x as [n d]. cbn [Qnum Qden].
  assert (Hn : (0 < n)%Z) by (unfold Qlt in Hx; simpl in Hx; lia).
  pose proof (Z.log2_spec n Hn) as [Hna _].
  pose proof (Z.log2_spec (Zpos d) eq_refl) as [_ Hdb].
  pose proof (Z.log2_nonneg n) as Ha. pose proof (Z.log2_nonneg (Zpos d)) as Hb.
  set (a := Z.log2 n) in *. set (b := Z.log2 (Zpos d)) in *.
  replace (a - b - 1)%Z with (a + - (Z.succ b))%Z by lia.
  rewrite pow2_add. unfold pow2 at 2. rewrite Qpower_opp.
  fold (pow2 (Z.succ b)). rewrite !pow2_inject by lia.
  assert (Hp : (0 < 2 ^ Z.succ b)%Z) by (apply Z.pow_pos_nonneg; lia).
  rewrite (Qmake_Qdiv n d).
  apply Qle_shift_div_l; [ change 0 with (inject_Z 0); rewrite <- Zlt_Qlt; lia |].
  unfold Qdiv.
  rewrite <- Qmult_assoc, (Qmult_comm (/ _)), Qmult_assoc.
  apply Qle_shift_div_r; [ change 0 with (inject_Z 0); rewrite <- Zlt_Qlt; lia |].
  rewrite <- !inject_Z_mult, <- Zle_Qle. nia.
Qed.

(** What [round_positive] returns: a multiple of the quantum [2^k], within
    half a quantum of [x]; the quantum is [2^-1074] or at most [x * 2^-52]. *)
Lemma round_positive_spec (x r : Q) :
  0 < x -> round_positive x = Some r ->
  exists (m k : Z),
    (0 <= m)%Z /\ r == inject_Z m * pow2 k
    /\ - (pow2 k * (1 # 2)) <= r - x <= pow2 k * (1 # 2)
    /\ (k = (-1074)%Z \/ pow2 k * pow2 52 <= x).
Proof.
  intros Hx. unfold round_positive.
  set (k := Z.max (floor_log2 x - 52) (-1074)).
  set (m := round_half_even (x / pow2 k)).
  destruct (Qle_bool _ _); [discriminate |]. intros [= <-].
  pose proof (pow2_pos k) as Hk.
  exists m, k. rewrite Qred_correct.
  split; [| split; [reflexivity | split]].
  - apply round_half_even_nonneg. apply Qlt_le_weak.
    apply Qlt_shift_div_l; [exact Hk | lra].
  - pose proof (round_half_even_near (x / pow2 k)) as [Hlo Hhi]. fold m in Hlo, Hhi.
    assert (Hxk : x == x / pow2 k * pow2 k) by (field; lra).
    set (y := x / pow2 k) in *.
    assert (E : inject_Z m * pow2 k - x == (inject_Z m - y) * pow2 k)
      by (rewrite Hxk at 1; ring).
    assert (- (1 # 2) * pow2 k <= (inject_Z m - y) * pow2 k)
      by (apply Qmult_le_compat_r; lra).
    assert ((inject_Z m - y) * pow2 k <= (1 # 2) * pow2 k)
      by (apply Qmult_le_compat_r; lra).
    split; lra.
  - destruct (Z.max_spec (floor_log2 x - 52) (-1074)) as [[_ Hm] | [_ Hm]];
      fold k in Hm; [now left | right].
    rewrite <- pow2_add, Hm.
    replace (floor_log2 x - 52 + 52)%Z with (floor_log2 x) by lia.
    now apply floor_log2_le.
Qed.

Lemma round_double_compat (q q' : Q) : q == q' -> round_double q = round_double q'.
Proof. intros Heq. unfold round_double. now rewrite (Qred_complete _ _ Heq). Qed.

Lemma Qnum_sign (x : Q) :
  match Qnum x with
  | Z0 => x == 0
  | Zpos _ => 0 < x
  | Zneg _ => x < 0
  end.
Proof. destruct x as [[| p | p] d]; unfold Qeq, Qlt; simpl; lia. Qed.

(** The accuracy of [round_double]: the relative error is at most [2^-53],
    but for the numbers too small for it, where the error is at most
    [2^-1075]. *)
Lemma round_double_near (q r : Q) :
  round_double q = Finite r ->
  Qabs (r - q) <= Qabs q * pow2 (-53) + pow2 (-1075).
Proof.
  unfold round_double. pose proof (Qnum_sign (Qred q)) as Hs.
  pose proof (Qred_correct q) as Hq.
  assert (H53 : pow2 (-53) * pow2 52 == 1 # 2) by reflexivity.
  assert (H1075 : pow2 (-1074) * (1 # 2) == pow2 (-1075)) by reflexivity.
  assert (Hpos : forall x s, 0 < x -> round_positive x = Some s ->
            Qabs (s - x) <= x * pow2 (-53) + pow2 (-1075)).
  { intros x s Hx Hr.
    destruct (round_positive_spec x s Hx Hr) as (m & k & _ & _ & [Hlo Hhi] & Hk).
    pose proof (pow2_pos k) as Hkp. pose proof (pow2_pos (-53)) as H53p.
    pose proof (pow2_pos (-1075)) as H1075p.
    assert (Hb : pow2 k * (1 # 2) <= x * pow2 (-53) + pow2 (-1075)).
    { destruct Hk as [-> | Hk].
      - rewrite H1075. assert (0 <= x * pow2 (-53)) by (apply Qmult_le_0_compat; lra).
        lra.
      - assert (pow2 k * pow2 52 * pow2 (-53) <= x * pow2 (-53))
          by (apply Qmult_le_compat_r; lra).
        assert (E : pow2 k * pow2 52 * pow2 (-53) == pow2 k * (1 # 2))
          by (rewrite <- H53; ring).
        lra. }
    apply Qabs_Qle_condition. split; lra. }
  destruct (Qnum (Qred q)) eqn:Hn.
  - intros [= <-]. rewrite <- Hq, Hs.
    pose proof (pow2_pos (-1075)). pose proof (pow2_pos (-53)).
    change (Qabs (0 - 0)) with 0. change (Qabs 0) with 0. lra.
  - destruct (round_positive (Qred q)) as [s |] eqn:Hr; [| discriminate].
    intros [= <-]. specialize (Hpos _ _ Hs Hr).
    rewrite Hq in Hpos. rewrite (Qabs_pos q) by (rewrite <- Hq; lra). exact Hpos.
  - destruct (round_positive (- Qred q)) as [s |] eqn:Hr; [| discriminate].
    intros [= <-]. assert (Hx : 0 < - Qred q) by lra.
    specialize (Hpos _ _ Hx Hr). rewrite Hq in Hpos.
    rewrite (Qabs_neg q) by (rewrite <- Hq; lra).
    assert (E : - s - q == - (s - - q)) by ring.
    now rewrite E, Qabs_opp.
Qed.

(** A number that is not zero is not the double nearest to a hundred times
    itself. *)
Lemma round_double_percent_differs (q r : Q) :
  ~ q == 0 -> round_double (q * 100) = Finite r -> ~ r == q.
Proof.
  intros Hq0. unfold round_double.
  pose proof (Qnum_sign (Qred (q * 100))) as Hs.
  pose proof (Qred_correct (q * 100)) as Hq.
  assert (Hpos : forall x y s,
            0 < x -> y == x * 100 -> round_positive y = Some s -> ~ s == x).
  { intros x y s Hx Hy Hr Heq.
    assert (Hx100 : 0 < y) by lra.
    destruct (round_positive_spec _ s Hx100 Hr) as (m & k & Hm & Hmk & [Hlo Hhi] & Hk).
    pose proof (pow2_pos k) as Hkp.
    destruct Hk as [-> | Hk].
    - assert (Hm1 : (1 <= m)%Z).
      { destruct (Z.eq_dec m 0%Z) as [-> | ]; [| lia].
        change (inject_Z 0) with 0 in Hmk. rewrite Qmult_0_l in Hmk. lra. }
      assert (1 <= inject_Z m) by (change 1 with (inject_Z 1); now rewrite <- Zle_Qle).
      assert (pow2 (-1074) <= inject_Z m * pow2 (-1074)).
      { rewrite <- (Qmult_1_l (pow2 (-1074))) at 1. apply Qmult_le_compat_r; lra. }
      lra.
    - assert (H52 : 4 <= pow2 52) by (apply Qle_bool_iff; reflexivity).
      assert (pow2 k * 4 <= pow2 k * pow2 52).
      { rewrite !(Qmult_comm (pow2 k)). apply Qmult_le_compat_r; lra. }
      lra. }
  destruct (Qnum (Qred (q * 100))) eqn:Hn.
  - lra.
  - destruct (round_positive _) as [s |] eqn:Hr; [| discriminate].
    intros [= <-]. apply (Hpos q (Qred (q * 100)) s); [lra | exact Hq | exact Hr].
  - destruct (round_positive _) as [s |] eqn:Hr; [| discriminate].
    intros [= <-] Heq. apply (Hpos (- q) (- Qred (q * 100)) s); [lra | lra | exact Hr | lra].
Qed.
Lemma round_double_zero (q : Q) : q == 0 -> round_double q = Finite 0.
Proof. intros Hq. now rewrite (round_double_compat q 0 Hq). Qed.

(** [round_double] on values whose doubles are known: one tenth; a tie
    above [2^53], which goes to the even neighbour; the greatest double and
    the least number that overflows; the least subnormal number and the
    tie below it. *)
Example round_double_samples :
  round_double (1 # 10) = Finite (3602879701896397 # 36028797018963968)
  /\ round_double (inject_Z (2 ^ 53 + 1)) = Finite (inject_Z (2 ^ 53))
  /\ round_double (inject_Z (2 ^ 53 + 3)) = Finite (inject_Z (2 ^ 53 + 4))
  /\ round_double (pow2 1024 - pow2 971) = Finite (inject_Z (2 ^ 1024 - 2 ^ 971))
  /\ round_double (pow2 1024 - pow2 970) = PosInf
  /\ round_double (- pow2 1024) = NegInf
  /\ round_double (pow2 (-1074)) = Finite (1 # 2 ^ 1074)
  /\ round_double (pow2 (-1075)) = Finite 0
  /\ round_double (pow2 (-1074) * (3 # 2)) = Finite (1 # 2 ^ 1073).
Proof. vm_compute. repeat split. Qed.

End Rounding.

(** ** Weights on screen *)

Section Weights.
Context `{Host}.

Lemma weight_percent_finite (w : jsval) (q : Q) :
  Number w = Finite q -> weight_percent w = round_double (q * 100).
Proof.
  intros Hw. unfold weight_percent, num_or_zero, num_truthy. rewrite Hw.
  destruct (Qeq_bool q 0) eqn:Hz; cbn [negb num_mul]; [| reflexivity].
  apply Qeq_bool_iff in Hz. apply round_double_compat. now rewrite Hz.
Qed.

Lemma weight_percent_nan (w : jsval) :
  Number w = NaN -> weight_percent w = Finite 0.
Proof. intros Hw. unfold weight_percent. now rewrite Hw. Qed.

(** C8. Every weight the bucket card and the suggestion table show (bucket
    weight, target, minimum and maximum weight, current weight, weight
    after) is formatted from [(Number(w) || 0) * 100]. For a weight that
    is the number [q] this product is the double nearest to [100 q]: it
    differs from [100 q] by at most the fraction [2^-53] of it (plus
    [2^-1075] for the smallest numbers), and it differs from [q] itself
    unless [q] is zero. A weight that is not a number is shown as zero,
    an infinite one stays infinite. *)
Theorem weights_shown_as_percent (c : CategoryView) (cs : CategorySuggestion) :
  (Overview.card_weight (Overview.BucketCard c)
     = Format.fmtPct (JNum (weight_percent (cv_weight c))) 1
   /\ Overview.card_target (Overview.BucketCard c)
     = Format.fmtPct (JNum (weight_percent (cv_target_weight c))) 0
   /\ Overview.card_min (Overview.BucketCard c)
     = Format.fmtPct (JNum (weight_percent (cv_min_weight c))) 0
   /\ Overview.card_max (Overview.BucketCard c)
     = Format.fmtPct (JNum (weight_percent (cv_max_weight c))) 0
   /\ row_current_weight (render_suggestion_row cs)
     = Format.fmtPct (JNum (weight_percent (current_weight cs))) 1
   /\ row_weight_after (render_suggestion_row cs)
     = Format.fmtPct (JNum (weight_percent (weight_after cs))) 1)
  /\ (forall w q, Number w = Finite q -> weight_percent w = round_double (q * 100))
  /\ (forall w q r, Number w = Finite q -> weight_percent w = Finite r ->
        (Qabs (r - q * 100) <= Qabs (q * 100) * pow2 (-53) + pow2 (-1075))%Q)
  /\ (forall w q r, Number w = Finite q -> ~ (q == 0)%Q ->
        weight_percent w = Finite r -> ~ (r == q)%Q)
  /\ (forall w, Number w = NaN -> weight_percent w = Finite 0)
  /\ (forall w, Number w = PosInf -> weight_percent w = PosInf)
  /\ (forall w, Number w = NegInf -> weight_percent w = NegInf).
Proof.
  split; [repeat split |]. split; [| split; [| split; [| split; [| split]]]].
  - apply weight_percent_finite.
  - intros w q r Hw Hr. rewrite (weight_percent_finite w q Hw) in Hr.
    now apply round_double_near.
  - intros w q r Hw Hq Hr. rewrite (weight_percent_finite w q Hw) in Hr.
    now apply (round_double_percent_differs q r).
  - apply weight_percent_nan.
  - intros w Hw. unfold weight_percent. now rewrite Hw.
  - intros w Hw. unfold weight_percent. now rewrite Hw.
Qed.

End Weights.

(** ** Absent annualised return on the ledger page *)

Section LedgerRendering.
Context `{Host}.

Lemma xirr_percent_absent (v : jsval) :
  is_nullish v = true -> LedgerPage.xirr_percent v = None.
Proof. unfold LedgerPage.xirr_percent. now intros ->. Qed.

(** C7 (as the page renders it). With [xirr_annual] absent, a per-asset row
    shows the placeholder in the annualised column next to principal,
    current value and profit. On the summary card the annualised
    percentage is left out altogether; current value and principal are
    shown, and the profit is shown unless principal, current value and
    profit are all zero, in which case its place takes the placeholder. *)
Theorem absent_xirr_rendering :
  (forall a : MetricsAsset,
      is_nullish (ma_xirr_annual a) = true ->
      let row := LedgerPage.render_asset_row a in
      LedgerPage.ar_xirr row = Format.placeholder
      /\ LedgerPage.ar_principal row = "¥ " ++ Format.fmtCny (ma_principal a) 2
      /\ LedgerPage.ar_current_value row = "¥ " ++ Format.fmtCny (ma_current_value a) 2
      /\ LedgerPage.ar_profit row =
           "¥ " ++ Format.fmtSignedCny
                     (JNum (Number (if truthy (ma_profit a) then ma_profit a
                                    else JNum (Finite 0)))) 2)
  /\ (forall (d : LedgerMetricsPayload) (t : MetricsTotal),
        lm_total d = Some t ->
        is_nullish (mt_xirr_annual t) = true ->
        let card := LedgerPage.render_total_card (Some d) in
        LedgerPage.tc_xirr card = None
        /\ LedgerPage.tc_current_value card = Format.fmtCny (mt_current_value t) 2
        /\ LedgerPage.tc_principal card = Format.fmtCny (mt_principal t) 2
        /\ LedgerPage.tc_profit card =
             if LedgerPage.nonzero (LedgerPage.or_zero (mt_principal t))
                || LedgerPage.nonzero (LedgerPage.or_zero (mt_current_value t))
                || LedgerPage.nonzero (LedgerPage.or_zero (mt_profit t))
             then Format.fmtSignedCny
                    (if is_nullish (mt_profit t) then JNull
                     else JNum (Number (mt_profit t))) 2
             else Format.placeholder).
Proof.
  split.
  - intros a Hx row. subst row. unfold LedgerPage.render_asset_row.
    rewrite (xirr_percent_absent _ Hx). repeat split.
  - intros d t Ht Hx card. subst card.
    unfold LedgerPage.render_total_card. cbn [mbind option_bind]. rewrite Ht.
    unfold LedgerPage.showProfit.
    rewrite (xirr_percent_absent _ Hx). cbn [orb].
    cbn [LedgerPage.tc_xirr LedgerPage.tc_current_value LedgerPage.tc_principal
         LedgerPage.tc_profit].
    repeat split.
Qed.

End LedgerRendering.

(** ** Grouping assets under their buckets *)

Lemma own_set_is_Some {A} (k k' : string) (v : A) (d : list (string * A)) :
  is_Some (own_get k' (own_set k v d)) <-> k' = k \/ is_Some (own_get k' d).
Proof.
  destruct (string_dec k k') as [<- | Hne].
  - rewrite own_get_set_eq. split; [now left | eauto].
  - rewrite own_get_set_ne by assumption. split; [now right |].
    intros [-> | Hs]; [contradiction | exact Hs].
Qed.

Lemma own_set_Forall {A} (P : string * A -> Prop) (k : string) (v : A)
    (d : list (string * A)) :
  P (k, v) -> List.Forall P d -> List.Forall P (own_set k v d).
Proof.
  intros Hkv Hd. induction Hd as [| [k' v'] d Hx Hd IH]; simpl.
  - constructor; [exact Hkv | constructor].
  - destruct (String.eqb k k'); constructor; auto.
Qed.

Lemma own_get_In {A} (k : string) (v : A) (d : list (string * A)) :
  own_get k d = Some v -> In (k, v) d.
Proof.
  induction d as [| [k' v'] d IH]; simpl; [discriminate |].
  destruct (String.eqb_spec k k') as [-> | _].
  - intros [= ->]. now left.
  - intros Hget. right. now apply IH.
Qed.

Lemma own_get_map_values {A B} (f : A -> B) (k : string) (d : list (string * A)) :
  own_get k (map (fun kv => (fst kv, f (snd kv))) d) = f <$> own_get k d.
Proof.
  induction d as [| [k' v'] d IH]; simpl; [reflexivity |].
  destruct (String.eqb k k'); [reflexivity | exact IH].
Qed.

(** Appending to the list stored under an own key adds exactly the new
    elements to the object's contents. *)
Lemma own_set_append_contents {A} (k : string) (l x : list A)
    (d : list (string * list A)) :
  own_get k d = Some l ->
  Permutation (concat (map snd (own_set k (l ++ x)%list d)))
              (concat (map snd d) ++ x)%list.
Proof.
  induction d as [| [k' v'] d IH]; simpl; [discriminate |].
  destruct (String.eqb k k').
  - intros [= ->]. simpl. rewrite <- !app_assoc.
    apply Permutation_app_head, Permutation_app_comm.
  - intros Hget. simpl. rewrite <- app_assoc.
    apply Permutation_app_head, IH, Hget.
Qed.

Section Grouping.
Context `{Host}.
Import AssetsPage.

Lemma inherited_key_nonempty (k : string) : inherited_key k = true -> k <> "".
Proof. intros Hk ->. discriminate Hk. Qed.

Lemma init_map_Some (categories : list Category)
    (m m' : list (string * list PortfolioAsset)) :
  init_map categories m = Some m' ->
  (forall k, is_Some (own_get k m') <->
             is_Some (own_get k m) \/ In k (map cat_id categories))
  /\ (List.Forall (fun kv => snd kv = []) m -> List.Forall (fun kv => snd kv = []) m').
Proof.
  revert m. induction categories as [| c cs IH]; intros m; simpl.
  - intros [= <-]. split; [| auto]. intros k. split; [now left | now intros [? | []]].
  - destruct (String.eqb (cat_id c) "__proto__"); [discriminate |].
    intros Hinit. destruct (IH _ Hinit) as [Hkeys Hvals]. split.
    + intros k. rewrite Hkeys, own_set_is_Some. split.
      * intros [[-> | Hs] | Hin]; auto.
      * intros [Hs | [<- | Hin]]; auto.
    + intros Hm. apply Hvals, own_set_Forall; [reflexivity | exact Hm].
Qed.

Lemma init_map_total (categories : list Category)
    (m : list (string * list PortfolioAsset)) :
  List.Forall (fun c => cat_id c <> "__proto__") categories ->
  exists m', init_map categories m = Some m'.
Proof.
  intros Hcats. revert m.
  induction Hcats as [| c cs Hc Hcs IH]; intros m; simpl; [eauto |].
  destruct (String.eqb_spec (cat_id c) "__proto__"); [contradiction | apply IH].
Qed.

Lemma place_never_outside (g : grouping) (a : PortfolioAsset) :
  place g a <> OutsideModel.
Proof.
  unfold place. destruct (String.eqb (category_key a) ""); [discriminate |].
  destruct (plain_get (g_map g) (category_key a)); discriminate.
Qed.

Lemma place_grouped (ids : list string) (seen : list PortfolioAsset)
    (g g' : grouping) (a : PortfolioAsset) :
  grouped ids seen g ->
  place g a = Returns g' ->
  grouped ids (seen ++ [a]) g'.
Proof.
  intros (Hkeys & Hperm & Hin & Hun). unfold place, plain_get.
  assert (Hpush : category_key a = "" \/ ~ In (category_key a) ids ->
                  grouped ids (seen ++ [a])
                    {| g_map := g_map g; unassigned := (unassigned g ++ [a])%list |}).
  { intros Hwhy. repeat split; cbn [g_map unassigned]; try apply Hkeys; auto.
    - rewrite app_assoc. now apply Permutation_app_tail.
    - apply List.Forall_app. split; [exact Hun | constructor; [exact Hwhy | constructor]]. }
  destruct (String.eqb_spec (category_key a) "") as [Hempty | Hne].
  { intros [= <-]. apply Hpush. now left. }
  destruct (own_get (category_key a) (g_map g)) as [l |] eqn:Hget.
  - intros [= <-]. repeat split; cbn [g_map unassigned].
    + intros Hs. apply Hkeys. apply own_set_is_Some in Hs as [-> | Hs]; [eauto | exact Hs].
    + intros Hk. apply own_set_is_Some. right. now apply Hkeys.
    + rewrite (own_set_append_contents _ _ _ _ Hget).
      rewrite <- app_assoc.
      rewrite (Permutation_app_comm [a] (unassigned g)).
      rewrite app_assoc. now apply Permutation_app_tail.
    + apply own_set_Forall; [| exact Hin]. cbn [fst snd].
      apply List.Forall_app. split; [| constructor; [reflexivity | constructor]].
      apply own_get_In in Hget.
      exact (proj1 (List.Forall_forall _ _) Hin _ Hget).
    + exact Hun.
  - destruct (inherited_key (category_key a)); [discriminate |].
    intros [= <-]. apply Hpush. right. intros Hk.
    apply Hkeys in Hk as [l Hl]. congruence.
Qed.

Lemma place_all_grouped (ids : list string) (assets seen : list PortfolioAsset)
    (g g' : grouping) :
  grouped ids seen g ->
  place_all g assets = Returns g' ->
  grouped ids (seen ++ assets) g'.
Proof.
  revert seen g. induction assets as [| a rest IH]; intros seen g Hg; simpl.
  - intros [= <-]. now rewrite app_nil_r.
  - destruct (place g a) as [g1 | |] eqn:Hplace; try discriminate.
    intros Hrest.
    replace (seen ++ a :: rest)%list with ((seen ++ [a]) ++ rest)%list
      by (now rewrite <- app_assoc).
    eapply IH; [| exact Hrest]. eapply place_grouped; eauto.
Qed.

Lemma insert_by_label_Permutation (x : PortfolioAsset) (l : list PortfolioAsset) :
  Permutation (insert_by_label x l) (x :: l).
Proof.
  induction l as [| y l IH]; simpl; [reflexivity |].
  destruct (label_leb x y); [reflexivity |].
  rewrite IH. apply perm_swap.
Qed.

Lemma sort_by_label_Permutation (l : list PortfolioAsset) :
  Permutation (sort_by_label l) l.
Proof.
  induction l as [| x l IH]; simpl; [reflexivity |].
  rewrite insert_by_label_Permutation. now constructor.
Qed.

Lemma sorted_groups_contents (d : list (string * list PortfolioAsset)) :
  Permutation
    (concat (map snd (map (fun kv => (fst kv, sort_by_label (snd kv))) d)))
    (concat (map snd d)).
Proof.
  induction d as [| [k l] d IH]; simpl; [constructor |].
  apply Permutation_app; [apply sort_by_label_Permutation | exact IH].
Qed.

(** When [byCategory] returns, its result is a partition of the assets:
    groups and [unassigned] together hold each asset as often as the input
    does, the groups are keyed by the category ids, each grouped asset sits
    under its trimmed category id, and an unassigned asset has an empty id
    or one that names no category. *)
Theorem byCategory_partition (categories : list Category)
    (assets : list PortfolioAsset) (g : grouping) :
  byCategory categories assets = Returns g ->
  grouped (map cat_id categories) assets g
  /\ length (concat (map snd (g_map g))) + length (unassigned g) = length assets.
Proof.
  unfold byCategory.
  destruct (init_map categories []) as [m |] eqn:Hinit; [| discriminate].
  destruct (place_all {| g_map := m; unassigned := [] |} assets) as [g0 | |] eqn:Hall;
    try discriminate.
  intros [= <-].
  destruct (init_map_Some _ _ _ Hinit) as [Hkeys Hvals].
  assert (Hstart : grouped (map cat_id categories) [] {| g_map := m; unassigned := [] |}).
  { repeat split; cbn [g_map unassigned].
    - intros Hs. apply Hkeys in Hs as [[v Hv] | Hin]; [discriminate | exact Hin].
    - intros Hin. apply Hkeys. now right.
    - rewrite app_nil_r. specialize (Hvals (List.Forall_nil _)).
      clear -Hvals. induction Hvals as [| [k l] d Hl Hd IH]; simpl; [constructor |].
      simpl in Hl. subst l. exact IH.
    - specialize (Hvals (List.Forall_nil _)).
      eapply List.Forall_impl; [| exact Hvals].
      intros [k l] Hl. simpl in Hl. subst l. constructor.
    - constructor. }
  destruct (place_all_grouped _ _ _ _ _ Hstart Hall) as (Hk & Hperm & Hin & Hun).
  simpl in Hperm.
  assert (Hres : grouped (map cat_id categories) assets
            {| g_map := map (fun kv => (fst kv, sort_by_label (snd kv))) (g_map g0);
               unassigned := sort_by_label (unassigned g0) |}).
  { repeat split; cbn [g_map unassigned].
    - intros Hs. apply Hk. rewrite own_get_map_values in Hs.
      destruct (own_get k (g_map g0)); [eauto | destruct Hs as [? Hs]; discriminate].
    - intros Hin'. apply Hk in Hin' as [l Hl].
      rewrite own_get_map_values, Hl. simpl. eauto.
    - rewrite sorted_groups_contents.
      rewrite sort_by_label_Permutation. exact Hperm.
    - apply List.Forall_map. eapply List.Forall_impl; [| exact Hin].
      intros [k l] Hl. cbn [fst snd] in *.
      eapply Permutation_Forall; [| exact Hl].
      symmetry. apply sort_by_label_Permutation.
    - eapply Permutation_Forall; [| exact Hun].
      symmetry. apply sort_by_label_Permutation. }
  split; [exact Hres |].
  destruct Hres as (_ & Hperm' & _ & _).
  rewrite <- length_app. now apply Permutation_length.
Qed.

(** The memo body does return whenever no asset carries a stale category id
    that collides with a member every object inherits. *)
Lemma byCategory_returns (categories : list Category) (assets : list PortfolioAsset) :
  List.Forall (fun c => cat_id c <> "__proto__") categories ->
  List.Forall (fun a => inherited_key (category_key a) = false
                        \/ In (category_key a) (map cat_id categories)) assets ->
  exists g, byCategory categories assets = Returns g.
Proof.
  intros Hcats Hassets. unfold byCategory.
  destruct (init_map_total categories [] Hcats) as [m Hinit]. rewrite Hinit.
  destruct (init_map_Some _ _ _ Hinit) as [Hkeys _].
  assert (Hm : forall k, In k (map cat_id categories) ->
                         is_Some (own_get k (g_map {| g_map := m; unassigned := [] |}))).
  { intros k Hin. apply Hkeys. now right. }
  revert Hm. generalize {| g_map := m; unassigned := [] |}.
  induction Hassets as [| a rest Ha Hrest IH]; intros g Hg; simpl; [eauto |].
  assert (Hplace : exists g', place g a = Returns g'
            /\ forall k, In k (map cat_id categories) -> is_Some (own_get k (g_map g'))).
  { unfold place, plain_get.
    destruct (String.eqb (category_key a) ""); [eauto |].
    destruct (own_get (category_key a) (g_map g)) as [l |] eqn:Hget.
    - eexists. split; [reflexivity |]. intros k Hin. cbn [g_map].
      apply own_set_is_Some. right. now apply Hg.
    - destruct Ha as [-> | Hin]; [eauto |].
      apply Hg in Hin as [l Hl]. congruence. }
  destruct Hplace as (g' & -> & Hg').
  destruct (IH g' Hg') as [gf Hgf].
  destruct (place_all g' rest); try discriminate. eauto.
Qed.

(** C10 (where the code departs from it). An asset whose trimmed category
    id names no category but is the name of a member every object inherits
    (such as "constructor") is not moved to [unassigned]: the lookup
    [map[cid]] finds the inherited member, the guard passes, and the call
    of [push] on it throws a [TypeError], so the grouping is never
    produced. *)
Theorem byCategory_throws_on_inherited_id (categories : list Category)
    (assets : list PortfolioAsset) :
  List.Forall (fun c => cat_id c <> "__proto__") categories ->
  List.Exists (fun a => inherited_key (category_key a) = true
                        /\ ~ In (category_key a) (map cat_id categories)) assets ->
  byCategory categories assets = TypeError.
Proof.
  intros Hcats Hbad. unfold byCategory.
  destruct (init_map_total categories [] Hcats) as [m Hinit]. rewrite Hinit.
  destruct (init_map_Some _ _ _ Hinit) as [Hkeys _].
  assert (Hm : forall k, is_Some (own_get k (g_map {| g_map := m; unassigned := [] |}))
                         -> In k (map cat_id categories)).
  { intros k Hs. apply Hkeys in Hs as [[v Hv] | Hin]; [discriminate | exact Hin]. }
  revert Hm. generalize {| g_map := m; unassigned := [] |}.
  enough (Hgoal : forall g,
             (forall k, is_Some (own_get k (g_map g)) -> In k (map cat_id categories)) ->
             place_all g assets = TypeError).
  { intros g Hg. now rewrite Hgoal. }
  induction Hbad as [a rest [Hinh Hstale] | a rest Hbad IH]; intros g Hg; simpl.
  - assert (Hthrow : place g a = TypeError); [| now rewrite Hthrow].
    unfold place, plain_get.
    destruct (String.eqb_spec (category_key a) "") as [Hempty | _].
    { now apply inherited_key_nonempty in Hinh. }
    destruct (own_get (category_key a) (g_map g)) as [l |] eqn:Hget.
    + exfalso. apply Hstale, Hg. rewrite Hget. eauto.
    + now rewrite Hinh.
  - destruct (place g a) as [g' | |] eqn:Hplace; [| reflexivity |].
    + apply IH. intros k Hs. apply Hg.
      revert Hplace Hs. unfold place, plain_get.
      destruct (String.eqb (category_key a) ""); [now intros [= <-] |].
      destruct (own_get (category_key a) (g_map g)) as [l |] eqn:Hget.
      * intros [= <-]. cbn [g_map]. intros Hs.
        apply own_set_is_Some in Hs as [-> | Hs]; [rewrite Hget; eauto | exact Hs].
      * destruct (inherited_key (category_key a)); [discriminate | now intros [= <-]].
    + now apply place_never_outside in Hplace.
Qed.

End Grouping.

(** ** The engine's contract *)

Section Allocation.
Import Engine.









(** C2 (amended). The amount prefilled for a crypto asset is the smaller of
    the expected amount and the acquired value, taken as zero when the
    balance fell and widened by the tolerance. It never exceeds the expected
    amount; for a non-negative expected amount and tolerance it never
    exceeds [expected * (1 + tolerance)] and is never negative; and it is
    the specification's [min(expected, acquired * (1 + tolerance))] whenever
    the balance did not fall below the baseline. *)
Theorem prefill_within_expected (expected baseline current tolerance : Q) :
  (0 <= expected)%Q ->
  (0 <= tolerance)%Q ->
  let p := prefill_amount expected baseline current tolerance in
  (p == Qmin expected
          (Qmax 0 (actually_acquired baseline current) * (1 + tolerance)))%Q
  /\ (p <= expected)%Q
  /\ (p <= expected * (1 + tolerance))%Q
  /\ (0 <= p)%Q
  /\ ((baseline <= current)%Q ->
      (p == Qmin expected (actually_acquired baseline current * (1 + tolerance)))%Q).
Proof.
  intros He Ht p. subst p. unfold prefill_amount.
  assert (Hfactor : (0 <= 1 + tolerance)%Q).
  { apply Qle_trans with (y := (0 + 0)%Q); [discriminate |].
    apply Qplus_le_compat; [discriminate | exact Ht]. }
  split; [reflexivity |].
  split; [apply Q.le_min_l |].
  split.
  { apply Qle_trans with (y := expected); [apply Q.le_min_l |].
    apply Qle_trans with (y := (expected * 1)%Q).
    - rewrite Qmult_1_r. apply Qle_refl.
    - rewrite !(Qmult_comm expected). apply Qmult_le_compat_r; [| exact He].
      apply Qle_trans with (y := (1 + 0)%Q); [discriminate |].
      apply Qplus_le_compat; [apply Qle_refl | exact Ht]. }
  split.
  { apply Q.min_glb; [exact He |].
    apply Qmult_le_0_compat; [apply Q.le_max_l | exact Hfactor]. }
  intros Hgain.
  assert (Hacq : (Qmax 0 (actually_acquired baseline current)
                  == actually_acquired baseline current)%Q).
  { apply Q.max_r. unfold actually_acquired.
    apply Qle_minus_iff in Hgain. exact Hgain. }
  now rewrite Hacq.
Qed.

End Allocation.

(** ** The statements at concrete inputs *)

Section Instances.
Import Samples.

Example scenario_B_allocation :
  Engine.allocate_amounts scenario_B 100000 = [25000; 25000; 25000; 25000]%Z.
Proof. reflexivity. Qed.

Example odd_unit_goes_to_first_largest_deficit :
  Engine.allocate_amounts scenario_B 100001 = [25001; 25000; 25000; 25000]%Z.
Proof. reflexivity. Qed.

Example scenario_A_allocation :
  Engine.allocate_amounts
    {| Engine.total_value := 1000000;
       Engine.first_bucket :=
         {| Engine.bucket_id := "equity"; Engine.target_weight := 1 # 4;
            Engine.bucket_value := 400000 |};
       Engine.more_buckets :=
         [ {| Engine.bucket_id := "bond"; Engine.target_weight := 1 # 4;
              Engine.bucket_value := 200000 |};
           {| Engine.bucket_id := "gold"; Engine.target_weight := 1 # 4;
              Engine.bucket_value := 200000 |};
           {| Engine.bucket_id := "cash"; Engine.target_weight := 1 # 4;
              Engine.bucket_value := 200000 |} ] |}
    50000
  = [0; 16668; 16666; 16666]%Z.
Proof. reflexivity. Qed.

Example slip_default : readSlipPct (H := sample_host) JNull = Finite 1.
Proof. reflexivity. Qed.

Example slip_override_clamped :
  readSlipPct (H := sample_host)
    (JObj [("override", JObj [("crypto_slip_pct", JNum (Finite 25))])])
  = Finite 20.
Proof. reflexivity. Qed.

Example slip_override_text_falls_back :
  readSlipPct (H := sample_host)
    (JObj [("override", JObj [("crypto_slip_pct", JStr "abc")]);
           ("effective", JObj [("crypto_slip_pct", JNum (Finite 3))])])
  = Finite 3.
Proof. reflexivity. Qed.

Example slip_effective_null_counts_as_zero :
  readSlipPct (H := sample_host)
    (JObj [("override", JObj []);
           ("effective", JObj [("crypto_slip_pct", JNull)])])
  = Finite 0.
Proof. reflexivity. Qed.

Example weight_quarter_shown_as_25 :
  weight_percent (H := sample_host) (JNum (Finite (1 # 4))) = Finite 25.
Proof. vm_compute. reflexivity. Qed.

(** The double written 0.045 lies below 45/1000, and a hundred times it
    is rounded up to 4.5; the double written 0.07 gives
    7.000000000000001, which is [7 + 2^-50]. *)
Example weight_0_045_shown_as_4_5 :
  weight_percent (H := sample_host)
    (JNum (Finite (3242591731706757 # 72057594037927936)))
  = Finite (9 # 2).
Proof. vm_compute. reflexivity. Qed.

Example weight_0_07_shown_above_7 :
  weight_percent (H := sample_host)
    (JNum (Finite (1261007895663739 # 18014398509481984)))
  = Finite (7881299347898369 # 1125899906842624).
Proof. vm_compute. reflexivity. Qed.

Example grouping_sample :
  AssetsPage.byCategory (H := sample_host) four_buckets
    [ {| pa_id := "a2"; pa_kind := "cash"; pa_code := None; pa_name := None;
         pa_coingecko_id := None; pa_category_id := Some "cash" |};
      {| pa_id := "a3"; pa_kind := "cn"; pa_code := Some "518880"; pa_name := None;
         pa_coingecko_id := None; pa_category_id := Some "retired" |};
      {| pa_id := "a4"; pa_kind := "cn"; pa_code := Some "511010"; pa_name := None;
         pa_coingecko_id := None; pa_category_id := None |} ]
  = AssetsPage.Returns
      {| AssetsPage.g_map :=
           [ ("equity", []); ("bond", []); ("gold", []);
             ("cash",
              [ {| pa_id := "a2"; pa_kind := "cash"; pa_code := None; pa_name := None;
                   pa_coingecko_id := None; pa_category_id := Some "cash" |} ]) ];
         AssetsPage.unassigned :=
           [ {| pa_id := "a4"; pa_kind := "cn"; pa_code := Some "511010";
                pa_name := None; pa_coingecko_id := None; pa_category_id := None |};
             {| pa_id := "a3"; pa_kind := "cn"; pa_code := Some "518880";
                pa_name := None; pa_coingecko_id := None;
                pa_category_id := Some "retired" |} ] |}.
Proof. reflexivity. Qed.

Example collect_sample :
  total (collectCryptoPrefill (H := sample_host) (Some sample_suggestion) sample_meta)
  = Finite (0 + 400).
Proof. vm_compute. reflexivity. Qed.



(** A call without prefill: scenario B, where the amounts add up to the
    contribution. *)
Example allocation_without_prefill :
  exists s,
    Engine.suggest scenario_B 100000 None = Engine.Suggested s
    /\ map Engine.bs_allocate_amount (Engine.sg_buckets s)
       = [25000; 25000; 25000; 25000]%Z
    /\ Engine.allocated_total s = 100000%Z.
Proof. eexists. repeat split. Qed.

(** C2, the claim as stated: when the balance fell below the baseline, the
    specification's [min(expected, acquired * (1 + tolerance))] is negative,
    so no amount can both equal it and be non-negative; the engine's amount
    is zero there. *)
Lemma prefill_formula_negative_on_loss :
  let claimed :=
    Qmin 100 (Engine.actually_acquired 50 40 * (1 + (1 # 100)))%Q in
  (claimed < 0)%Q
  /\ (Engine.prefill_amount 100 50 40 (1 # 100) == 0)%Q
  /\ ~ (Engine.prefill_amount 100 50 40 (1 # 100) == claimed)%Q.
Proof.
  split; [| split].
  - vm_compute. reflexivity.
  - vm_compute. reflexivity.
  - intros Heq. vm_compute in Heq. discriminate Heq.
Qed.

(** [prefill_within_expected] for an asset that gained 40 of the 100
    expected, at a tolerance of one percent. *)
Lemma prefill_within_expected_witness :
  (0 <= Engine.prefill_amount 100 50 90 (1 # 100))%Q
  /\ (Engine.prefill_amount 100 50 90 (1 # 100) <= 100 * (1 + (1 # 100)))%Q.
Proof.
  destruct (prefill_within_expected 100 50 90 (1 # 100))
    as (_ & _ & Hhi & Hlo & _).
  - discriminate.
  - discriminate.
  - split; assumption.
Defined.

(** [missing_baseline_rejected] after "1000" was typed, the suggestion
    came back and the snapshot request failed. *)
Lemma missing_baseline_rejected_witness :
  confirmCrypto_mutationFn (H := sample_host)
    (run (H := sample_host) [EditContribution "5"]
       (suggest_onSuccess (H := sample_host) sample_meta typed_1000
          (Some sample_suggestion) (Finite (inject_Z 1000)) SnapshotFailed))
    JNull
  = Throws "missing baseline".
Proof.
  refine (proj1 (proj2
            (missing_baseline_rejected (H := sample_host) sample_meta typed_1000 _
               (Some sample_suggestion) [EditContribution "5"] JNull _))).
  reflexivity.
Defined.

(** [invalid_amount_rejected] on the empty form. *)
Lemma invalid_amount_rejected_witness :
  showSuggest (H := sample_host) initial_state = ToastWarn "请输入新增资金"
  /\ confirmCrypto_mutationFn (H := sample_host) initial_state JNull
     = Throws "invalid amount".
Proof.
  destruct (invalid_amount_rejected (H := sample_host) initial_state JNull (Finite 0))
    as [Hsuggest Hconfirm].
  - right. reflexivity.
  - split.
    + exact (proj1 (Hsuggest eq_refl)).
    + exact (proj1 (Hconfirm eq_refl)).
Defined.

(** C7, the claim as stated: on the summary card a missing annualised
    return is not shown as the placeholder; the percentage is left out and
    only the profit is printed. *)
Lemma total_card_omits_absent_xirr :
  mt_xirr_annual sample_total = JNull
  /\ LedgerPage.tc_xirr (LedgerPage.render_total_card (H := sample_host) (Some sample_metrics))
     = None
  /\ LedgerPage.tc_profit (LedgerPage.render_total_card (H := sample_host) (Some sample_metrics))
     = "+1000"
  /\ Format.placeholder <> "+1000".
Proof.
  split; [reflexivity |]. split; [reflexivity |].
  split; [vm_compute; reflexivity | discriminate].
Qed.

(** [byCategory_throws_on_inherited_id] for the four buckets and one asset
    whose category id is "constructor". *)
Lemma byCategory_throws_on_inherited_id_witness :
  AssetsPage.byCategory (H := sample_host) four_buckets [stale_asset]
  = AssetsPage.TypeError.
Proof.
  apply (byCategory_throws_on_inherited_id (H := sample_host)).
  - repeat constructor; discriminate.
  - constructor. split; [reflexivity |].
    intros [Hin | [Hin | [Hin | [Hin | []]]]]; discriminate Hin.
Defined.

End Instances.

(** ** lib/format.ts: what the two replacements of [fmtNum] do *)

Lemma append_nil (s : string) : "" ++ s = s.
Proof. reflexivity. Qed.

Lemma append_cons (c : ascii) (a b : string) : String c a ++ b = String c (a ++ b).
Proof. reflexivity. Qed.

Lemma str_app_nil_r (s : string) : s ++ "" = s.
Proof.
  induction s as [| c s IH]; [reflexivity |]. now rewrite append_cons, IH.
Qed.

Lemma str_app_assoc (a b c : string) : (a ++ b) ++ c = a ++ (b ++ c).
Proof.
  induction a as [| x a IH]; [reflexivity |]. now rewrite !append_cons, IH.
Qed.

Section Formatting.
Import Format FormatShape.

Lemma digit_not_dot (c : ascii) : is_digit c = true -> Ascii.eqb c "." = false.
Proof.
  intros Hd. destruct (Ascii.eqb_spec c ".") as [-> | _]; [| reflexivity].
  vm_compute in Hd. discriminate.
Qed.

Lemma all_digits_no_dot (s : string) : all_digits s = true -> has_dot s = false.
Proof.
  induction s as [| c s IH]; simpl; [reflexivity |].
  intros [Hc Hs]%andb_true_iff. now rewrite (digit_not_dot c Hc), IH.
Qed.

Lemma all_digits_app (a b : string) :
  all_digits (a ++ b) = all_digits a && all_digits b.
Proof.
  induction a as [| c a IH]; [reflexivity |].
  rewrite append_cons. simpl. now rewrite IH, andb_assoc.
Qed.

Lemma strip_fraction_zeros_prefix (pre s : string) :
  has_dot pre = false ->
  strip_fraction_zeros (pre ++ s) = pre ++ strip_fraction_zeros s.
Proof.
  induction pre as [| c pre IH]; [reflexivity |].
  intros Hd. simpl in Hd. apply orb_false_iff in Hd as [Hc Hp].
  rewrite !append_cons. cbn [strip_fraction_zeros]. rewrite Hc.
  cbn [andb]. now rewrite IH.
Qed.

Lemma strip_fraction_zeros_undotted (s : string) :
  has_dot s = false -> strip_fraction_zeros s = s.
Proof.
  intros Hs. rewrite <- (str_app_nil_r s) at 1.
  rewrite strip_fraction_zeros_prefix by exact Hs. simpl. apply str_app_nil_r.
Qed.

Lemma strip_final_dot_undotted (s : string) :
  has_dot s = false -> strip_final_dot s = s.
Proof.
  induction s as [| c s IH]; simpl; [reflexivity |].
  intros [Hc Hs]%orb_false_iff. rewrite Hc.
  destruct s; [reflexivity |]. now rewrite IH.
Qed.

Lemma strip_final_dot_app (a b : string) :
  b <> "" -> strip_final_dot (a ++ b) = a ++ strip_final_dot b.
Proof.
  intros Hb. induction a as [| c a IH]; [reflexivity |].
  rewrite !append_cons.
  destruct (a ++ b) as [| x r] eqn:Hab.
  - destruct a; [rewrite append_nil in Hab; congruence
                | rewrite append_cons in Hab; discriminate].
  - change (strip_final_dot (String c (String x r)))
      with (String c (strip_final_dot (String x r))).
    now rewrite IH.
Qed.

Lemma drop_trailing_zeros_fixed (s : string) :
  ends_with "0" s = false -> drop_trailing_zeros s = s.
Proof.
  induction s as [| c s IH]; [reflexivity |].
  destruct s as [| c' s'].
  - simpl. now intros ->.
  - intros Hend. change (ends_with "0" (String c' s') = false) in Hend.
    cbn [drop_trailing_zeros] in *. rewrite (IH Hend). reflexivity.
Qed.

Lemma drop_trailing_zeros_split (s : string) :
  exists k, s = drop_trailing_zeros s ++ zeros k
            /\ ends_with "0" (drop_trailing_zeros s) = false.
Proof.
  induction s as [| c s (k & Hs & Hend)].
  - exists 0%nat. split; reflexivity.
  - cbn [drop_trailing_zeros].
    destruct (drop_trailing_zeros s) as [| c' r'] eqn:Hd.
    + rewrite append_nil in Hs. destruct (Ascii.eqb_spec c "0") as [-> | Hc].
      * exists (S k). split; [now rewrite Hs | reflexivity].
      * exists k. split; [now rewrite append_cons, append_nil, Hs |].
        simpl. now apply Ascii.eqb_neq.
    + exists k. split; [now rewrite append_cons, <- Hs | exact Hend].
Qed.

Lemma strip_fraction_zeros_at_dot (frac : string) :
  all_digits frac = true ->
  strip_fraction_zeros (String "." frac) = String "." (drop_trailing_zeros frac).
Proof.
  intros Hd. cbn [strip_fraction_zeros]. rewrite Hd. simpl.
  destruct (ends_with "0" frac) eqn:Hend; [reflexivity |].
  rewrite drop_trailing_zeros_fixed by exact Hend.
  now rewrite strip_fraction_zeros_undotted by now apply all_digits_no_dot.
Qed.

Context `{Host}.

(** X1. A formatted number without a decimal point is left as the locale
    printed it: the zeros that end an integer such as 1,200 are not taken
    for fraction zeros. *)
Theorem fmtNum_keeps_undotted (q : Q) (decimals : nat) :
  has_dot (toLocaleString q decimals) = false ->
  fmtNum (JNum (Finite q)) decimals = toLocaleString q decimals.
Proof.
  intros Hs. unfold fmtNum. cbn [Number].
  rewrite strip_fraction_zeros_undotted by exact Hs.
  now apply strip_final_dot_undotted.
Qed.

(** X2. When the locale prints an integer part, a point and fraction
    digits, [fmtNum] keeps the fraction up to its last non-zero digit and
    drops the point together with a fraction that is all zeros. *)
Theorem fmtNum_strips_fraction (q : Q) (decimals : nat) (pre frac : string) :
  toLocaleString q decimals = pre ++ "." ++ frac ->
  has_dot pre = false ->
  all_digits frac = true ->
  exists kept k,
    frac = kept ++ zeros k
    /\ ends_with "0" kept = false
    /\ fmtNum (JNum (Finite q)) decimals =
         if String.eqb kept "" then pre else pre ++ "." ++ kept.
Proof.
  intros Hout Hpre Hfrac. unfold fmtNum. cbn [Number]. rewrite Hout.
  rewrite strip_fraction_zeros_prefix by exact Hpre.
  change ("." ++ frac) with (String "." frac).
  rewrite strip_fraction_zeros_at_dot by exact Hfrac.
  destruct (drop_trailing_zeros_split frac) as (k & Hsplit & Hend).
  exists (drop_trailing_zeros frac), k. split; [exact Hsplit |]. split; [exact Hend |].
  assert (Hkept : has_dot (drop_trailing_zeros frac) = false).
  { apply all_digits_no_dot. rewrite Hsplit, all_digits_app in Hfrac.
    now apply andb_true_iff in Hfrac as [? _]. }
  rewrite strip_final_dot_app by discriminate.
  destruct (drop_trailing_zeros frac) as [| c r] eqn:Hd.
  - simpl. apply str_app_nil_r.
  - change (String.eqb (String c r) "") with false. cbv iota.
    change ("." ++ String c r) with (String "." (String c r)).
    f_equal.
    change (strip_final_dot (String "." (String c r)))
      with (String "." (strip_final_dot (String c r))).
    f_equal. now apply strip_final_dot_undotted.
Qed.

(** X3. [fmtSignedCny] prints a gain and a loss of the same size with the
    same digits, behind "+" and "−"; zero carries no sign. *)
Theorem fmtSignedCny_sign (q : Q) (decimals : nat) :
  (0 < q)%Q ->
  fmtSignedCny (JNum (Finite q)) decimals = "+" ++ fmtNum (JNum (Finite q)) decimals
  /\ fmtSignedCny (JNum (Finite (- q))) decimals
     = "−" ++ fmtNum (JNum (Finite q)) decimals
  /\ fmtSignedCny (JNum (Finite 0)) decimals = fmtNum (JNum (Finite 0)) decimals.
Proof.
  intros Hq.
  assert (Hle : Qle_bool q 0 = false).
  { destruct (Qle_bool q 0) eqn:Hb; [| reflexivity].
    apply Qle_bool_iff in Hb. exfalso. eapply Qlt_not_le; eauto. }
  assert (Hneg : Qle_bool 0 (- q) = false).
  { destruct (Qle_bool 0 (- q)) eqn:Hb; [| reflexivity].
    apply Qle_bool_iff in Hb. exfalso. apply (Qlt_not_le _ _ Hq).
    apply Qopp_le_compat in Hb. now rewrite Qopp_involutive in Hb. }
  assert (Hle' : Qle_bool (- q) 0 = true).
  { apply Qle_bool_iff. apply Qlt_le_weak in Hq.
    now apply Qopp_le_compat in Hq. }
  assert (Habs : Qabs q = q /\ Qabs (- q) = q).
  { destruct q as [n d]. unfold Qlt in Hq. simpl in Hq.
    unfold Qabs, Qopp. cbn [Qnum Qden].
    rewrite Z.abs_opp, Z.abs_eq by lia. now split. }
  destruct Habs as [Habs1 Habs2].
  unfold fmtSignedCny. cbn [Number isFinite negb num_abs num_ltb num_leb].
  rewrite Hle, Hneg, Hle', Habs1, Habs2. cbn [negb]. repeat split.
Qed.

End Formatting.

(** ** lib/api.ts *)

Section ApiErrors.
Import Api.
Context `{Host} `{Runtime}.

Lemma str_or_nonempty (a b : string) : b <> "" -> str_or a b <> "".
Proof.
  intros Hb. unfold str_or. destruct (String.eqb_spec a ""); congruence.
Qed.

(** X4. A response that is not [ok] makes [apiFetch] throw an [ApiError]
    with the response's status and the parsed body. Its message is empty
    only when the body is the JSON text of an empty string; a body that is
    not JSON is the message as it stands, and so is the non-empty [error]
    string of a JSON object. *)
Theorem apiFetch_error_message (res : Response) (text : string) :
  res_ok res = false ->
  res_text res = Some text ->
  exists message,
    apiFetch (FetchResolves res)
      = ApiErrorThrown (res_status res) message (parseJsonSafe text)
    /\ (message = "" -> json_parse text = Some (JStr ""))
    /\ (text <> "" -> json_parse text = None -> message = text)
    /\ (forall fields e,
          text <> "" ->
          json_parse text = Some (JObj fields) ->
          own_get "error" fields = Some (JStr e) -> e <> "" ->
          message = e).
Proof.
  intros Hok Htext. unfold apiFetch. rewrite Htext, Hok. cbn [negb].
  eexists. split; [reflexivity |].
  unfold parseJsonSafe.
  destruct (String.eqb_spec text "") as [-> | Hne].
  - split; [| split; congruence]. intros Hm. exfalso. revert Hm.
    cbn [error_message]. now apply str_or_nonempty.
  - destruct (json_parse text) as [v |] eqn:Hparse.
    + split; [| split; [discriminate |]].
      * intros Hm.
        destruct v; cbn [error_message] in Hm;
          try (exfalso; revert Hm; now apply str_or_nonempty).
        now subst.
      * intros fields e _ [= ->] He Hne_e.
        cbn [error_message error_of_body]. rewrite He. cbn [String_].
        unfold str_or. destruct (String.eqb_spec e ""); [congruence |].
        destruct (String.eqb_spec e ""); [congruence | reflexivity].
    + split; [| split; [reflexivity | discriminate]].
      cbn [error_message]. congruence.
Qed.

End ApiErrors.

(** ** AllocationPanel: the asset table, the apply button, the notices *)

Section PanelActions.
Import AllocationActions.
Context `{Host}.

Lemma fold_meta_lookup (l : list AssetView) (out : gmap string asset_meta)
    (aid : string) (meta : asset_meta) :
  fold_left (fun out a => <[av_id a := meta_of a]> out) l out !! aid = Some meta ->
  out !! aid = Some meta
  \/ exists a, In a l /\ av_id a = aid /\ meta_of a = meta.
Proof.
  revert out. induction l as [| x l IH]; intros out; simpl; [now left |].
  intros Hl. apply IH in Hl as [Hl | (a & Hin & Hid & Hm)].
  - apply lookup_insert_Some in Hl as [[Hid Hm] | [_ Hl]]; [right | now left].
    exists x. auto.
  - right. exists a. auto.
Qed.

Lemma fold_meta_keeps (l : list AssetView) (out : gmap string asset_meta)
    (aid : string) (meta : asset_meta) :
  List.Forall (fun b => av_id b <> aid) l ->
  out !! aid = Some meta ->
  fold_left (fun out a => <[av_id a := meta_of a]> out) l out !! aid = Some meta.
Proof.
  intros Hl. revert out. induction Hl as [| x l Hx Hl IH]; intros out Hout; simpl.
  - exact Hout.
  - apply IH. now rewrite lookup_insert_ne.
Qed.

(** X5. [buildAssetMetaById] lists the unassigned assets of the view and
    then those of its buckets, and a later asset replaces an earlier one
    with the same id: the entry under an id is the kind, source and name of
    the last asset that carries it. *)
Theorem buildAssetMetaById_last_wins (view : PortfolioView)
    (before after : list AssetView) (a : AssetView) :
  view_assets view = (before ++ a :: after)%list ->
  List.Forall (fun b => av_id b <> av_id a) after ->
  buildAssetMetaById (Some {| ui_view := Some view |}) !! av_id a = Some (meta_of a).
Proof.
  intros Hall Hafter. unfold buildAssetMetaById. cbn [mbind option_bind ui_view].
  rewrite Hall, fold_left_app. cbn [fold_left].
  apply fold_meta_keeps; [exact Hafter |]. apply lookup_insert_eq.
Qed.

Lemma own_set_In {A} (k k' : string) (v v' : A) (d : list (string * A)) :
  In (k', v') (own_set k v d) -> k' = k \/ In (k', v') d.
Proof.
  induction d as [| [k0 v0] d IH]; simpl.
  - intros [[= <- <-] | []]. now left.
  - destruct (String.eqb k k0).
    + intros [[= <- <-] | Hin]; [now left | right; now right].
    + intros [Heq | Hin]; [right; now left |].
      apply IH in Hin as [-> | Hin]; [now left | right; now right].
Qed.

Lemma prefill_keys_counted (metaById : gmap string asset_meta)
    (l : list AssetBuySuggestion) (acc : CryptoPrefill) (aid : string) (c : cell) :
  In (aid, c) (prefillAssets (fold_left (visit_asset metaById) l acc)) ->
  (exists c0, In (aid, c0) (prefillAssets acc))
  \/ exists a, In a l /\ eligible metaById a = true /\ entry_id a = aid.
Proof.
  revert acc c. induction l as [| x l IH]; intros acc c; simpl; [eauto |].
  intros Hin. apply IH in Hin as [[c0 Hin] | (a & Ha & He & Hid)].
  - rewrite visit_asset_spec in Hin.
    destruct (eligible metaById x) eqn:Hx; [| eauto].
    cbn [prefillAssets] in Hin. unfold plain_set_primitive in Hin.
    destruct (String.eqb (entry_id x) "__proto__"); [eauto |].
    apply own_set_In in Hin as [-> | Hin]; [| eauto].
    right. exists x. auto.
  - right. exists a. auto.
Qed.

(** X6. The amounts that phase 1 stores as expected are keyed by assets
    of the current view whose kind is "crypto"; while no view is loaded
    nothing is counted at all. *)
Theorem expected_keys_are_view_crypto (state : option UiState)
    (sug : option ContributionSuggestion) :
  (forall aid c,
      In (aid, c) (prefillAssets (collectCryptoPrefill sug (buildAssetMetaById state))) ->
      exists view a,
        state ≫= ui_view = Some view
        /\ In a (view_assets view) /\ av_id a = aid /\ av_kind a = "crypto")
  /\ (state ≫= ui_view = None ->
      collectCryptoPrefill sug (buildAssetMetaById state)
        = {| total := Finite 0; items := []; prefillAssets := [] |}).
Proof.
  split.
  - intros aid c Hin. rewrite collect_as_one_loop in Hin.
    apply prefill_keys_counted in Hin as [[c0 []] | (a & _ & He & Hid)].
    apply eligible_iff in He as (aid' & meta & q & Ha & _ & Hm & Hk & _).
    unfold entry_id in Hid. rewrite Ha in Hid. simpl in Hid. subst aid'.
    unfold buildAssetMetaById in Hm.
    destruct (state ≫= ui_view) as [view |]; [| now rewrite lookup_empty in Hm].
    apply fold_meta_lookup in Hm as [Hm | (x & Hx & Hid & Hmeta)].
    + now rewrite lookup_empty in Hm.
    + exists view, x. repeat split; auto.
      rewrite <- Hmeta in Hk. exact Hk.
  - intros Hnone. rewrite collect_as_one_loop.
    unfold buildAssetMetaById. rewrite Hnone.
    induction (suggested_entries sug) as [| a l IH] using rev_ind; [reflexivity |].
    rewrite fold_left_app, IH. cbn [fold_left]. rewrite visit_asset_spec.
    destruct (eligible ∅ a) eqn:He; [| reflexivity].
    apply eligible_iff in He as (aid & meta & q & _ & _ & Hm & _).
    now rewrite lookup_empty in Hm.
Qed.

Lemma collect_total (metaById : gmap string asset_meta)
    (sug : option ContributionSuggestion) :
  total (collectCryptoPrefill sug metaById)
  = num_sum (map entry_amount
               (List.filter (eligible metaById) (suggested_entries sug))).
Proof.
  rewrite collect_as_one_loop.
  induction (suggested_entries sug) as [| a l IH] using rev_ind; [reflexivity |].
  rewrite fold_left_app, filter_snoc. simpl fold_left. rewrite visit_asset_spec.
  destruct (eligible metaById a).
  - cbn [total]. rewrite IH, num_sum_map_snoc. reflexivity.
  - now rewrite app_nil_r.
Qed.

Lemma positive_ltb (q : Q) : (0 < q)%Q -> num_ltb (Finite 0) (Finite q) = true.
Proof.
  intros Hq. cbn [num_ltb num_leb].
  destruct (Qle_bool q 0) eqn:Hb; [| reflexivity].
  apply Qle_bool_iff in Hb. exfalso. eapply Qlt_not_le; eauto.
Qed.

Lemma counted_entry_total_positive (metaById : gmap string asset_meta)
    (sug : option ContributionSuggestion) (a : AssetBuySuggestion) :
  In a (suggested_entries sug) -> eligible metaById a = true ->
  num_ltb (Finite 0) (total (collectCryptoPrefill sug metaById)) = true.
Proof.
  intros Hin He. rewrite collect_total.
  assert (Ha : In a (List.filter (eligible metaById) (suggested_entries sug))).
  { now apply List.filter_In. }
  destruct (num_sum_positive metaById
              (List.filter (eligible metaById) (suggested_entries sug)))
    as (q & -> & _ & Hpos).
  { apply List.Forall_forall. intros x Hx. now apply List.filter_In in Hx. }
  apply positive_ltb, Hpos. intros Hnil. now rewrite Hnil in Ha.
Qed.

(** X7. The total that [collectCryptoPrefill] reports is positive exactly
    when the suggestion holds an entry that counts: the confirm prompt and
    the stored expectation, both guarded by [total > 0], appear with the
    first counted entry. *)
Theorem crypto_total_positive_iff (metaById : gmap string asset_meta)
    (sug : option ContributionSuggestion) :
  num_ltb (Finite 0) (total (collectCryptoPrefill sug metaById)) = true
  <-> exists a, In a (suggested_entries sug) /\ eligible metaById a = true.
Proof.
  split.
  - rewrite collect_total.
    destruct (List.filter (eligible metaById) (suggested_entries sug))
      as [| a l] eqn:Hf; [discriminate |].
    intros _. exists a. apply List.filter_In. rewrite Hf. now left.
  - intros (a & Hin & He). now apply counted_entry_total_positive with a.
Qed.

End PanelActions.

Section PanelFlow.
Import AllocationActions.
Context `{Host}.

Lemma not_positive_ltb (n : number) :
  num_leb n (Finite 0) = true -> num_ltb (Finite 0) n = false.
Proof. destruct n; simpl; intros Hn; rewrite ?Hn; reflexivity. Qed.

Lemma counted_entry_expected_nonempty (metaById : gmap string asset_meta)
    (sug : option ContributionSuggestion) (a : AssetBuySuggestion) :
  In a (suggested_entries sug) -> eligible metaById a = true ->
  inherited_key (entry_id a) = false ->
  (length (prefillAssets (collectCryptoPrefill sug metaById)) =? 0)%nat = false.
Proof.
  intros Hin He Hown.
  pose proof (prefillAssets_tally metaById (suggested_entries sug) (entry_id a) Hown)
    as Htally.
  rewrite <- collect_as_one_loop in Htally.
  assert (Hsome : is_Some (tally (entry_id a)
                     (List.filter (eligible metaById) (suggested_entries sug)))).
  { unfold tally.
    destruct (List.filter (has_id (entry_id a))
                (List.filter (eligible metaById) (suggested_entries sug)))
      as [| x l] eqn:Hf; [| eauto].
    exfalso. assert (Ha : In a []); [| exact Ha].
    rewrite <- Hf. apply List.filter_In. split.
    - now apply List.filter_In.
    - unfold has_id. apply String.eqb_refl. }
  rewrite <- Htally in Hsome. destruct Hsome as [c Hc].
  destruct (prefillAssets (collectCryptoPrefill sug metaById)); [discriminate | reflexivity].
Qed.

(** X8. The two-phase flow goes through: when the entered amount is
    valid, nothing was deducted before, the snapshot request succeeds and
    the suggestion holds a counted entry under an ordinary id, the confirm
    button issues its request. *)
Theorem confirm_after_suggest_issues_request (metaById : gmap string asset_meta)
    (s : PanelState) (sug : option ContributionSuggestion)
    (body : option snapshot_body) (settings : jsval) (a : AssetBuySuggestion) :
  rejected_amount (entered_amount s) = false ->
  num_leb (prefillSum s) (Finite 0) = true ->
  In a (suggested_entries sug) ->
  eligible metaById a = true ->
  inherited_key (entry_id a) = false ->
  exists s' url,
    phase1 metaById s sug (SnapshotOk body) = Some s'
    /\ confirmCrypto_mutationFn s' settings = Requests url.
Proof.
  intros Hamt Hsum Hin He Hown.
  unfold phase1, showSuggest. rewrite Hamt.
  eexists. eexists. split; [reflexivity |].
  unfold confirmCrypto_mutationFn, baseAmount, suggest_onSuccess.
  cbn [contributionTotal cryptoBaseline expectedCrypto].
  rewrite Hamt, Hsum.
  rewrite (counted_entry_total_positive metaById sug a Hin He).
  rewrite (counted_entry_expected_nonempty metaById sug a Hin He Hown).
  reflexivity.
Qed.

(** X9. After a successful suggestion the apply button never refuses:
    it posts the entered amount, together with the deduction the state
    already held, to /api/v2/allocation/apply. *)
Theorem apply_after_suggest_posts_amount (metaById : gmap string asset_meta)
    (s s' : PanelState) (sug : option ContributionSuggestion)
    (reply : snapshot_reply) :
  phase1 metaById s sug reply = Some s' ->
  apply_mutationFn s'
  = ApplyPosts "/api/v2/allocation/apply"
      (("contribution", JNum (entered_amount s)) ::
       match st_prefillAssets s with
       | Some d => if (0 <? length d)%nat then [("prefill_assets", JObj d)] else []
       | None => []
       end).
Proof.
  intros Hp. apply phase1_inv in Hp as (amt & _ & Hamt & Hok & ->).
  unfold apply_mutationFn, applyAmount, suggest_onSuccess.
  cbn [contributionRemaining st_prefillAssets]. now rewrite Hok, Hamt.
Qed.

(** X10. After a confirmation the apply button works on the remaining
    amount the server reported: a positive remainder is posted, with the
    deducted assets when there are any, and a remainder of zero or less is
    refused with the message for a missing amount. *)
Theorem apply_after_confirm (s : PanelState) (sg : ContributionSuggestion) (r : Q) :
  Number (contribution_remaining sg) = Finite r ->
  ((r <= 0)%Q ->
   apply_mutationFn (confirmCrypto_onSuccess s (Some sg)) = ApplyThrows "请输入新增资金")
  /\ ((0 < r)%Q ->
      apply_mutationFn (confirmCrypto_onSuccess s (Some sg))
      = ApplyPosts "/api/v2/allocation/apply"
          (("contribution", JNum (Finite r)) ::
           match prefill_assets sg with
           | Some (e :: d) => [("prefill_assets", JObj (e :: d))]
           | _ => []
           end)).
Proof.
  intros Hr. unfold apply_mutationFn, applyAmount, confirmCrypto_onSuccess.
  cbn [contributionRemaining st_prefillAssets]. rewrite Hr.
  cbn [isFinite rejected_amount negb orb num_leb]. split.
  - intros Hle. apply Qle_bool_iff in Hle. now rewrite Hle.
  - intros Hlt.
    assert (Hb : Qle_bool r 0 = false).
    { destruct (Qle_bool r 0) eqn:Hb; [| reflexivity].
      apply Qle_bool_iff in Hb. exfalso. eapply Qlt_not_le; eauto. }
    rewrite Hb. destruct (prefill_assets sg) as [[| e d] |]; reflexivity.
Qed.

(** X11. The confirm prompt announces a missing snapshot in its title
    exactly when the click is going to be refused for the missing
    baseline. *)
Theorem prompt_title_tells_missing_baseline (metaById : gmap string asset_meta)
    (s : PanelState) (settings : jsval) (total_text items_text title slip_text : string) :
  render_crypto_notice metaById s settings
    = ConfirmPrompt total_text items_text title slip_text ->
  rejected_amount (baseAmount s) = false ->
  (title = title_without_baseline
   <-> confirmCrypto_mutationFn s settings = Throws "missing baseline").
Proof.
  unfold render_crypto_notice, confirmCrypto_mutationFn.
  destruct (suggestion s); [| discriminate].
  destruct (num_ltb (Finite 0) (prefillSum s)); [discriminate |].
  destruct (num_ltb (Finite 0) (total (collectCryptoPrefill _ metaById)));
    [| discriminate].
  intros [= _ _ <- _] ->.
  destruct (cryptoBaseline s) as [baseline |].
  - split; [discriminate |].
    destruct (expectedCrypto s) as [expected |]; [| discriminate].
    destruct (length expected =? 0)%nat; discriminate.
  - split; reflexivity.
Qed.

(** X12. After a suggestion computed while nothing was deducted, the
    confirm prompt is on screen exactly when an expectation was stored for
    the confirmation to send. *)
Theorem prompt_shown_iff_expected_stored (metaById : gmap string asset_meta)
    (s s' : PanelState) (sg : ContributionSuggestion) (reply : snapshot_reply)
    (settings : jsval) :
  num_leb (prefillSum s) (Finite 0) = true ->
  phase1 metaById s (Some sg) reply = Some s' ->
  ((exists total_text items_text title slip_text,
       render_crypto_notice metaById s' settings
       = ConfirmPrompt total_text items_text title slip_text)
   <-> is_Some (expectedCrypto s')).
Proof.
  intros Hsum Hp. apply phase1_inv in Hp as (amt & _ & _ & _ & ->).
  unfold render_crypto_notice, suggest_onSuccess.
  cbn [suggestion expectedCrypto]. rewrite Hsum.
  change (prefillSum _) with (prefillSum s).
  rewrite (not_positive_ltb _ Hsum).
  destruct (num_ltb (Finite 0) (total (collectCryptoPrefill (Some sg) metaById))).
  - split; [eauto | intros _; eauto 6].
  - split; [intros (? & ? & ? & ? & [=]) | intros [? [=]]].
Qed.

End PanelFlow.

(** ** The assets page: grouping, drag and drop, pending edits *)

Section Board.
Import AssetsPage AssetsBoard.
Context `{Host}.

(** X13. When no category is called [__proto__] and every asset's trimmed
    category id either names a category or is no name that objects
    inherit, [byCategory] returns, and what it returns is a partition:
    the groups, keyed by the category ids, and [unassigned] together hold
    every asset exactly as often as the input does, each grouped asset
    under its trimmed category id. *)
Theorem byCategory_groups_every_asset (categories : list Category)
    (assets : list PortfolioAsset) :
  List.Forall (fun c => cat_id c <> "__proto__") categories ->
  List.Forall (fun a => inherited_key (category_key a) = false
                        \/ In (category_key a) (map cat_id categories)) assets ->
  exists g,
    byCategory categories assets = Returns g
    /\ grouped (map cat_id categories) assets g
    /\ length (concat (map snd (g_map g))) + length (unassigned g) = length assets.
Proof.
  intros Hcats Hassets.
  destruct (byCategory_returns categories assets Hcats Hassets) as [g Hg].
  exists g. split; [exact Hg |]. now apply byCategory_partition.
Qed.

(** X14. Dropping an asset on a bucket shows it there at once: when the
    drop leads to a move, the bucket is one of the categories and its id
    has no surrounding blanks, regrouping the optimistically updated
    assets lists every asset with the dragged id under that bucket. *)
Theorem dropped_asset_shows_in_bucket (categories : list Category)
    (assets : list PortfolioAsset) (ev : drag_end)
    (assetId c targetName : string) (g : grouping) :
  onDragEnd categories assets ev = DragMoves assetId (Some c) targetName ->
  In c (map cat_id categories) ->
  trim c = c ->
  byCategory categories (move_optimistic assetId (Some c) assets) = Returns g ->
  forall x, In x assets -> pa_id x = assetId ->
    exists l,
      In (c, l) (g_map g)
      /\ In {| pa_id := pa_id x; pa_kind := pa_kind x; pa_code := pa_code x;
               pa_name := pa_name x; pa_coingecko_id := pa_coingecko_id x;
               pa_category_id := Some c |} l.
Proof.
  intros Hdrag Hc Htrim Hg x Hx Hid.
  assert (Hne : c <> "").
  { unfold onDragEnd in Hdrag.
    destruct (over_id ev) as [o |], (active_id ev) as [a |]; try discriminate.
    destruct (String.eqb_spec o "") as [-> | Ho]; [discriminate |].
    destruct (String.eqb a ""); [discriminate |]. cbn [orb] in Hdrag.
    destruct (String.eqb o "unassigned");
      destruct (same_category _ _); try discriminate.
    injection Hdrag as _ <- _. exact Ho. }
  set (x' := {| pa_id := pa_id x; pa_kind := pa_kind x; pa_code := pa_code x;
                pa_name := pa_name x; pa_coingecko_id := pa_coingecko_id x;
                pa_category_id := Some c |}).
  assert (Hkey : category_key x' = c) by exact Htrim.
  assert (Hx' : In x' (move_optimistic assetId (Some c) assets)).
  { unfold move_optimistic. apply in_map_iff. exists x. split; [| exact Hx].
    rewrite <- Hid, String.eqb_refl. reflexivity. }
  apply byCategory_partition in Hg as [(_ & Hperm & Hgroups & Hun) _].
  apply (Permutation_in _ (Permutation_sym Hperm)) in Hx'.
  apply in_app_or in Hx' as [Hin | Hin].
  - apply in_concat in Hin as (l & Hl & Hin).
    apply in_map_iff in Hl as ([k l'] & Hkl & Hl). cbn [snd] in Hkl. subst l'.
    exists l. split; [| exact Hin].
    rewrite List.Forall_forall in Hgroups. specialize (Hgroups _ Hl).
    cbn [fst snd] in Hgroups. rewrite List.Forall_forall in Hgroups.
    specialize (Hgroups _ Hin). rewrite Hkey in Hgroups. now subst k.
  - exfalso. rewrite List.Forall_forall in Hun.
    destruct (Hun _ Hin) as [Hempty | Hout]; rewrite Hkey in *; auto.
Qed.

Lemma own_delete_set_fresh {A} (k : string) (v : A) (d : list (string * A)) :
  own_get k d = None -> own_delete k (own_set k v d) = d.
Proof.
  induction d as [| [k' v'] d IH]; simpl.
  - now rewrite String.eqb_refl.
  - destruct (String.eqb k k') eqn:Hk; [discriminate |].
    intros Hd. simpl. now rewrite Hk, IH.
Qed.

Lemma own_set_fresh_length {A} (k : string) (v : A) (d : list (string * A)) :
  length (own_set k v d)
  = match own_get k d with Some _ => length d | None => S (length d) end.
Proof.
  induction d as [| [k' v'] d IH]; simpl; [reflexivity |].
  destruct (String.eqb k k'); [reflexivity |].
  simpl. rewrite IH. now destruct (own_get k d).
Qed.

(** X15. The pending set counts assets, not edits: an edit to an asset
    that already has pending edits leaves the counter as it is, a first
    edit raises it by one, and discarding right after a first edit gives
    back the pending set as it was. *)
Theorem pending_edits_count_assets (assetId : string) (patch : dict)
    (prev : list (string * dict)) :
  dirtyCount (setField assetId patch prev)
  = match own_get assetId prev with
    | Some _ => dirtyCount prev
    | None => S (dirtyCount prev)
    end
  /\ (own_get assetId prev = None ->
      discard assetId (setField assetId patch prev) = prev)
  /\ (forall other, other <> assetId ->
        own_get other (setField assetId patch prev) = own_get other prev).
Proof.
  unfold dirtyCount, discard, setField. split; [apply own_set_fresh_length |].
  split.
  - intros Hnone. now apply own_delete_set_fresh.
  - intros other Hne. apply own_get_set_ne. congruence.
Qed.

Lemma own_set_nonempty {A} (k : string) (v : A) (d : list (string * A)) :
  own_set k v d <> [].
Proof. destruct d as [| [k' v'] d]; simpl; [| destruct (String.eqb k k')]; discriminate. Qed.

Lemma own_delete_Forall {A} (P : string * A -> Prop) (k : string)
    (d : list (string * A)) :
  List.Forall P d -> List.Forall P (own_delete k d).
Proof.
  induction 1 as [| [k' v'] d Hx Hd IH]; simpl; [constructor |].
  destruct (String.eqb k k'); [exact Hd | now constructor].
Qed.

Lemma edit_run_nonempty_patches (events : list edit_event) :
  List.Forall (fun kv => snd kv <> []) (edit_run events).
Proof.
  unfold edit_run.
  induction events as [| e events IH] using rev_ind; [constructor |].
  rewrite fold_left_app. cbn [fold_left].
  destruct e as [assetId field value | assetId |]; cbn [edit_step].
  - apply own_set_Forall; [| exact IH]. cbn [snd spread fold_left fst].
    apply own_set_nonempty.
  - now apply own_delete_Forall.
  - constructor.
Qed.

(** X16. Whatever fields were edited, discarded and saved, a row is
    flagged as changed exactly when the pending set holds an entry for its
    asset, so the counter of pending assets is the number of flagged
    rows; and saving sends nothing exactly when nothing is pending. *)
Theorem changed_iff_pending (events : list edit_event) (assetId : string) :
  (changed assetId (edit_run events) = true
   <-> is_Some (own_get assetId (edit_run events)))
  /\ (saveAll_mutationFn (edit_run events) = SaveNothing <-> edit_run events = []).
Proof.
  split.
  - unfold changed. pose proof (edit_run_nonempty_patches events) as Hall.
    destruct (own_get assetId (edit_run events)) as [p |] eqn:Hget; cbn [default].
    + apply own_get_In in Hget. rewrite List.Forall_forall in Hall.
      specialize (Hall _ Hget). cbn [snd] in Hall.
      destruct p; [congruence |]. split; [eauto | reflexivity].
    + split; [discriminate | intros [? [=]]].
  - unfold saveAll_mutationFn. rewrite length_map.
    destruct (edit_run events); simpl; split; congruence.
Qed.

(** X17. A bucket weight typed into the row comes back unchanged only
    when it is greater than 1; a figure up to 1 is taken for a fraction
    and shown as the double nearest to a hundred times it, which is not
    the figure typed unless that was zero. *)
Theorem bucket_weight_edit_shown (text : string) (q : Q) :
  text <> "" ->
  string_to_number text = Finite q ->
  bucket_weight_shown (bucket_weight_edited text)
  = (if Qle_bool q 1 then JNum (round_double (q * 100)) else JNum (Finite q))
  /\ (Qle_bool q 1 = true -> ~ (q == 0)%Q ->
      forall r, bucket_weight_shown (bucket_weight_edited text) = JNum (Finite r) ->
                ~ (r == q)%Q).
Proof.
  intros Hne Hq.
  assert (Hshown : bucket_weight_shown (bucket_weight_edited text)
                   = if Qle_bool q 1 then JNum (round_double (q * 100))
                     else JNum (Finite q)).
  { unfold bucket_weight_shown, bucket_weight_edited.
    destruct (String.eqb_spec text ""); [congruence |].
    cbn [Number]. rewrite Hq. cbn [num_ltb num_leb num_mul].
    now destruct (Qle_bool q 1). }
  split; [exact Hshown |].
  intros Hle Hq0 r Hr. rewrite Hshown, Hle in Hr. injection Hr as Hr.
  now apply (round_double_percent_differs q r).
Qed.

End Board.

(** ** The ledger page: the asset choices, the date default, the summary *)

Lemma own_set_keys {A} (k : string) (v : A) (d : list (string * A)) :
  map fst (own_set k v d)
  = match own_get k d with
    | Some _ => map fst d
    | None => (map fst d ++ [k])%list
    end.
Proof.
  induction d as [| [k' v'] d IH]; simpl; [reflexivity |].
  destruct (String.eqb_spec k k') as [-> | Hne]; [reflexivity |].
  simpl. rewrite IH. now destruct (own_get k d).
Qed.

Lemma own_get_None_keys {A} (k : string) (d : list (string * A)) :
  own_get k d = None <-> ~ In k (map fst d).
Proof.
  induction d as [| [k' v'] d IH]; simpl; [tauto |].
  destruct (String.eqb_spec k k') as [-> | Hne].
  - split; [discriminate | intros Hn; exfalso; apply Hn; now left].
  - rewrite IH. split; [intros Hn [Heq | Hin]; [congruence | tauto] | tauto].
Qed.

Lemma own_set_In_inv {A} (k k' : string) (v v' : A) (d : list (string * A)) :
  In (k', v') (own_set k v d) -> (k', v') = (k, v) \/ In (k', v') d.
Proof.
  induction d as [| [k0 v0] d IH]; simpl.
  - intros [[= <- <-] | []]. now left.
  - destruct (String.eqb k k0).
    + intros [[= <- <-] | Hin]; [now left | right; now right].
    + intros [Heq | Hin]; [right; now left |].
      apply IH in Hin as [Heq | Hin]; [now left | right; now right].
Qed.

Lemma NoDup_snoc {A} (l : list A) (x : A) :
  List.NoDup l -> ~ In x l -> List.NoDup (l ++ [x]).
Proof.
  intros Hl Hx. apply (Permutation_NoDup (Permutation_cons_append l x)).
  now constructor.
Qed.

Section LedgerChoices.
Import LedgerForm.
Context `{Host}.

Lemma insert_by_name_Permutation (x : asset_option) (l : list asset_option) :
  Permutation (insert_by_name x l) (x :: l).
Proof.
  induction l as [| y l IH]; simpl; [reflexivity |].
  destruct (name_leb x y); [reflexivity |].
  rewrite IH. apply perm_swap.
Qed.

Lemma sort_by_name_Permutation (l : list asset_option) :
  Permutation (sort_by_name l) l.
Proof.
  induction l as [| x l IH]; simpl; [reflexivity |].
  rewrite insert_by_name_Permutation. now constructor.
Qed.

Lemma names_by_id_fold (assets : list PortfolioAsset) (acc : list (string * string)) :
  let m := fold_left (fun m a => own_set (pa_id a) (option_name a) m) assets acc in
  (List.NoDup (map fst acc) -> List.NoDup (map fst m))
  /\ (forall k, In k (map fst m) <-> In k (map fst acc) \/ In k (map pa_id assets))
  /\ (forall k n, In (k, n) m ->
        In (k, n) acc \/ exists a, In a assets /\ pa_id a = k /\ option_name a = n).
Proof.
  revert acc. induction assets as [| a assets IH]; intros acc; cbn zeta; simpl.
  - repeat split; auto. intros [? | []]; auto.
  - specialize (IH (own_set (pa_id a) (option_name a) acc)).
    cbn zeta in IH. destruct IH as (Hnd & Hkeys & Hvals).
    assert (Hk : forall k, In k (map fst (own_set (pa_id a) (option_name a) acc))
                           <-> In k (map fst acc) \/ k = pa_id a).
    { intros k. rewrite own_set_keys.
      destruct (own_get (pa_id a) acc) as [v |] eqn:Hget.
      - split; [auto | intros [Hin | ->]; [exact Hin |]].
        apply own_get_In in Hget. apply in_map_iff. now exists (pa_id a, v).
      - rewrite in_app_iff. simpl. split.
        + intros [Hin | [<- | []]]; auto.
        + intros [Hin | ->]; auto. }
    split; [| split].
    + intros Hacc. apply Hnd. rewrite own_set_keys.
      destruct (own_get (pa_id a) acc) eqn:Hget; [exact Hacc |].
      apply own_get_None_keys in Hget. now apply NoDup_snoc.
    + intros k. rewrite Hkeys, Hk. split.
      * intros [[Hin | ->] | Hin]; auto.
      * intros [Hin | [<- | Hin]]; auto.
    + intros k n Hin. apply Hvals in Hin as [Hin | (x & Hx & Hid & Hn)].
      * apply own_set_In_inv in Hin as [[= -> ->] | Hin]; [| now left].
        right. exists a. auto.
      * right. exists x. auto.
Qed.

(** X18. The asset choices of the ledger form hold every asset id of the
    portfolio exactly once, each under the trimmed name, code, CoinGecko
    id or id of an asset that carries it. *)
Theorem assetOptions_one_per_id (assets : list PortfolioAsset) :
  List.NoDup (map opt_id (assetOptions (Some assets)))
  /\ (forall id, In id (map opt_id (assetOptions (Some assets)))
                 <-> In id (map pa_id assets))
  /\ (forall o, In o (assetOptions (Some assets)) ->
        exists a, In a assets /\ pa_id a = opt_id o /\ opt_name o = option_name a).
Proof.
  unfold assetOptions, names_by_id.
  destruct (names_by_id_fold assets []) as (Hnd & Hkeys & Hvals). cbn zeta in *.
  set (m := fold_left (fun m a => own_set (pa_id a) (option_name a) m) assets []) in *.
  assert (Hids : Permutation
                   (map opt_id
                      (sort_by_name
                         (map (fun kv => {| opt_id := fst kv; opt_name := snd kv |}) m)))
                   (map fst m)).
  { rewrite sort_by_name_Permutation, map_map. cbn [opt_id].
    now rewrite (map_ext _ fst) by reflexivity. }
  split; [| split].
  - apply (Permutation_NoDup (Permutation_sym Hids)). apply Hnd. constructor.
  - intros id. split.
    + intros Hin. apply (Permutation_in _ Hids) in Hin.
      apply Hkeys in Hin as [[] | Hin]. exact Hin.
    + intros Hin. apply (Permutation_in _ (Permutation_sym Hids)).
      apply Hkeys. now right.
  - intros o Ho. apply (Permutation_in _ (sort_by_name_Permutation _)) in Ho.
    apply in_map_iff in Ho as ([k n] & <- & Hin). cbn [opt_id opt_name fst snd].
    apply Hvals in Hin as [[] | (a & Ha & Hid & Hn)]. exists a. auto.
Qed.

Lemma digits_of_year (y : Z) :
  (1000 <= y <= 9999)%Z ->
  exists a b c d,
    pretty y = String a (String b (String c (String d EmptyString)))
    /\ forallb Format.is_digit [a; b; c; d] = true.
Proof.
  intros Hy.
  assert (Hall : forallb
            (fun k => match pretty (Z.of_nat k) with
                      | String a (String b (String c (String d EmptyString))) =>
                          forallb Format.is_digit [a; b; c; d]
                      | _ => false
                      end) (seq 1000 (Z.to_nat 9000)) = true) by (vm_compute; reflexivity).
  rewrite forallb_forall in Hall. specialize (Hall (Z.to_nat y)).
  rewrite Z2Nat.id in Hall by lia.
  assert (Hin : In (Z.to_nat y) (seq 1000 (Z.to_nat 9000))) by (apply in_seq; lia).
  specialize (Hall Hin).
  destruct (pretty y) as [| a [| b [| c [| d [| ? ?]]]]]; try discriminate.
  now exists a, b, c, d.
Qed.

Lemma digits_of_pad2 (n : nat) :
  (n < 100)%nat ->
  exists a b,
    pad2 n = String a (String b EmptyString)
    /\ forallb Format.is_digit [a; b] = true.
Proof.
  intros Hn.
  assert (Hall : forallb
            (fun k => match pad2 k with
                      | String a (String b EmptyString) =>
                          forallb Format.is_digit [a; b]
                      | _ => false
                      end) (seq 0 100) = true) by (vm_compute; reflexivity).
  rewrite forallb_forall in Hall.
  assert (Hin : In n (seq 0 100)) by (apply in_seq; lia).
  specialize (Hall n Hin).
  destruct (pad2 n) as [| a [| b [| ? ?]]]; try discriminate.
  now exists a, b.
Qed.

(** X19. For a date whose year has four digits, [fmtDateInput] yields the
    ten characters [yyyy-mm-dd] that a date input accepts, month and day
    padded to two digits. *)
Theorem fmtDateInput_shape (d : LocalDate) :
  (1000 <= getFullYear d <= 9999)%Z ->
  (getMonth d < 12)%nat ->
  (getDate d <= 31)%nat ->
  date_shaped (fmtDateInput d) = true.
Proof.
  intros Hy Hm Hd. unfold fmtDateInput.
  destruct (digits_of_year _ Hy) as (y1 & y2 & y3 & y4 & -> & Hyd).
  destruct (digits_of_pad2 (getMonth d + 1)) as (m1 & m2 & -> & Hmd); [lia |].
  destruct (digits_of_pad2 (getDate d)) as (d1 & d2 & -> & Hdd); [lia |].
  cbv [String.append date_shaped].
  cbn [forallb] in *.
  repeat match goal with
         | Hb : _ && _ = true |- _ => apply andb_true_iff in Hb as [? ?]
         end.
  repeat match goal with
         | Hb : Format.is_digit _ = true |- _ => rewrite Hb; clear Hb
         end.
  reflexivity.
Qed.

(** X20. When the ledger metrics carry an annualised return, the summary
    card always shows it, as a percentage in brackets behind the signed
    profit: the profit is never replaced by the placeholder then, whatever
    the other figures are. *)
Theorem present_xirr_is_shown (data : LedgerMetricsPayload) (t : MetricsTotal) :
  lm_total data = Some t ->
  is_nullish (mt_xirr_annual t) = false ->
  let card := LedgerPage.render_total_card (Some data) in
  LedgerPage.tc_xirr card
    = Some ("(" ++ Format.fmtPct
                     (JNum (num_mul (Number (mt_xirr_annual t)) (Finite 100))) 2 ++ ")")
  /\ LedgerPage.tc_profit card
     = Format.fmtSignedCny
         (if is_nullish (mt_profit t) then JNull else JNum (Number (mt_profit t))) 2.
Proof.
  intros Ht Hx. unfold LedgerPage.render_total_card.
  cbn [mbind option_bind]. rewrite Ht.
  unfold LedgerPage.showProfit, LedgerPage.xirr_percent. rewrite Hx.
  cbn [orb]. split; reflexivity.
Qed.

End LedgerChoices.

(** ** The overview page and its history chart *)

Section Chart.

Lemma Qle_bool_false (a b : Q) : Qle_bool a b = false <-> (b < a)%Q.
Proof.
  split.
  - intros Hb. apply Qnot_le_lt. intros Hle. apply Qle_bool_iff in Hle. congruence.
  - intros Hlt. destruct (Qle_bool a b) eqn:Hb; [| reflexivity].
    apply Qle_bool_iff in Hb. exfalso. eapply Qlt_not_le; eauto.
Qed.

(** X21. The history chart is drawn in the "stamp" tone exactly when the
    change figure is set in the danger colour, for every change the
    payload can carry; the one value on which the two differ is negative
    infinity, which counts as not finite for the tone and as negative for
    the colour. *)
Theorem stamp_tone_iff_danger :
  (forall changeValue,
      changeValue <> Some NegInf ->
      (OverviewPage.tone changeValue = "stamp"
       <-> In "text-danger" (OverviewPage.change_classes changeValue)))
  /\ OverviewPage.tone (Some NegInf) = "accent"
  /\ In "text-danger" (OverviewPage.change_classes (Some NegInf)).
Proof.
  split; [| split; [reflexivity | simpl; auto]].
  intros [[q | | |] |] Hne; try congruence;
    unfold OverviewPage.tone, OverviewPage.pickTone, OverviewPage.change_classes;
    cbn [default isFinite negb num_leb num_ltb];
    try (split; [discriminate | simpl; intuition discriminate]).
  simpl. destruct (Qle_bool 0 q), (Qle_bool q 0); simpl; split;
    solve [ discriminate | reflexivity | auto | intuition discriminate ].
Qed.

Lemma clamp_finite (q a b : Q) :
  (a <= b)%Q ->
  exists r,
    Sparkline.clamp (Finite q) (Finite a) (Finite b) = Finite r
    /\ (a <= r)%Q /\ (r <= b)%Q
    /\ ((a <= q)%Q -> (q <= b)%Q -> r == q)%Q.
Proof.
  intros Hab. unfold Sparkline.clamp. cbn [num_min num_leb].
  destruct (Qle_bool b q) eqn:Hbq; cbn [num_max num_leb].
  - apply Qle_bool_iff in Hbq.
    assert (Hb : Qle_bool a b = true) by now apply Qle_bool_iff.
    rewrite Hb. exists b. repeat split; auto using Qle_refl.
    intros _ Hqb. now apply Qle_antisym.
  - apply Qle_bool_false in Hbq.
    destruct (Qle_bool a q) eqn:Haq.
    + apply Qle_bool_iff in Haq. exists q.
      repeat split; auto using Qlt_le_weak; intros _ _; reflexivity.
    + apply Qle_bool_false in Haq. exists a.
      repeat split; auto using Qle_refl.
      intros Hle _. exfalso. eapply Qlt_not_le; eauto.
Qed.

Lemma fold_min_finite (l : list Q) (a : Q) :
  exists m,
    fold_left num_min (map Finite l) (Finite a) = Finite m
    /\ (m <= a)%Q /\ List.Forall (fun q => (m <= q)%Q) l
    /\ (m = a \/ In m l).
Proof.
  revert a. induction l as [| q l IH]; intros a; simpl.
  - exists a. repeat split; auto using Qle_refl.
  - destruct (Qle_bool a q) eqn:Haq.
    + apply Qle_bool_iff in Haq.
      destruct (IH a) as (m & -> & Hma & Hall & Hin).
      exists m. repeat split; auto.
      * constructor; [eapply Qle_trans; eauto | exact Hall].
      * destruct Hin; auto.
    + apply Qle_bool_false in Haq.
      destruct (IH q) as (m & -> & Hmq & Hall & Hin).
      exists m. repeat split; auto.
      * apply Qlt_le_weak in Haq. eapply Qle_trans; eauto.
      * destruct Hin as [-> | Hin]; auto.
Qed.

Lemma fold_max_finite (l : list Q) (a : Q) :
  exists m,
    fold_left num_max (map Finite l) (Finite a) = Finite m
    /\ (a <= m)%Q /\ List.Forall (fun q => (q <= m)%Q) l
    /\ (m = a \/ In m l).
Proof.
  revert a. induction l as [| q l IH]; intros a; simpl.
  - exists a. repeat split; auto using Qle_refl.
  - destruct (Qle_bool a q) eqn:Haq.
    + apply Qle_bool_iff in Haq.
      destruct (IH q) as (m & -> & Hqm & Hall & Hin).
      exists m. repeat split; auto.
      * eapply Qle_trans; eauto.
      * destruct Hin as [-> | Hin]; auto.
    + apply Qle_bool_false in Haq.
      destruct (IH a) as (m & -> & Ham & Hall & Hin).
      exists m. repeat split; auto.
      * constructor; [| exact Hall].
        apply Qlt_le_weak in Haq. eapply Qle_trans; eauto.
      * destruct Hin; auto.
Qed.

Lemma min_of_finite (q : Q) (l : list Q) :
  exists m,
    Sparkline.min_of (map Finite (q :: l)) = Finite m
    /\ List.Forall (fun r => (m <= r)%Q) (q :: l) /\ In m (q :: l).
Proof.
  unfold Sparkline.min_of. simpl.
  destruct (fold_min_finite l q) as (m & -> & Hm & Hall & Hin).
  exists m. repeat split; auto. destruct Hin as [-> | Hin]; simpl; auto.
Qed.

Lemma max_of_finite (q : Q) (l : list Q) :
  exists m,
    Sparkline.max_of (map Finite (q :: l)) = Finite m
    /\ List.Forall (fun r => (r <= m)%Q) (q :: l) /\ In m (q :: l).
Proof.
  unfold Sparkline.max_of. simpl.
  destruct (fold_max_finite l q) as (m & -> & Hm & Hall & Hin).
  exists m. repeat split; auto. destruct Hin as [-> | Hin]; simpl; auto.
Qed.

Lemma round_double_not_nan (q : Q) : round_double q <> NaN.
Proof.
  unfold round_double.
  destruct (Qnum (Qred q)); [discriminate | |];
    destruct (round_positive _); discriminate.
Qed.

Lemma round_double_nonneg (q : Q) :
  (0 <= q)%Q -> round_double q = PosInf \/ exists r, round_double q = Finite r.
Proof.
  intros Hq. unfold round_double.
  pose proof (Qnum_sign (Qred q)) as Hs. pose proof (Qred_correct q) as Hred.
  destruct (Qnum (Qred q)).
  - right. now exists 0%Q.
  - destruct (round_positive _) as [r |]; [right; now exists r | now left].
  - exfalso. rewrite Hred in Hs. eapply Qlt_not_le; eauto.
Qed.

Lemma rounded_not_nan (n : number) : n <> NaN -> rounded n <> NaN.
Proof. destruct n; cbn [rounded]; auto using round_double_not_nan. Qed.

(** A coordinate that is a number, infinite or not, is clamped into the
    box. *)
Lemma clamp_not_nan (n : number) (a b : Q) :
  n <> NaN -> (a <= b)%Q ->
  exists r, Sparkline.clamp n (Finite a) (Finite b) = Finite r
            /\ (a <= r)%Q /\ (r <= b)%Q.
Proof.
  intros Hn Hab.
  assert (Hb : Qle_bool a b = true) by now apply Qle_bool_iff.
  destruct n as [q | | |]; [| | | congruence].
  - destruct (clamp_finite q a b Hab) as (r & Hr & H1 & H2 & _). now exists r.
  - exists b. unfold Sparkline.clamp. cbn [num_min num_max num_leb]. rewrite Hb.
    repeat split; auto using Qle_refl.
  - exists a. unfold Sparkline.clamp. cbn [num_min num_max num_leb].
    repeat split; auto using Qle_refl.
Qed.

Lemma clamp_nan (a b : number) : Sparkline.clamp NaN a b = NaN.
Proof. unfold Sparkline.clamp. destruct a, b; reflexivity. Qed.

Lemma or_one_nonzero (n : number) (s : Q) :
  Sparkline.or_one n = Finite s -> Qeq_bool s 0 = false.
Proof.
  unfold Sparkline.or_one. destruct n as [d | | |]; cbn [num_truthy]; try discriminate.
  - destruct (Qeq_bool d 0) eqn:Hd; cbn [negb]; intros [= <-]; [reflexivity | exact Hd].
  - intros [= <-]. reflexivity.
Qed.

Lemma finite_point_coordinates (l : list (Q * Q)) :
  map Sparkline.t (map Sparkline.finite_point l) = map Finite (map fst l)
  /\ map Sparkline.v (map Sparkline.finite_point l) = map Finite (map snd l).
Proof. rewrite !map_map. split; reflexivity. Qed.

(** What the frame of a non-empty finite history is: the least time and
    value as [minX] and [minY], and as spans the rounded distances to the
    greatest ones, or 1 where a distance is zero. *)
Lemma frame_of_finite (p0 : Q * Q) (rest : list (Q * Q)) :
  exists mx Mx my My,
    Sparkline.frame_of (map Sparkline.finite_point (p0 :: rest))
    = {| Sparkline.minX := Finite mx;
         Sparkline.spanX := Sparkline.or_one (round_double (Mx + - mx));
         Sparkline.minY := Finite my;
         Sparkline.spanY := Sparkline.or_one (round_double (My + - my)) |}
    /\ List.Forall (fun r => (my <= r)%Q) (map snd (p0 :: rest))
    /\ In my (map snd (p0 :: rest))
    /\ List.Forall (fun r => (r <= My)%Q) (map snd (p0 :: rest))
    /\ In My (map snd (p0 :: rest)).
Proof.
  unfold Sparkline.frame_of. cbv zeta.
  destruct (finite_point_coordinates (p0 :: rest)) as [Hxs Hys].
  rewrite Hxs, Hys.
  change (map fst (p0 :: rest)) with (fst p0 :: map fst rest).
  change (map snd (p0 :: rest)) with (snd p0 :: map snd rest).
  destruct (min_of_finite (fst p0) (map fst rest)) as (mx & -> & _ & _).
  destruct (max_of_finite (fst p0) (map fst rest)) as (Mx & -> & _ & _).
  destruct (min_of_finite (snd p0) (map snd rest)) as (my & -> & Hmy & Hmy').
  destruct (max_of_finite (snd p0) (map snd rest)) as (My & -> & HMy & HMy').
  exists mx, Mx, my, My. repeat split; auto.
Qed.

(** The two coordinates as the closure computes them, before clamping. *)
Lemma place_coordinates (f : Sparkline.frame) (p : Sparkline.point) :
  Sparkline.x (Sparkline.place f p)
  = Sparkline.clamp
      (Sparkline.num_plus (Finite 8)
         (num_mul
            (Sparkline.num_div (Sparkline.num_sub (Sparkline.t p) (Sparkline.minX f))
               (Sparkline.spanX f))
            (Finite 544)))
      (Finite 8) (Finite 552)
  /\ Sparkline.y (Sparkline.place f p)
     = Sparkline.clamp
         (Sparkline.num_plus (Finite 8)
            (num_mul
               (Sparkline.num_sub (Finite 1)
                  (Sparkline.num_div
                     (Sparkline.num_sub (Sparkline.v p) (Sparkline.minY f))
                     (Sparkline.spanY f)))
               (Finite 104)))
         (Finite 8) (Finite 112).
Proof.
  unfold Sparkline.place. cbn [Sparkline.x Sparkline.y].
  assert (H544 : Sparkline.num_sub Sparkline.w (num_mul Sparkline.pad (Finite 2))
                 = Finite 544) by (vm_compute; reflexivity).
  assert (H104 : Sparkline.num_sub Sparkline.h (num_mul Sparkline.pad (Finite 2))
                 = Finite 104) by (vm_compute; reflexivity).
  assert (H552 : Sparkline.num_sub Sparkline.w Sparkline.pad = Finite 552)
    by (vm_compute; reflexivity).
  assert (H112 : Sparkline.num_sub Sparkline.h Sparkline.pad = Finite 112)
    by (vm_compute; reflexivity).
  rewrite H544, H104, H552, H112. split; reflexivity.
Qed.

Lemma num_sub_not_nan (a : Q) (n : number) :
  n <> NaN ->
  Sparkline.num_sub (Finite a) n <> NaN /\ Sparkline.num_sub n (Finite a) <> NaN.
Proof.
  intros Hn. unfold Sparkline.num_sub.
  split; apply rounded_not_nan; destruct n; cbn; congruence.
Qed.

Lemma num_plus_not_nan (a : Q) (n : number) :
  n <> NaN -> Sparkline.num_plus (Finite a) n <> NaN.
Proof.
  intros Hn. unfold Sparkline.num_plus.
  apply rounded_not_nan; destruct n; cbn; congruence.
Qed.

Lemma num_div_not_nan (n : number) (s : Q) :
  n <> NaN -> Qeq_bool s 0 = false -> Sparkline.num_div n (Finite s) <> NaN.
Proof.
  intros Hn Hs. unfold Sparkline.num_div. apply rounded_not_nan.
  destruct n as [q | | |]; cbn [Sparkline.quotient num_neg]; [| | | congruence].
  - rewrite Hs. discriminate.
  - destruct (s ?= 0)%Q; discriminate.
  - destruct (s ?= 0)%Q; discriminate.
Qed.

Lemma num_mul_not_nan (n : number) (c : Q) :
  n <> NaN -> (0 < c)%Q -> num_mul n (Finite c) <> NaN.
Proof.
  intros Hn Hc.
  assert (Hcmp : (c ?= 0)%Q = Gt) by now apply Qgt_alt.
  destruct n as [q | | |]; [| | | congruence].
  - apply round_double_not_nan.
  - unfold num_mul, inf_scale. rewrite Hcmp. discriminate.
  - unfold num_mul, inf_scale. rewrite Hcmp. discriminate.
Qed.

(** X22. Every coordinate the chart draws is not a number or lies inside
    the padded view box, x between 8 and 552 and y between 8 and 112,
    whatever the history holds. For a history of finite numbers whose
    rounded spans are finite, no coordinate fails to be a number: every
    point is drawn inside the box. *)
Theorem plot_within_box (points : list Sparkline.point) :
  List.Forall
    (fun p =>
       (Sparkline.x p = NaN
        \/ exists qx, Sparkline.x p = Finite qx /\ (8 <= qx)%Q /\ (qx <= 552)%Q)
       /\ (Sparkline.y p = NaN
           \/ exists qy, Sparkline.y p = Finite qy /\ (8 <= qy)%Q /\ (qy <= 112)%Q))
    (Sparkline.plot points)
  /\ (forall pts : list (Q * Q),
        points = map Sparkline.finite_point pts ->
        isFinite (Sparkline.spanX (Sparkline.frame_of points)) = true ->
        isFinite (Sparkline.spanY (Sparkline.frame_of points)) = true ->
        List.Forall
          (fun p => exists qx qy,
               Sparkline.x p = Finite qx /\ Sparkline.y p = Finite qy
               /\ (8 <= qx)%Q /\ (qx <= 552)%Q /\ (8 <= qy)%Q /\ (qy <= 112)%Q)
          (Sparkline.plot points)).
Proof.
  assert (Hbox : forall n a b, (a <= b)%Q ->
            Sparkline.clamp n (Finite a) (Finite b) = NaN
            \/ exists r, Sparkline.clamp n (Finite a) (Finite b) = Finite r
                         /\ (a <= r)%Q /\ (r <= b)%Q).
  { intros n a b Hab. destruct n as [q | | |].
    - right. apply clamp_not_nan; [discriminate | exact Hab].
    - right. apply clamp_not_nan; [discriminate | exact Hab].
    - right. apply clamp_not_nan; [discriminate | exact Hab].
    - left. apply clamp_nan. }
  split.
  - apply List.Forall_forall. intros p Hp. unfold Sparkline.plot in Hp.
    apply in_map_iff in Hp as (pt & <- & _).
    destruct (place_coordinates (Sparkline.frame_of points) pt) as [-> ->].
    split; apply Hbox; discriminate.
  - intros pts -> HfinX HfinY.
    apply List.Forall_forall. intros p Hp. unfold Sparkline.plot in Hp.
    apply in_map_iff in Hp as (pt & <- & Hpt).
    apply in_map_iff in Hpt as ([tq vq] & <- & Hin).
    destruct pts as [| p0 rest]; [contradiction |].
    destruct (frame_of_finite p0 rest) as (mx & Mx & my & My & Hf & _).
    rewrite Hf in HfinX, HfinY |- *. cbn [Sparkline.spanX Sparkline.spanY] in HfinX, HfinY.
    destruct (Sparkline.or_one (round_double (Mx + - mx))) as [sx | | |] eqn:Hsx;
      try discriminate HfinX.
    destruct (Sparkline.or_one (round_double (My + - my))) as [sy | | |] eqn:Hsy;
      try discriminate HfinY.
    apply or_one_nonzero in Hsx, Hsy.
    match goal with
    | |- context [Sparkline.place ?f ?pt] =>
        destruct (place_coordinates f pt) as [Hx Hy]
    end.
    cbn [Sparkline.t Sparkline.v Sparkline.finite_point Sparkline.minX Sparkline.spanX
         Sparkline.minY Sparkline.spanY fst snd] in Hx, Hy.
    assert (Hdx : Sparkline.num_sub (Finite tq) (Finite mx) <> NaN)
      by (apply num_sub_not_nan; discriminate).
    assert (Hdy : Sparkline.num_sub (Finite vq) (Finite my) <> NaN)
      by (apply num_sub_not_nan; discriminate).
    destruct (clamp_not_nan
                (Sparkline.num_plus (Finite 8)
                   (num_mul
                      (Sparkline.num_div (Sparkline.num_sub (Finite tq) (Finite mx))
                         (Finite sx)) (Finite 544))) 8 552)
      as (qx & Hqx & Hx1 & Hx2); [| discriminate |].
    { apply num_plus_not_nan, num_mul_not_nan; [| reflexivity].
      now apply num_div_not_nan. }
    destruct (clamp_not_nan
                (Sparkline.num_plus (Finite 8)
                   (num_mul
                      (Sparkline.num_sub (Finite 1)
                         (Sparkline.num_div (Sparkline.num_sub (Finite vq) (Finite my))
                            (Finite sy))) (Finite 104))) 8 112)
      as (qy & Hqy & Hy1 & Hy2); [| discriminate |].
    { apply num_plus_not_nan, num_mul_not_nan; [| reflexivity].
      apply num_sub_not_nan. now apply num_div_not_nan. }
    exists qx, qy. rewrite Hx, Hy, Hqx, Hqy. repeat split; auto.
Qed.

(** The y coordinate of a point whose value is the least of the frame. *)
Lemma ratio_of_least (lo my : Q) (span : number) :
  (lo == my)%Q ->
  Sparkline.num_div (Sparkline.num_sub (Finite lo) (Finite my))
    (Sparkline.or_one span)
  = Finite 0.
Proof.
  intros Heq.
  assert (Hd : Sparkline.num_sub (Finite lo) (Finite my) = Finite 0).
  { unfold Sparkline.num_sub. cbn [num_neg num_add rounded].
    apply round_double_zero. rewrite Heq. ring. }
  rewrite Hd. unfold Sparkline.num_div.
  destruct (Sparkline.or_one span) as [s | | |] eqn:Hs.
  - apply or_one_nonzero in Hs. cbn [Sparkline.quotient]. rewrite Hs.
    cbn [rounded]. apply round_double_zero.
    unfold Qdiv. apply Qmult_0_l.
  - reflexivity.
  - reflexivity.
  - unfold Sparkline.or_one in Hs.
    destruct (num_truthy span) eqn:Ht; [| discriminate].
    rewrite Hs in Ht. discriminate.
Qed.

(** X23. In the chart of a finite history a point with the least value
    lies on the bottom line, at y = 112, whatever the other values are.
    Where a point with the greatest value lies depends on the rounded
    distance between the greatest and the least value: on the top line,
    at y = 8, when the distance is finite and not zero; on the bottom
    line when it is zero; and when it is infinite, as for values as far
    apart as -1e308 and 1e308, the y coordinate is not a number. *)
Theorem extremes_on_the_frame (pts : list (Q * Q)) (tl lo th hi : Q) :
  In (tl, lo) pts -> In (th, hi) pts ->
  (forall p, In p pts -> (lo <= snd p)%Q /\ (snd p <= hi)%Q) ->
  let f := Sparkline.frame_of (map Sparkline.finite_point pts) in
  Sparkline.y (Sparkline.place f (Sparkline.finite_point (tl, lo))) = Finite 112
  /\ match Sparkline.num_sub (Finite hi) (Finite lo) with
     | Finite d =>
         Sparkline.y (Sparkline.place f (Sparkline.finite_point (th, hi)))
         = Finite (if Qeq_bool d 0 then 112 else 8)
     | PosInf =>
         Sparkline.y (Sparkline.place f (Sparkline.finite_point (th, hi))) = NaN
     | _ => False
     end.
Proof.
  intros Hlo Hhi Hall f. subst f.
  destruct pts as [| p0 rest]; [contradiction |].
  destruct (frame_of_finite p0 rest)
    as (mx & Mx & my & My & -> & Hmin & Hmin' & Hmax & Hmax').
  rewrite List.Forall_forall in Hmin, Hmax.
  assert (Hlm : (lo == my)%Q).
  { apply Qle_antisym.
    - apply in_map_iff in Hmin' as (p & <- & Hp). now apply Hall.
    - apply Hmin. apply in_map_iff. now exists (tl, lo). }
  assert (HhM : (hi == My)%Q).
  { apply Qle_antisym.
    - apply Hmax. apply in_map_iff. now exists (th, hi).
    - apply in_map_iff in Hmax' as (p & <- & Hp). now apply Hall. }
  assert (Hspan : round_double (My + - my) = round_double (hi + - lo)).
  { apply round_double_compat. now rewrite Hlm, HhM. }
  assert (Hdist : Sparkline.num_sub (Finite hi) (Finite my) = round_double (hi + - lo)).
  { unfold Sparkline.num_sub. cbn [num_neg num_add rounded].
    apply round_double_compat. now rewrite Hlm. }
  rewrite Hspan. split.
  - match goal with
    | |- context [Sparkline.place ?f ?pt] =>
        destruct (place_coordinates f pt) as [_ ->]
    end.
    cbn [Sparkline.v Sparkline.finite_point Sparkline.minY Sparkline.spanY snd].
    rewrite (ratio_of_least lo my _ Hlm). vm_compute. reflexivity.
  - assert (Hge : (0 <= hi + - lo)%Q).
    { destruct (Hall _ Hlo) as [_ Hle]. cbn [snd] in Hle. lra. }
    unfold Sparkline.num_sub at 1. cbn [num_neg num_add rounded].
    match goal with
    | |- context [Sparkline.place ?f ?pt] =>
        destruct (place_coordinates f pt) as [_ ->]
    end.
    cbn [Sparkline.v Sparkline.finite_point Sparkline.minY Sparkline.spanY snd].
    rewrite Hdist.
    destruct (round_double_nonneg _ Hge) as [-> | [d ->]].
    + vm_compute. reflexivity.
    + unfold Sparkline.or_one. cbn [num_truthy].
      destruct (Qeq_bool d 0) eqn:Hd; cbn [negb].
      * apply Qeq_bool_iff in Hd.
        assert (Hr : Sparkline.num_div (Finite d) (Finite 1) = Finite 0).
        { unfold Sparkline.num_div. cbn [Sparkline.quotient].
          change (Qeq_bool 1 0) with false. cbn [rounded].
          apply round_double_zero. rewrite Hd. reflexivity. }
        rewrite Hr. vm_compute. reflexivity.
      * assert (Hr : Sparkline.num_div (Finite d) (Finite d) = Finite 1).
        { unfold Sparkline.num_div. cbn [Sparkline.quotient]. rewrite Hd.
          cbn [rounded]. rewrite (round_double_compat (d / d) 1).
          - vm_compute. reflexivity.
          - field. intros Hz. apply Qeq_bool_iff in Hz. congruence. }
        rewrite Hr. vm_compute. reflexivity.
Qed.

(** Values as far apart as -1e308 and 1e308: the span is infinite, the
    lower point is drawn on the bottom line and the upper one has no y. *)
Example far_apart_upper_point_has_no_y :
  Sparkline.spanY (Sparkline.frame_of (map Sparkline.finite_point Fixtures.far_apart))
  = PosInf
  /\ map Sparkline.y (Sparkline.plot (map Sparkline.finite_point Fixtures.far_apart))
     = [Finite 112; NaN].
Proof. vm_compute. split; reflexivity. Qed.

(** The three sample snapshots; the first y is the double that prints as
    77.33333333333334. *)
Example three_snapshots_plot :
  Sparkline.plot (map Sparkline.finite_point Fixtures.three_snapshots)
  = [ {| Sparkline.x := Finite 8;
         Sparkline.y := Finite (2720924774869675 # 35184372088832) |};
      {| Sparkline.x := Finite 280; Sparkline.y := Finite 8 |};
      {| Sparkline.x := Finite 552; Sparkline.y := Finite 112 |} ].
Proof. vm_compute. reflexivity. Qed.

End Chart.

(** ** Toasts and the theme button *)

Section Shell.
Import Toast.

Lemma In_take {A} (n : nat) (l : list A) (a : A) : In a (take n l) -> In a l.
Proof.
  intros Hin. rewrite <- (firstn_skipn n l). apply in_or_app. now left.
Qed.

Lemma toast_run_snoc (events : list toast_event) (e : toast_event) :
  toast_run (events ++ [e]) = toast_step (toast_run events) e.
Proof. unfold toast_run. now rewrite fold_left_app. Qed.

(** X24. Whatever is pushed and whenever the timers fire, at most four
    toasts are on screen and each of them was pushed; a new toast comes
    first and keeps the three most recent ones, and a timer that fires
    leaves no toast with its id behind. *)
Theorem toasts_at_most_four (events : list toast_event) :
  length (toast_run events) <= 4
  /\ (forall toast, In toast (toast_run events) -> In (Pushed toast) events)
  /\ (forall toast,
        toast_run (events ++ [Pushed toast]) = toast :: take 3 (toast_run events))
  /\ (forall id toast,
        In toast (toast_run (events ++ [TimerFired id])) ->
        toast_id toast <> id /\ In toast (toast_run events)).
Proof.
  split; [| split; [| split]].
  - induction events as [| e events IH] using rev_ind; [simpl; lia |].
    rewrite toast_run_snoc. destruct e as [toast | id]; cbn [toast_step].
    + unfold push. apply firstn_le_length.
    + unfold expire. etransitivity; [apply filter_length_le | exact IH].
  - induction events as [| e events IH] using rev_ind; [intros ? [] |].
    intros toast. rewrite toast_run_snoc, in_app_iff.
    destruct e as [pushed | id]; cbn [toast_step].
    + unfold push. intros Hin. apply In_take in Hin as [-> | Hin].
      * right. now left.
      * left. now apply IH.
    + unfold expire. intros Hin. apply List.filter_In in Hin as [Hin _].
      left. now apply IH.
  - intros toast. rewrite toast_run_snoc. reflexivity.
  - intros id toast. rewrite toast_run_snoc. cbn [toast_step]. unfold expire.
    intros Hin. apply List.filter_In in Hin as [Hin Hid]. split; [| exact Hin].
    intros Heq. rewrite Heq, String.eqb_refl in Hid. discriminate.
Qed.

(** X25. The theme button walks through light, dark and system in this
    order: from any theme the first click leads into the cycle, and three
    more clicks lead back to where the first one led; a theme that is
    neither light nor dark is treated as system. *)
Theorem theme_cycle_period_three (theme : option string) :
  let click := ThemeToggle.click in
  click (click (click (click theme))) = click theme
  /\ click (Some "light") = Some "dark"
  /\ click (Some "dark") = Some "system"
  /\ click (Some "system") = Some "light"
  /\ (ThemeToggle.is_theme theme "light" = false ->
      ThemeToggle.is_theme theme "dark" = false ->
      click theme = click (Some "system")
      /\ ThemeToggle.label theme = ThemeToggle.label (Some "system")
      /\ ThemeToggle.icon theme = ThemeToggle.icon (Some "system")).
Proof.
  cbv zeta.
  split; [| split; [reflexivity | split; [reflexivity | split; [reflexivity |]]]].
  - unfold ThemeToggle.click, ThemeToggle.cycle, ThemeToggle.current.
    destruct (ThemeToggle.is_theme theme "light");
      [| destruct (ThemeToggle.is_theme theme "dark")]; reflexivity.
  - intros Hlight Hdark.
    unfold ThemeToggle.click, ThemeToggle.cycle, ThemeToggle.current,
      ThemeToggle.label, ThemeToggle.icon.
    rewrite Hlight, Hdark. repeat split.
Qed.

End Shell.

(** ** AllocationPanel: the second round and the reset *)

Section PanelRounds.
Import AllocationActions.
Context `{Host}.

(** X26. After a confirmation that deducted something, the next
    suggestion request carries the deducted assets as its [prefill]
    argument, and when their sum is positive (or not a number) the reply
    to that request leaves the stored expectation as it is. *)
Theorem resuggest_carries_deduction (metaById : gmap string asset_meta)
    (s : PanelState) (sg : ContributionSuggestion) (e : string * jsval) (d : dict)
    (amt : number) (sug : option ContributionSuggestion) (reply : snapshot_reply) :
  prefill_assets sg = Some (e :: d) ->
  let s1 := confirmCrypto_onSuccess s (Some sg) in
  suggest_mutationFn s1 amt
  = Requests
      ("/api/v2/allocation/suggest?"
         ++ search_params_to_string
              [("contribution", number_to_string amt);
               ("prefill", json_stringify (JObj (e :: d)))])
  /\ (num_leb (prefillSum s1) (Finite 0) = false ->
      expectedCrypto (suggest_onSuccess metaById s1 sug amt reply) = expectedCrypto s).
Proof.
  intros Hpa s1. subst s1. split.
  - unfold suggest_mutationFn, confirmCrypto_onSuccess.
    cbn [st_prefillAssets]. rewrite Hpa. reflexivity.
  - intros Hsum. unfold suggest_onSuccess. cbn [expectedCrypto].
    rewrite Hsum. reflexivity.
Qed.

(** X27. The clear button and a successful apply end the flow: from the
    state they leave, the suggest button only warns, no notice is shown,
    the confirm button throws on every host, and on a host that reads the
    empty string as 0 both confirm and apply refuse for the missing
    amount. *)
Theorem reset_ends_the_flow (metaById : gmap string asset_meta) (s : PanelState)
    (settings : jsval) :
  showSuggest (reset s) = ToastWarn "请输入新增资金"
  /\ render_crypto_notice metaById (reset s) settings = NoNotice
  /\ (exists msg, confirmCrypto_mutationFn (reset s) settings = Throws msg)
  /\ (string_to_number "" = Finite 0 ->
      confirmCrypto_mutationFn (reset s) settings = Throws "invalid amount"
      /\ apply_mutationFn (reset s) = ApplyThrows "请输入新增资金").
Proof.
  split; [reflexivity |]. split; [reflexivity |].
  unfold confirmCrypto_mutationFn, apply_mutationFn, applyAmount, baseAmount, reset.
  cbn [contributionTotal contributionRemaining contribution cryptoBaseline].
  split.
  - destruct (rejected_amount (string_to_number "")); eauto.
  - intros ->. split; reflexivity.
Qed.

End PanelRounds.

(** ** The further properties on the sample inputs *)

Section MoreInstances.
Import Samples Fixtures AllocationActions.

Lemma fmtNum_keeps_undotted_witness :
  Format.fmtNum (H := sample_host) (JNum (Finite 1200)) 2
  = toLocaleString (Host := sample_host) 1200 2.
Proof.
  apply (fmtNum_keeps_undotted (H := sample_host) 1200 2).
  vm_compute. reflexivity.
Defined.

Lemma fmtNum_strips_fraction_witness :
  exists kept k,
    "50" = kept ++ FormatShape.zeros k
    /\ Format.ends_with "0" kept = false
    /\ Format.fmtNum (H := decimal_host) (JNum (Finite (25 # 2))) 2
       = if String.eqb kept "" then "12" else "12" ++ "." ++ kept.
Proof.
  apply (fmtNum_strips_fraction (H := decimal_host) (25 # 2) 2 "12" "50").
  - vm_compute. reflexivity.
  - reflexivity.
  - reflexivity.
Defined.

Lemma fmtSignedCny_sign_witness :
  Format.fmtSignedCny (H := sample_host) (JNum (Finite 5)) 2
    = "+" ++ Format.fmtNum (H := sample_host) (JNum (Finite 5)) 2
  /\ Format.fmtSignedCny (H := sample_host) (JNum (Finite (- (5)))) 2
     = "−" ++ Format.fmtNum (H := sample_host) (JNum (Finite 5)) 2
  /\ Format.fmtSignedCny (H := sample_host) (JNum (Finite 0)) 2
     = Format.fmtNum (H := sample_host) (JNum (Finite 0)) 2.
Proof.
  apply (fmtSignedCny_sign (H := sample_host) 5 2). reflexivity.
Defined.

Lemma apiFetch_error_message_witness :
  exists message,
    Api.apiFetch (H := sample_host) (H0 := text_runtime)
      (Api.FetchResolves failed_response)
    = Api.ApiErrorThrown 500 message
        (Api.parseJsonSafe (H := text_runtime) "database is locked")
    /\ (message = "" ->
        Api.json_parse (Runtime := text_runtime) "database is locked"
        = Some (JStr ""))
    /\ ("database is locked" <> "" ->
        Api.json_parse (Runtime := text_runtime) "database is locked" = None ->
        message = "database is locked")
    /\ (forall fields e,
          "database is locked" <> "" ->
          Api.json_parse (Runtime := text_runtime) "database is locked"
          = Some (JObj fields) ->
          own_get "error" fields = Some (JStr e) -> e <> "" ->
          message = e).
Proof.
  apply (apiFetch_error_message (H := sample_host) (H0 := text_runtime)
           failed_response "database is locked"); reflexivity.
Defined.

Lemma buildAssetMetaById_last_wins_witness :
  buildAssetMetaById (Some {| ui_view := Some sample_view |}) !! "eth"
  = Some (meta_of eth_wallet).
Proof.
  apply (buildAssetMetaById_last_wins sample_view [eth_manual] [cash_view] eth_wallet).
  - reflexivity.
  - repeat constructor. discriminate.
Defined.

Lemma confirm_after_suggest_issues_request_witness :
  exists s' url,
    phase1 (H := sample_host) sample_meta typed_1000 (Some sample_suggestion)
      (SnapshotOk (Some sample_snapshot)) = Some s'
    /\ confirmCrypto_mutationFn (H := sample_host) s' JNull = Requests url.
Proof.
  apply (confirm_after_suggest_issues_request (H := sample_host) sample_meta
           typed_1000 (Some sample_suggestion) (Some sample_snapshot) JNull
           sample_entry).
  - vm_compute. reflexivity.
  - vm_compute. reflexivity.
  - simpl. left. reflexivity.
  - vm_compute. reflexivity.
  - vm_compute. reflexivity.
Defined.

Lemma apply_after_suggest_posts_amount_witness :
  apply_mutationFn (H := sample_host) after_suggest
  = ApplyPosts "/api/v2/allocation/apply"
      (("contribution", JNum (entered_amount (H := sample_host) typed_1000)) ::
       match st_prefillAssets typed_1000 with
       | Some d => if (0 <? length d)%nat then [("prefill_assets", JObj d)] else []
       | None => []
       end).
Proof.
  apply (apply_after_suggest_posts_amount (H := sample_host) sample_meta typed_1000
           after_suggest (Some sample_suggestion) (SnapshotOk (Some sample_snapshot))).
  vm_compute. reflexivity.
Defined.

Lemma apply_after_confirm_witness :
  ((600 <= 0)%Q ->
   apply_mutationFn (H := sample_host)
     (confirmCrypto_onSuccess (H := sample_host) after_suggest
        (Some confirmed_suggestion))
   = ApplyThrows "请输入新增资金")
  /\ ((0 < 600)%Q ->
      apply_mutationFn (H := sample_host)
        (confirmCrypto_onSuccess (H := sample_host) after_suggest
           (Some confirmed_suggestion))
      = ApplyPosts "/api/v2/allocation/apply"
          (("contribution", JNum (Finite 600)) ::
           match prefill_assets confirmed_suggestion with
           | Some (e :: d) => [("prefill_assets", JObj (e :: d))]
           | _ => []
           end)).
Proof.
  apply (apply_after_confirm (H := sample_host) after_suggest confirmed_suggestion 600).
  reflexivity.
Defined.

Lemma prompt_title_tells_missing_baseline_witness :
  title_without_baseline = title_without_baseline
  <-> confirmCrypto_mutationFn (H := sample_host) after_suggest_without_snapshot JNull
      = Throws "missing baseline".
Proof.
  apply (prompt_title_tells_missing_baseline (H := sample_host) sample_meta
           after_suggest_without_snapshot JNull
           (Format.fmtCny (H := sample_host) (JNum (Finite (0 + 400))) 2)
           ("ETH ¥" ++ Format.fmtCny (H := sample_host) (JNum (Finite 400)) 2)
           title_without_baseline
           (Format.fmtPct (H := sample_host)
              (JNum (readSlipPct (H := sample_host) JNull)) 2)).
  - vm_compute. reflexivity.
  - vm_compute. reflexivity.
Defined.

Lemma prompt_shown_iff_expected_stored_witness :
  (exists total_text items_text title slip_text,
      render_crypto_notice (H := sample_host) sample_meta after_suggest JNull
      = ConfirmPrompt total_text items_text title slip_text)
  <-> is_Some (expectedCrypto after_suggest).
Proof.
  apply (prompt_shown_iff_expected_stored (H := sample_host) sample_meta typed_1000
           after_suggest sample_suggestion (SnapshotOk (Some sample_snapshot)) JNull).
  - vm_compute. reflexivity.
  - vm_compute. reflexivity.
Defined.

Lemma byCategory_groups_every_asset_witness :
  exists g,
    AssetsPage.byCategory (H := sample_host) four_buckets [cash_asset; loose_asset]
    = AssetsPage.Returns g
    /\ AssetsPage.grouped (H := sample_host) (map cat_id four_buckets)
         [cash_asset; loose_asset] g
    /\ length (concat (map snd (AssetsPage.g_map g)))
       + length (AssetsPage.unassigned g)
       = length [cash_asset; loose_asset].
Proof.
  apply (byCategory_groups_every_asset (H := sample_host) four_buckets
           [cash_asset; loose_asset]).
  - repeat constructor; discriminate.
  - repeat constructor; left; reflexivity.
Defined.

Lemma dropped_asset_shows_in_bucket_witness :
  exists l,
    In ("gold", l) (AssetsPage.g_map regrouped_after_drop)
    /\ In {| pa_id := pa_id cash_asset; pa_kind := pa_kind cash_asset;
             pa_code := pa_code cash_asset; pa_name := pa_name cash_asset;
             pa_coingecko_id := pa_coingecko_id cash_asset;
             pa_category_id := Some "gold" |} l.
Proof.
  apply (dropped_asset_shows_in_bucket (H := sample_host) four_buckets
           [cash_asset; loose_asset] drop_on_gold "a2" "gold" "黄金"
           regrouped_after_drop).
  - vm_compute. reflexivity.
  - simpl. auto.
  - reflexivity.
  - vm_compute. reflexivity.
  - simpl. auto.
  - reflexivity.
Defined.

Lemma bucket_weight_edit_shown_witness :
  AssetsBoard.bucket_weight_shown (H := double_host)
    (AssetsBoard.bucket_weight_edited (H := double_host) "0.07")
  = JNum (Finite (7881299347898369 # 1125899906842624))
  /\ (forall r,
        AssetsBoard.bucket_weight_shown (H := double_host)
          (AssetsBoard.bucket_weight_edited (H := double_host) "0.07")
        = JNum (Finite r) ->
        ~ (r == 1261007895663739 # 18014398509481984)%Q).
Proof.
  destruct (bucket_weight_edit_shown (H := double_host) "0.07"
              (1261007895663739 # 18014398509481984)) as [Hshown Hdiffers].
  - discriminate.
  - vm_compute. reflexivity.
  - split.
    + rewrite Hshown. vm_compute. reflexivity.
    + apply Hdiffers; [vm_compute; reflexivity | discriminate].
Defined.

Lemma fmtDateInput_shape_witness :
  LedgerForm.date_shaped (LedgerForm.fmtDateInput second_of_november) = true.
Proof.
  apply (fmtDateInput_shape second_of_november); simpl; lia.
Defined.

Lemma present_xirr_is_shown_witness :
  LedgerPage.tc_xirr (LedgerPage.render_total_card (H := sample_host)
                        (Some metrics_with_xirr))
  = Some ("(" ++ Format.fmtPct (H := sample_host)
                   (JNum (num_mul (Number (H := sample_host)
                                     (mt_xirr_annual total_with_xirr))
                            (Finite 100))) 2 ++ ")")
  /\ LedgerPage.tc_profit (LedgerPage.render_total_card (H := sample_host)
                             (Some metrics_with_xirr))
     = Format.fmtSignedCny (H := sample_host)
         (if is_nullish (mt_profit total_with_xirr) then JNull
          else JNum (Number (H := sample_host) (mt_profit total_with_xirr))) 2.
Proof.
  apply (present_xirr_is_shown (H := sample_host) metrics_with_xirr total_with_xirr);
    reflexivity.
Defined.

Lemma extremes_on_the_frame_witness :
  Sparkline.y
    (Sparkline.place
       (Sparkline.frame_of (map Sparkline.finite_point three_snapshots))
       (Sparkline.finite_point (2, 90)%Q)) = Finite 112
  /\ Sparkline.y
       (Sparkline.place
          (Sparkline.frame_of (map Sparkline.finite_point three_snapshots))
          (Sparkline.finite_point (1, 120)%Q)) = Finite 8.
Proof.
  destruct (extremes_on_the_frame three_snapshots 2 90 1 120) as [Hlow Hhigh].
  - simpl. auto.
  - simpl. auto.
  - intros p [<- | [<- | [<- | []]]]; split; discriminate.
  - split; [exact Hlow |]. vm_compute in Hhigh. vm_compute. exact Hhigh.
Defined.

Lemma resuggest_carries_deduction_witness :
  suggest_mutationFn (H := sample_host)
    (confirmCrypto_onSuccess (H := sample_host) after_suggest
       (Some confirmed_suggestion))
    (Finite 600)
  = Requests
      ("/api/v2/allocation/suggest?"
         ++ search_params_to_string (Host := sample_host)
              [("contribution", number_to_string (Host := sample_host) (Finite 600));
               ("prefill",
                json_stringify (Host := sample_host)
                  (JObj [("eth", JNum (Finite 400))]))])
  /\ (num_leb
        (prefillSum (H := sample_host)
           (confirmCrypto_onSuccess (H := sample_host) after_suggest
              (Some confirmed_suggestion)))
        (Finite 0) = false ->
      expectedCrypto
        (suggest_onSuccess (H := sample_host) sample_meta
           (confirmCrypto_onSuccess (H := sample_host) after_suggest
              (Some confirmed_suggestion))
           (Some sample_suggestion) (Finite 600) SnapshotFailed)
      = expectedCrypto after_suggest).
Proof.
  exact (resuggest_carries_deduction (H := sample_host) sample_meta after_suggest
           confirmed_suggestion ("eth", JNum (Finite 400)) [] (Finite 600)
           (Some sample_suggestion) SnapshotFailed eq_refl).
Defined.

(** [confirm_request_mixes_rounds] on the second round: the confirm
    button is on screen while the second snapshot is awaited, a click
    sends the second amount and the second expected amounts with the first
    snapshot, and once the second snapshot is stored a click sends a
    different request. *)
Lemma confirm_request_mixes_rounds_witness :
  exists expected,
    expected = [("eth", CNum (Finite (0 + 800)))]
    /\ (exists total_text items_text slip_text,
          render_crypto_notice (H := json_host) sample_meta second_round_began JNull
          = ConfirmPrompt total_text items_text title_with_baseline slip_text)
    /\ confirmCrypto_mutationFn (H := json_host) second_round_began JNull
       = Requests
           (confirm_request_url (H := json_host) (Finite 2000)
              [("eth", JNum (Finite 50))] expected (Finite 1))
    /\ confirmCrypto_mutationFn (H := json_host)
         (suggest_onSuccess_end second_round_began (SnapshotOk (Some second_snapshot)))
         JNull
       = Requests
           (confirm_request_url (H := json_host) (Finite 2000)
              [("eth", JNum (Finite 70))] expected (Finite 1))
    /\ confirm_request_url (H := json_host) (Finite 2000)
         [("eth", JNum (Finite 50))] expected (Finite 1)
       <> confirm_request_url (H := json_host) (Finite 2000)
            [("eth", JNum (Finite 70))] expected (Finite 1).
Proof.
  assert (Hmid :
    confirmCrypto_mutationFn (H := json_host)
      (run (H := json_host) [] second_round_began) JNull
    = Requests
        (confirm_request_url (H := json_host) (Finite 2000)
           [("eth", JNum (Finite 50))] [("eth", CNum (Finite (0 + 800)))] (Finite 1))).
  { vm_compute. reflexivity. }
  destruct (confirm_request_mixes_rounds (H := json_host) sample_meta
              typed_2000_after_suggest (Some second_suggestion) (Finite 2000) [] JNull _
              eq_refl Hmid)
    as (stale & expected & Hstale & Hexpected & Hnew & _ & Hurl & Hlater).
  injection Hstale as <-.
  rewrite (Hnew eq_refl) in *.
  exists (prefillAssets
            (collectCryptoPrefill (H := json_host) (Some second_suggestion) sample_meta)).
  split; [vm_compute; reflexivity |].
  split; [do 3 eexists; vm_compute; reflexivity |].
  split; [vm_compute; reflexivity |].
  split.
  - destruct (confirmCrypto_mutationFn (H := json_host)
                (suggest_onSuccess_end second_round_began
                   (SnapshotOk (Some second_snapshot))) JNull) as [msg | url'] eqn:Hreq;
      [vm_compute in Hreq; discriminate Hreq |].
    destruct (Hlater (SnapshotOk (Some second_snapshot)) [] url' Hreq)
      as (body & Hbody & ->).
    injection Hbody as <-. reflexivity.
  - vm_compute. discriminate.
Defined.

End MoreInstances.
